(** * trex-browser-script: the court-records scraper [scrape-case.js]

    A shallow embedding of the scraping pipeline [scrapeCase], of the
    command-line entry point, and of the string, path and DOM primitives
    they use, together with the properties of the specification that can
    be stated over it.  The repository holds a second, earlier copy of
    the script with the same pipeline, console output in place of the
    dashboard updates, and its own entry point; the pipeline is modelled
    once, the two entry points separately.

    Strings are Rocq strings: sequences of 8-bit code units.  JavaScript
    strings are sequences of 16-bit code units; code units above 255 are
    outside the model (within the 8-bit range the white space of
    [String.prototype.trim] and of the regular-expression class [\s] is
    9-13, 32 and 160). *)

From Stdlib Require Import Ascii String List Bool Arith Lia DecimalString.
From stdpp Require Import base gmap strings list.

Set Warnings "-register-all".

Local Open Scope char_scope.
Local Open Scope string_scope.
Local Open Scope list_scope.
Local Open Scope stdpp_scope.

(* ================================================================== *)
(** * JavaScript string primitives *)
(* ================================================================== *)

Module JsString.

(** White space as [trim] and [\s] see it (8-bit range). *)
Definition is_space (c : ascii) : bool :=
  match c with
  | "009" | "010" | "011" | "012" | "013" | " " | "160" => true
  | _ => false
  end%char.

(** The character class of the handler regular expressions: the single
    quote (code 39) and the double quote (code 34). *)
Definition is_quote (c : ascii) : bool :=
  match c with
  | "039" | "034" => true
  | _ => false
  end%char.

(** Removal of the characters of a class at the start and at the end of
    a string. *)
Fixpoint strip_start (cls : ascii -> bool) (s : string) : string :=
  match s with
  | String c r => if cls c then strip_start cls r else s
  | EmptyString => EmptyString
  end.

Fixpoint strip_end (cls : ascii -> bool) (s : string) : string :=
  match s with
  | EmptyString => EmptyString
  | String c r =>
      match strip_end cls r with
      | EmptyString => if cls c then EmptyString else String c EmptyString
      | r' => String c r'
      end
  end.

Definition strip (cls : ascii -> bool) (s : string) : string :=
  strip_end cls (strip_start cls s).

(** [s.trim()] *)
Definition trim (s : string) : string := strip is_space s.

(** [strip_prefix p s] is the rest of [s] after the literal [p], when [s]
    starts with [p]. *)
Fixpoint strip_prefix (p s : string) : option string :=
  match p, s with
  | EmptyString, _ => Some s
  | String a p', String b s' =>
      if Ascii.eqb a b then strip_prefix p' s' else None
  | String _ _, EmptyString => None
  end.

(** [s.replace(pat, rep)] with a string pattern: only the first
    occurrence of [pat] is replaced ([rep] holds no [$] pattern in the
    program). *)
Fixpoint replace (pat rep s : string) : string :=
  match strip_prefix pat s with
  | Some rest => rep +:+ rest
  | None =>
      match s with
      | String c r => String c (replace pat rep r)
      | EmptyString => EmptyString
      end
  end.

(** [s.replace(/[cls]/g, '')]: every character of the class is removed. *)
Fixpoint remove_all (cls : ascii -> bool) (s : string) : string :=
  match s with
  | EmptyString => EmptyString
  | String c r => if cls c then remove_all cls r else String c (remove_all cls r)
  end.

(** The pieces of [s] between the characters of the class [sep]. *)
Fixpoint split_on (sep : ascii -> bool) (s : string) : list string :=
  match s with
  | EmptyString => [EmptyString]
  | String c r =>
      if sep c then EmptyString :: split_on sep r
      else match split_on sep r with
           | h :: t => String c h :: t
           | [] => [String c EmptyString]
           end
  end.

(** [s.split(sep)] for a one-character separator. *)
Definition split (sep : ascii) (s : string) : list string :=
  split_on (Ascii.eqb sep) s.

(** [parts.join(sep)] *)
Fixpoint join (sep : string) (parts : list string) : string :=
  match parts with
  | [] => EmptyString
  | [x] => x
  | x :: rest => x +:+ sep +:+ join sep rest
  end.

(** Leftmost match: the matcher [m] is tried at every position of [s],
    from the left (the end of the string included). *)
Fixpoint search {A} (m : string -> option A) (s : string) : option A :=
  match m s with
  | Some x => Some x
  | None =>
      match s with
      | String _ r => search m r
      | EmptyString => None
      end
  end.

(** The greedy quantifier [[cls]+] followed by the rest of the pattern
    [k], which receives the text matched by the quantifier and the
    remaining input.  The longest run is tried first and shorter ones on
    failure of [k], as a backtracking matcher does. *)
Fixpoint plus {A} (cls : ascii -> bool) (k : string -> string -> option A)
    (s : string) : option A :=
  match s with
  | String c r =>
      if cls c then
        match plus cls (fun m rest => k (String c m) rest) r with
        | Some x => Some x
        | None => k (String c EmptyString) r
        end
      else None
  | EmptyString => None
  end.

(** [s.includes(sub)] *)
Definition includes (sub s : string) : bool :=
  match search (strip_prefix sub) s with
  | Some _ => true
  | None => false
  end.

Definition count_char (c : ascii) (s : string) : nat :=
  List.length (List.filter (Ascii.eqb c) (list_ascii_of_string s)).

End JsString.

(* ================================================================== *)
(** * Node's [path] module (POSIX) *)
(* ================================================================== *)

Module NodePath.
Import JsString.

(** [normalizeString]: the segments between separators are scanned from
    the left; empty segments and [.] are dropped, [..] removes the
    segment before it (or is kept when there is none and the path is
    relative); [acc] is the stack of kept segments, last one first. *)
Fixpoint normalize_segments (allowAboveRoot : bool) (acc segs : list string)
    : list string :=
  match segs with
  | [] => rev acc
  | seg :: rest =>
      if String.eqb seg EmptyString || String.eqb seg "." then
        normalize_segments allowAboveRoot acc rest
      else if String.eqb seg ".." then
        match acc with
        | top :: acc' =>
            if String.eqb top ".." then
              normalize_segments allowAboveRoot
                (if allowAboveRoot then seg :: acc else acc) rest
            else normalize_segments allowAboveRoot acc' rest
        | [] =>
            normalize_segments allowAboveRoot
              (if allowAboveRoot then [seg] else []) rest
        end
      else normalize_segments allowAboveRoot (seg :: acc) rest
  end.

Definition starts_with_sep (p : string) : bool :=
  match p with
  | String "/" _ => true
  | _ => false
  end.

Fixpoint ends_with_sep (p : string) : bool :=
  match p with
  | EmptyString => false
  | String c EmptyString => Ascii.eqb c "/"
  | String _ r => ends_with_sep r
  end.

(** [path.normalize(p)] *)
Definition normalize (p : string) : string :=
  match p with
  | EmptyString => "."
  | _ =>
      let isAbsolute := starts_with_sep p in
      let trailingSeparator := ends_with_sep p in
      let body :=
        join "/" (normalize_segments (negb isAbsolute) [] (split "/" p)) in
      match body with
      | EmptyString =>
          if isAbsolute then "/" else if trailingSeparator then "./" else "."
      | _ =>
          (if isAbsolute then "/" else EmptyString) +:+ body +:+
          (if trailingSeparator then "/" else EmptyString)
      end
  end.

(** [path.join(a, b)]: the non-empty arguments are glued with [/] and the
    result is normalized. *)
Definition path_join (a b : string) : string :=
  match a, b with
  | EmptyString, EmptyString => "."
  | EmptyString, _ => normalize b
  | _, EmptyString => normalize a
  | _, _ => normalize (a +:+ "/" +:+ b)
  end.

End NodePath.

(* ================================================================== *)
(** * The page: a DOM tree and the selectors the program queries *)
(* ================================================================== *)

Module Dom.
Import JsString.

(** Tag and attribute names are stored in lower case, as the HTML parser
    leaves them. *)
Inductive node :=
| Text (data : string)
| Elem (tag : string) (attrs : list (string * string)) (children : list node).

Fixpoint assoc (k : string) (l : list (string * string)) : option string :=
  match l with
  | [] => None
  | (k', v) :: rest => if String.eqb k k' then Some v else assoc k rest
  end.

(** [el.getAttribute(name)], [None] for [null]. *)
Definition getAttribute (name : string) (n : node) : option string :=
  match n with
  | Elem _ attrs _ => assoc name attrs
  | Text _ => None
  end.

(** [el.textContent]: the text of all descendants, in document order. *)
Fixpoint textContent (n : node) : string :=
  match n with
  | Text d => d
  | Elem _ _ kids =>
      (fix go (ks : list node) : string :=
         match ks with
         | [] => EmptyString
         | k :: r => textContent k +:+ go r
         end) kids
  end.

(** The element and all elements below it, in document order. *)
Fixpoint all_elements (n : node) : list node :=
  match n with
  | Text _ => []
  | Elem _ _ kids =>
      n :: (fix go (ks : list node) : list node :=
              match ks with
              | [] => []
              | k :: r => all_elements k ++ go r
              end) kids
  end.

(** ASCII white space separating the tokens of a [class] attribute. *)
Definition is_html_space (c : ascii) : bool :=
  match c with
  | "009" | "010" | "012" | "013" | " " => true
  | _ => false
  end%char.

Definition nonempty (s : string) : bool :=
  match s with
  | EmptyString => false
  | String _ _ => true
  end.

Definition classList (n : node) : list string :=
  match getAttribute "class" n with
  | Some v => List.filter nonempty (split_on is_html_space v)
  | None => []
  end.

Definition has_class (c : string) (n : node) : bool :=
  existsb (String.eqb c) (classList n).

(** Attribute tests of a selector: [[name]], [[name=value]] and
    [[name*=value]]. *)
Inductive attr_test :=
| AttrPresent (name : string)
| AttrEquals (name value : string)
| AttrContains (name value : string).

Definition attr_holds (t : attr_test) (n : node) : bool :=
  match t with
  | AttrPresent a =>
      match getAttribute a n with Some _ => true | None => false end
  | AttrEquals a v =>
      match getAttribute a n with Some x => String.eqb x v | None => false end
  | AttrContains a v =>
      match getAttribute a n with
      | Some x => nonempty v && includes v x
      | None => false
      end
  end.

(** A compound selector: an optional tag, an optional class and an
    optional attribute test. *)
Record compound := {
  sel_tag : option string;
  sel_class : option string;
  sel_attr : option attr_test
}.

Definition matches_compound (c : compound) (n : node) : bool :=
  match n with
  | Text _ => false
  | Elem tag _ _ =>
      match sel_tag c with Some t => String.eqb t tag | None => true end &&
      match sel_class c with Some k => has_class k n | None => true end &&
      match sel_attr c with Some t => attr_holds t n | None => true end
  end.

(** The compounds of a descendant chain, innermost first, against the
    ancestors of an element, nearest first. *)
Fixpoint matches_ancestors (chain : list compound) (ancs : list node) : bool :=
  match chain with
  | [] => true
  | c :: cs =>
      (fix find (l : list node) : bool :=
         match l with
         | [] => false
         | a :: rest =>
             if matches_compound c a then matches_ancestors cs rest
             else find rest
         end) ancs
  end.

(** A complex selector is a chain of compounds joined by the descendant
    combinator, outermost first; a selector is a comma list of them. *)
Definition complex := list compound.
Definition selector := list complex.

Definition matches_complex (x : complex) (ancs : list node) (n : node) : bool :=
  match rev x with
  | [] => false
  | c :: cs => matches_compound c n && matches_ancestors cs ancs
  end.

Definition matches (sel : selector) (ancs : list node) (n : node) : bool :=
  existsb (fun x => matches_complex x ancs n) sel.

Fixpoint query_from (sel : selector) (ancs : list node) (n : node) : list node :=
  match n with
  | Text _ => []
  | Elem _ _ kids =>
      (if matches sel ancs n then [n] else []) ++
      (fix go (ks : list node) : list node :=
         match ks with
         | [] => []
         | k :: r => query_from sel (n :: ancs) k ++ go r
         end) kids
  end.

(** [document.querySelectorAll(sel)], on the root element of the page. *)
Definition querySelectorAll (sel : selector) (root : node) : list node :=
  query_from sel [] root.

(** [document.querySelector(sel)] and [page.$(sel)]: the first match. *)
Definition querySelector (sel : selector) (root : node) : option node :=
  List.head (querySelectorAll sel root).

(** [el.querySelectorAll(c)] for a compound selector: the matching
    elements strictly below [el]. *)
Definition descendants (c : compound) (el : node) : list node :=
  match el with
  | Text _ => []
  | Elem _ _ kids => flat_map (query_from [[c]] [el]) kids
  end.

Definition by_tag (t : string) : compound :=
  {| sel_tag := Some t; sel_class := None; sel_attr := None |}.
Definition by_class (k : string) : compound :=
  {| sel_tag := None; sel_class := Some k; sel_attr := None |}.
Definition by_attr (t : attr_test) : compound :=
  {| sel_tag := None; sel_class := None; sel_attr := Some t |}.
Definition by_tag_attr (tg : string) (t : attr_test) : compound :=
  {| sel_tag := Some tg; sel_class := None; sel_attr := Some t |}.

End Dom.

(* ================================================================== *)
(** * Parsing of inline handlers and of the case text *)
(* ================================================================== *)

Module Parse.
Import JsString Dom.

Definition dquote : string := String "034" EmptyString.

Definition is_char (c d : ascii) : bool := Ascii.eqb c d.

(** The regular expression [/fname\(([^)]+)\)/] applied with [match]:
    the text captured by the group of the leftmost match, [None] when
    the expression does not match. *)
Definition call_arguments (fname onclick : string) : option string :=
  search (fun t =>
    match strip_prefix (fname +:+ "(") t with
    | Some r =>
        plus (fun c => negb (is_char ")" c))
             (fun m rest =>
                match rest with
                | String c _ => if is_char ")" c then Some m else None
                | EmptyString => None
                end) r
    | None => None
    end) onclick.

(** [args.split(',').map(p => p.trim().replace(/[quotes]/g, ''))] *)
Definition parse_params (args : string) : list string :=
  List.map (fun p => remove_all is_quote (trim p)) (split "," args).

(** [${params[i]}] inside a template literal: a missing element is
    [undefined] and is printed as such. *)
Definition param (i : nat) (params : list string) : string :=
  match nth_error params i with
  | Some x => x
  | None => "undefined"
  end.

(** The regular expression [/openPDF\([quote]([^quotes]+)[quote]/], where
    a quote is either quote character: the captured group of the leftmost
    match. *)
Definition openPDF_url (onclick : string) : option string :=
  search (fun t =>
    match strip_prefix "openPDF(" t with
    | Some (String q r) =>
        if is_quote q then
          plus (fun c => negb (is_quote c))
               (fun m rest =>
                  match rest with
                  | String q' _ => if is_quote q' then Some m else None
                  | EmptyString => None
                  end) r
        else None
    | _ => None
    end) onclick.

Definition to_lower (c : ascii) : ascii :=
  let n := nat_of_ascii c in
  if Nat.leb 65 n && Nat.leb n 90 then ascii_of_nat (n + 32) else c.

(** A literal of ASCII letters under the flag [i]; [p] is given in lower
    case. *)
Fixpoint strip_prefix_ci (p s : string) : option string :=
  match p, s with
  | EmptyString, _ => Some s
  | String a p', String b s' =>
      if Ascii.eqb a (to_lower b) then strip_prefix_ci p' s' else None
  | String _ _, EmptyString => None
  end.

(** [(text.match(/Label[s]?[:\s]+([^\n]+)/i) || [])[1]] with [label] the
    label in lower case: the optional [s] is tried first and given back
    when the rest does not match. *)
Definition labelled_line (label text : string) : option string :=
  search (fun t =>
    match strip_prefix_ci label t with
    | Some r =>
        let rest_of_pattern :=
          plus (fun c => is_char ":" c || is_space c)
               (fun _ rest =>
                  plus (fun c => negb (is_char "010" c))
                       (fun m _ => Some m) rest) in
        match
          match r with
          | String c r' =>
              if is_char "s" (to_lower c) then rest_of_pattern r' else None
          | EmptyString => None
          end
        with
        | Some x => Some x
        | None => rest_of_pattern r
        end
    | None => None
    end) text.

End Parse.

(* ================================================================== *)
(** * The result aggregate and the environment *)
(* ================================================================== *)

Module Scraper.
Import JsString NodePath Dom Parse.

Definition CDP_URL : string := "http://127.0.0.1:18800".
Definition SEARCH_URL : string :=
  "https://iapps.courts.state.ny.us/webcivil/FCASSearch".
Definition DOWNLOAD_DIR : string := "/tmp/trex-pdfs".

Record CaseInfo := {
  plaintiff : option string;
  defendant : option string
}.

(** An element of [result.documents]; [date] is [None] for [undefined]. *)
Record DocumentRecord := {
  name : string;
  type : string;
  url : string;
  date : option string
}.

(** The object [result].  [pdfs] is the object used as a map from the
    document type to the local path; [error] is [None] for [null];
    [hcaptchaSitekey] is [None] while the property is absent and
    [Some None] when it is [null]. *)
Record ScrapeResult := {
  success : bool;
  indexNumber : string;
  county : string;
  caseDir : string;
  pdfs : gmap string string;
  error : option string;
  hcaptchaDetected : bool;
  hcaptchaSitekey : option (option string);
  caseInfo : option CaseInfo;
  documents : list DocumentRecord
}.

Definition set_success (b : bool) (r : ScrapeResult) : ScrapeResult :=
  {| success := b; indexNumber := indexNumber r; county := county r;
     caseDir := caseDir r; pdfs := pdfs r; error := error r;
     hcaptchaDetected := hcaptchaDetected r;
     hcaptchaSitekey := hcaptchaSitekey r; caseInfo := caseInfo r;
     documents := documents r |}.

Definition set_pdf (k v : string) (r : ScrapeResult) : ScrapeResult :=
  {| success := success r; indexNumber := indexNumber r; county := county r;
     caseDir := caseDir r; pdfs := <[k := v]> (pdfs r); error := error r;
     hcaptchaDetected := hcaptchaDetected r;
     hcaptchaSitekey := hcaptchaSitekey r; caseInfo := caseInfo r;
     documents := documents r |}.

Definition set_error (e : string) (r : ScrapeResult) : ScrapeResult :=
  {| success := success r; indexNumber := indexNumber r; county := county r;
     caseDir := caseDir r; pdfs := pdfs r; error := Some e;
     hcaptchaDetected := hcaptchaDetected r;
     hcaptchaSitekey := hcaptchaSitekey r; caseInfo := caseInfo r;
     documents := documents r |}.

Definition set_hcaptchaDetected (b : bool) (r : ScrapeResult) : ScrapeResult :=
  {| success := success r; indexNumber := indexNumber r; county := county r;
     caseDir := caseDir r; pdfs := pdfs r; error := error r;
     hcaptchaDetected := b;
     hcaptchaSitekey := hcaptchaSitekey r; caseInfo := caseInfo r;
     documents := documents r |}.

Definition set_hcaptchaSitekey (k : option string) (r : ScrapeResult)
    : ScrapeResult :=
  {| success := success r; indexNumber := indexNumber r; county := county r;
     caseDir := caseDir r; pdfs := pdfs r; error := error r;
     hcaptchaDetected := hcaptchaDetected r;
     hcaptchaSitekey := Some k; caseInfo := caseInfo r;
     documents := documents r |}.

Definition set_caseInfo (c : CaseInfo) (r : ScrapeResult) : ScrapeResult :=
  {| success := success r; indexNumber := indexNumber r; county := county r;
     caseDir := caseDir r; pdfs := pdfs r; error := error r;
     hcaptchaDetected := hcaptchaDetected r;
     hcaptchaSitekey := hcaptchaSitekey r; caseInfo := Some c;
     documents := documents r |}.

Definition set_documents (d : list DocumentRecord) (r : ScrapeResult)
    : ScrapeResult :=
  {| success := success r; indexNumber := indexNumber r; county := county r;
     caseDir := caseDir r; pdfs := pdfs r; error := error r;
     hcaptchaDetected := hcaptchaDetected r;
     hcaptchaSitekey := hcaptchaSitekey r; caseInfo := caseInfo r;
     documents := d |}.

(** The places of [scrapeCase] where a call into the file system or the
    browser can throw (or its promise reject).  The rejections of the
    wait for the navigation and of the close in the [finally] clause are
    swallowed where they arise, so nothing depends on them. *)
Inductive site :=
| AtMkdir
| AtConnect | AtNewPage
| AtGotoSearch | AtWaitIndex | AtType | AtEvalCounty | AtSelect
| AtClick | AtWaitNavigation
| AtQueryCaptcha | AtEvalSitekey | AtCloseCaptcha
| AtQueryCase | AtCloseNotFound | AtEvalCaseOnclick
| AtGotoCase | AtEvalCaseText
| AtEvalEfiled | AtCloseNoButton
| AtGotoEfiled | AtEvalDocs | AtCloseNoDocs
| AtFetch (i : nat) | AtWrite (i : nat)
| AtCloseDone | AtCloseFinally.

(** The capability calls issued by the program, and its writes. *)
Inductive call :=
| MkdirSync (path : string)
| WriteFileSync (path : string)
| DashboardQuery (agentId step status : string)
| Connect (browserURL : string)
| NewPage
| Goto (url : string)
| WaitForSelector (sel : string)
| TypeText (sel text : string)
| EvaluateCounty (county : string)
| SelectOption (sel value : string)
| Click (sel : string)
| WaitForNavigation
| Query (sel : string)
| QueryEval (sel : string)
| EvaluateInnerText
| EvaluateDocs
| EvaluateFetch (url : string)
| ClosePage.

(** The decoded bytes of a base64 payload, [Buffer.from(base64, 'base64')]. *)
Inductive buffer := FromBase64 (payload : string).

(** Everything the program does not decide: whether the module loaded a
    configuration and built the connection pool, which calls throw and
    with what message (a timeout is such an exception), the value the
    script of the court selection returns, and what the pages hold: the
    search result, the case page with its rendered text, the documents
    page, and the base64 payload the in-page fetch of the document of
    index [i] at [url] returns.  A page does not change between the
    queries made on it. *)
Record world := {
  pool : bool;
  fault : site -> option string;
  countyValue : option string;
  result_page : node;
  case_page : node;
  case_text : string;
  docs_page : node;
  fetched : nat -> string -> string
}.

(** The mutable state of one run: the object [result], whether the
    variable [page] holds a page, the counter [downloaded], the calls
    issued so far (oldest first) and the file system. *)
Record state := {
  result : ScrapeResult;
  page : bool;
  downloaded : nat;
  calls : list call;
  dirs : gset string;
  files : gmap string buffer
}.

Definition with_result (f : ScrapeResult -> ScrapeResult) (s : state) : state :=
  {| result := f (result s); page := page s; downloaded := downloaded s;
     calls := calls s; dirs := dirs s; files := files s |}.

Definition with_page (b : bool) (s : state) : state :=
  {| result := result s; page := b; downloaded := downloaded s;
     calls := calls s; dirs := dirs s; files := files s |}.

Definition with_downloaded (n : nat) (s : state) : state :=
  {| result := result s; page := page s; downloaded := n;
     calls := calls s; dirs := dirs s; files := files s |}.

Definition log (c : call) (s : state) : state :=
  {| result := result s; page := page s; downloaded := downloaded s;
     calls := calls s ++ [c]; dirs := dirs s; files := files s |}.

(** The call is issued only when [b] holds. *)
Definition log_when (b : bool) (c : call) (s : state) : state :=
  {| result := result s; page := page s; downloaded := downloaded s;
     calls := calls s ++ (if b then [c] else []);
     dirs := dirs s; files := files s |}.

Definition with_dirs (d : gset string) (s : state) : state :=
  {| result := result s; page := page s; downloaded := downloaded s;
     calls := calls s; dirs := d; files := files s |}.

Definition with_file (p : string) (b : buffer) (s : state) : state :=
  {| result := result s; page := page s; downloaded := downloaded s;
     calls := calls s; dirs := dirs s; files := <[p := b]> (files s) |}.

(** How a piece of the body of [scrapeCase] ends: normally, by a thrown
    exception (its message), or by the statement [return result]. *)
Inductive signal (A : Type) :=
| Normal (a : A)
| Throw (msg : string)
| Return.
Arguments Normal {A} a.
Arguments Throw {A} msg.
Arguments Return {A}.

Definition M (A : Type) : Type := state -> signal A * state.

Definition ret {A} (a : A) : M A := fun s => (Normal a, s).

Definition bind {A B} (m : M A) (k : A -> M B) : M B :=
  fun s =>
    match m s with
    | (Normal a, s') => k a s'
    | (Throw msg, s') => (Throw msg, s')
    | (Return, s') => (Return, s')
    end.

Declare Scope scrape_scope.
Notation "x ← m ; k" := (bind m (fun x => k))
  (at level 20, m at level 100, k at level 200, only parsing) : scrape_scope.
Notation "m ;; k" := (bind m (fun _ => k))
  (at level 100, k at level 200, only parsing, right associativity)
  : scrape_scope.
Local Open Scope scrape_scope.

Definition throw {A} (msg : string) : M A := fun s => (Throw msg, s).
Definition return_result {A} : M A := fun s => (Return, s).
Definition modify (f : state -> state) : M unit := fun s => (Normal tt, f s).
Definition assign (f : ScrapeResult -> ScrapeResult) : M unit :=
  modify (with_result f).

(** A piece that reads the current state. *)
Definition with_state {A} (f : state -> M A) : M A := fun s => f s s.

(** [promise.catch(() => dflt)] *)
Definition catch_default {A} (m : M A) (dflt : A) : M A :=
  fun s =>
    match m s with
    | (Throw _, s') => (Normal dflt, s')
    | other => other
    end.

(* ================================================================== *)
(** * The pipeline [scrapeCase] *)
(* ================================================================== *)

Definition dec (n : nat) : string := NilEmpty.string_of_uint (Nat.to_uint n).

(** The selectors of the program, as text (for the log of calls) and as
    data (for the queries against the page). *)
Definition attr_contains_text (tag attr value : string) : string :=
  tag +:+ "[" +:+ attr +:+ "*=" +:+ dquote +:+ value +:+ dquote +:+ "]".

Definition captcha_selector : selector :=
  [ [by_attr (AttrPresent "data-sitekey")];
    [by_class "h-captcha"];
    [by_tag_attr "iframe" (AttrContains "src" "hcaptcha")] ].
Definition captcha_selector_text : string :=
  "[data-sitekey], .h-captcha, " +:+ attr_contains_text "iframe" "src" "hcaptcha".

Definition sitekey_selector : selector :=
  [ [by_attr (AttrPresent "data-sitekey")] ].

Definition case_link_selector : selector :=
  [ [by_tag_attr "a" (AttrContains "onclick" "openCaseDetailsWindow")] ].
Definition case_link_selector_text : string :=
  attr_contains_text "a" "onclick" "openCaseDetailsWindow".

Definition efiled_selector : selector :=
  [ [by_tag_attr "input" (AttrContains "onclick" "openDocumentWindow")] ].
Definition efiled_selector_text : string :=
  attr_contains_text "input" "onclick" "openDocumentWindow".

Definition court_select_text : string :=
  "select[name=" +:+ dquote +:+ "cboCourt" +:+ dquote +:+ "]".

Definition rows_selector : selector := [ [by_tag "table"; by_tag "tr"] ].

Definition JUDGMENT_NAME : string := "JUDGMENT OF FORECLOSURE AND SALE".
Definition NOTICE_NAME : string := "NOTICE OF SALE".

(** The body of the [forEach] callback of the documents page: what one
    row pushes onto [results], if anything; [capture] is the match of the
    handler against the expression of [openPDF_url]. *)
Definition scan_row_with (capture : string -> option string) (row : node)
    : option DocumentRecord :=
  let cells := descendants (by_tag "td") row in
  if Nat.leb 3 (List.length cells) then
    let link :=
      match nth_error cells 2 with
      | Some cell => List.head (descendants (by_tag "a") cell)
      | None => None
      end in
    let docName :=
      match link with
      | Some l => trim (textContent l)
      | None => EmptyString
      end in
    let onclick :=
      match link with
      | Some l =>
          match getAttribute "onclick" l with
          | Some h => h
          | None => EmptyString
          end
      | None => EmptyString
      end in
    if (String.eqb docName JUDGMENT_NAME || String.eqb docName NOTICE_NAME)
       && nonempty onclick
    then
      match capture onclick with
      | Some u =>
          Some {| name := docName;
                  type := if includes "JUDGMENT" docName
                          then "judgment" else "notice";
                  url := u;
                  date := option_map (fun c => trim (textContent c))
                            (nth_error cells 1) |}
      | None => None
      end
    else None
  else None.

Definition scan_row : node -> option DocumentRecord :=
  scan_row_with openPDF_url.

(** The script evaluated in the documents page. *)
Definition scan_documents (root : node) : list DocumentRecord :=
  omap scan_row (querySelectorAll rows_selector root).

Definition caseUrl (params : list string) : string :=
  "https://iapps.courts.state.ny.us/webcivil/FCASCaseInfo?parm=" +:+ param 1 params
  +:+ "&index=" +:+ param 3 params +:+ "&county=" +:+ param 2 params
  +:+ "&motion=" +:+ param 4 params +:+ "&docs=" +:+ param 5 params
  +:+ "&adate=" +:+ param 6 params +:+ "&civilCaseId=" +:+ param 7 params.

Definition efiledUrl (efiledParams : list string) : string :=
  "https://iapps.courts.state.ny.us/webcivil/FCASeFiledDocsDetail?county_code="
  +:+ param 1 efiledParams +:+ "&txtIndexNo=" +:+ param 2 efiledParams
  +:+ "&showMenu=no&isPreRji=" +:+ param 3 efiledParams
  +:+ "&civilCase=" +:+ param 4 efiledParams.

(** The exception of [x.match(re)[1]] when the expression does not match,
    and the one of [x.match(re)] when [x] is [null]. *)
Definition null_index_error : string :=
  "Cannot read properties of null (reading '1')".
Definition null_match_error : string :=
  "Cannot read properties of null (reading 'match')".

(** The exception of [page.$eval] when no element matches. *)
Definition no_element_error (sel : string) : string :=
  "Error: failed to find element matching selector " +:+ dquote +:+ sel +:+ dquote.

(** The directories [fs.mkdirSync(p, {recursive: true})] makes sure of:
    [p] and the directories above it. *)
Fixpoint dir_prefixes (seen rest : string) : list string :=
  match rest with
  | EmptyString => [seen]
  | String c r =>
      (if is_char "/" c && nonempty seen then [seen] else []) ++
      dir_prefixes (seen +:+ String c EmptyString) r
  end.

Definition mkdir_recursive (p : string) (d : gset string) : gset string :=
  d ∪ list_to_set (dir_prefixes EmptyString p).

Section Run.

Variable w : world.

Definition agentId (indexNumber : string) : string :=
  "scraper-" +:+ replace "/" "-" indexNumber.

(** [updateDashboard]: nothing without a pool; errors of the query are
    ignored. *)
Definition updateDashboard (indexNumber step status : string) : M unit :=
  modify (log_when (pool w) (DashboardQuery (agentId indexNumber) step status)).

Definition issue (c : call) : M unit := modify (log c).

Definition settle (p : site) : M unit :=
  match fault w p with
  | Some msg => throw msg
  | None => ret tt
  end.

(** An awaited call: it is issued, then it returns or throws. *)
Definition perform (p : site) (c : call) : M unit :=
  issue c ;; settle p.

(** One turn of the download loop, for the document of index [i]. *)
Definition download (indexNumber dir : string) (total i : nat)
    (doc : DocumentRecord) : M unit :=
  let filename :=
    if String.eqb (type doc) "judgment" then "judgment.pdf" else "notice.pdf" in
  let filepath := path_join dir filename in
  catch_default
    (perform (AtFetch i) (EvaluateFetch (url doc)) ;;
     let base64 := fetched w i (url doc) in
     perform (AtWrite i) (WriteFileSync filepath) ;;
     modify (with_file filepath (FromBase64 base64)) ;;
     assign (set_pdf (type doc) filepath) ;;
     modify (fun s => with_downloaded (S (downloaded s)) s) ;;
     with_state (fun s =>
       updateDashboard indexNumber
         ("Getting PDFs (" +:+ dec (downloaded s) +:+ "/" +:+ dec total +:+ ")...")
         "searching"))
    tt.

Fixpoint download_all (indexNumber dir : string) (total i : nat)
    (docs : list DocumentRecord) : M unit :=
  match docs with
  | [] => ret tt
  | doc :: rest =>
      download indexNumber dir total i doc ;;
      download_all indexNumber dir total (S i) rest
  end.

(** The stages after the documents were listed. *)
Definition fetch_stage (indexNumber dir : string) (docs : list DocumentRecord)
    : M unit :=
  assign (set_documents docs) ;;
  updateDashboard indexNumber
    ("Getting PDFs (0/" +:+ dec (List.length docs) +:+ ")...") "searching" ;;
  modify (with_downloaded 0) ;;
  download_all indexNumber dir (List.length docs) 0 docs ;;
  perform AtCloseDone ClosePage ;;
  modify (with_page false) ;;
  assign (fun r => set_success (Nat.ltb 0 (size (pdfs r))) r) ;;
  with_state (fun s =>
    if success (result s)
    then updateDashboard indexNumber "PDFs downloaded, ready for scan" "searching"
    else ret tt).

(** The stages after the case page was loaded. *)
Definition documents_stage (indexNumber dir : string) : M unit :=
  updateDashboard indexNumber "Getting eFiled documents..." "searching" ;;
  efiledOnclick ←
    catch_default
      (perform AtEvalEfiled (QueryEval efiled_selector_text) ;;
       match querySelector efiled_selector (case_page w) with
       | Some el => ret (getAttribute "onclick" el)
       | None => throw (no_element_error efiled_selector_text)
       end)
      None;
  match efiledOnclick with
  | Some (String c h) =>
      let handler := String c h in
      match call_arguments "openDocumentWindow" handler with
      | None => throw null_index_error
      | Some args =>
          let efiledParams := parse_params args in
          perform AtGotoEfiled (Goto (efiledUrl efiledParams)) ;;
          perform AtEvalDocs EvaluateDocs ;;
          let docs := scan_documents (docs_page w) in
          match docs with
          | [] =>
              assign (set_error "No target documents found") ;;
              updateDashboard indexNumber "No Judgment/Notice found" "failed" ;;
              perform AtCloseNoDocs ClosePage ;;
              return_result
          | _ => fetch_stage indexNumber dir docs
          end
      end
  | _ =>
      assign (set_error "No eFiled docs button") ;;
      updateDashboard indexNumber "No eFiled documents found" "failed" ;;
      perform AtCloseNoButton ClosePage ;;
      return_result
  end.

(** The stages after the search result was classified as a found case. *)
Definition case_stage (indexNumber dir : string) : M unit :=
  updateDashboard indexNumber "Found case, navigating..." "searching" ;;
  perform AtEvalCaseOnclick (QueryEval case_link_selector_text) ;;
  onclick ←
    match querySelector case_link_selector (result_page w) with
    | Some el => ret (getAttribute "onclick" el)
    | None => throw (no_element_error case_link_selector_text)
    end;
  match onclick with
  | None => throw null_match_error
  | Some h =>
      match call_arguments "openCaseDetailsWindow" h with
      | None => throw null_index_error
      | Some args =>
          let params := parse_params args in
          perform AtGotoCase (Goto (caseUrl params)) ;;
          perform AtEvalCaseText EvaluateInnerText ;;
          let caseText := case_text w in
          assign (set_caseInfo
            {| plaintiff := option_map trim (labelled_line "plaintiff" caseText);
               defendant := option_map trim (labelled_line "defendant" caseText) |}) ;;
          documents_stage indexNumber dir
      end
  end.

(** The block of the [try] statement. *)
Definition try_block (indexNumber county dir : string) : M unit :=
  updateDashboard indexNumber "Connecting to browser..." "searching" ;;
  perform AtConnect (Connect CDP_URL) ;;
  perform AtNewPage NewPage ;;
  modify (with_page true) ;;
  updateDashboard indexNumber "Searching for case..." "searching" ;;
  perform AtGotoSearch (Goto SEARCH_URL) ;;
  perform AtWaitIndex (WaitForSelector "#txtIndex") ;;
  perform AtType (TypeText "#txtIndex" indexNumber) ;;
  perform AtEvalCounty (EvaluateCounty county) ;;
  match countyValue w with
  | Some (String c v) =>
      perform AtSelect (SelectOption court_select_text (String c v))
  | _ => ret tt
  end ;;
  issue (Click "#btnFindCase") ;;
  issue WaitForNavigation ;;
  settle AtClick ;;
  perform AtQueryCaptcha (Query captcha_selector_text) ;;
  match querySelector captcha_selector (result_page w) with
  | Some _ =>
      assign (set_hcaptchaDetected true) ;;
      sitekey ←
        catch_default
          (perform AtEvalSitekey (QueryEval "[data-sitekey]") ;;
           match querySelector sitekey_selector (result_page w) with
           | Some el => ret (getAttribute "data-sitekey" el)
           | None => throw (no_element_error "[data-sitekey]")
           end)
          None;
      assign (set_hcaptchaSitekey sitekey) ;;
      assign (set_error "hCaptcha detected") ;;
      updateDashboard indexNumber "hCaptcha detected - needs solving" "failed" ;;
      perform AtCloseCaptcha ClosePage ;;
      return_result
  | None =>
      perform AtQueryCase (Query case_link_selector_text) ;;
      match querySelector case_link_selector (result_page w) with
      | None =>
          assign (set_error "No case found") ;;
          updateDashboard indexNumber "No case found" "failed" ;;
          perform AtCloseNotFound ClosePage ;;
          return_result
      | Some _ => case_stage indexNumber dir
      end
  end.

(** The [catch] clause. *)
Definition catch_clause (indexNumber msg : string) : M unit :=
  assign (set_error msg) ;;
  updateDashboard indexNumber ("Error: " +:+ msg) "failed".

(** The [finally] clause: the rejection of the call is swallowed. *)
Definition finally_clause : M unit :=
  with_state (fun s => if page s then issue ClosePage else ret tt).

(** How the promise of [scrapeCase] settles. *)
Inductive completion :=
| Resolved (r : ScrapeResult)
| Rejected (msg : string).

Definition initial_result (indexNumber county dir : string) : ScrapeResult :=
  {| success := false; indexNumber := indexNumber; county := county;
     caseDir := dir; pdfs := ∅; error := None; hcaptchaDetected := false;
     hcaptchaSitekey := None; caseInfo := None; documents := [] |}.

(** The state in which the [try] statement is entered, on the file
    system [d0], [f0], once the directory was made. *)
Definition entry_state (indexNumber county : string)
    (d0 : gset string) (f0 : gmap string buffer) : state :=
  let dir := path_join DOWNLOAD_DIR (replace "/" "-" indexNumber) in
  {| result := initial_result indexNumber county dir;
     page := false; downloaded := 0;
     calls := [MkdirSync dir];
     dirs := mkdir_recursive dir d0; files := f0 |}.

(** [try { ... } catch (err) { ... } finally { ... }] *)
Definition try_statement (indexNumber county dir : string) : M unit :=
  fun s =>
    let after_try :=
      match try_block indexNumber county dir s with
      | (Throw msg, s') => snd (catch_clause indexNumber msg s')
      | (_, s') => s'
      end in
    finally_clause after_try.

Definition scrapeCase (indexNumber county : string)
    (d0 : gset string) (f0 : gmap string buffer) : completion * state :=
  let dir := path_join DOWNLOAD_DIR (replace "/" "-" indexNumber) in
  match fault w AtMkdir with
  | Some msg =>
      (Rejected msg,
       {| result := initial_result indexNumber county dir;
          page := false; downloaded := 0; calls := [MkdirSync dir];
          dirs := d0; files := f0 |})
  | None =>
      let s := snd (try_statement indexNumber county dir
                      (entry_state indexNumber county d0 f0)) in
      (Resolved (result s), s)
  end.

End Run.

(* ================================================================== *)
(** * The command-line entry point *)
(* ================================================================== *)

(** What an identifier visible in a callback is bound to. *)
Inductive binding :=
| BoundResult (r : ScrapeResult)
| BoundOther.

Definition scope := list (string * binding).

Fixpoint resolve (x : string) (sc : scope) : option binding :=
  match sc with
  | [] => None
  | (y, b) :: rest => if String.eqb x y then Some b else resolve x rest
  end.

(** The bindings of the module: the required modules, the constants, the
    pool and the three functions; none of the globals of the runtime is
    called [r]. *)
Definition module_scope : scope :=
  List.map (fun x => (x, BoundOther))
    ["puppeteer"; "path"; "fs"; "Pool"; "CDP_URL"; "SEARCH_URL";
     "DOWNLOAD_DIR"; "pool"; "updateDashboard"; "scrapeCase"; "cleanup"].

(** The bindings of the block of [if (require.main === module)]. *)
Definition entry_scope : scope :=
  List.map (fun x => (x, BoundOther)) ["indexNumber"; "county"; "jobId"]
  ++ module_scope.

(** The expression [r?.success ? 0 : 1] (and [r.success ? 0 : 1], which
    differs on [null] and [undefined] only): an identifier that resolves
    to nothing is a ReferenceError. *)
Definition exit_status (sc : scope) : nat + string :=
  match resolve "r" sc with
  | None => inr "r is not defined"
  | Some (BoundResult r) => inl (if success r then 0 else 1)
  | Some BoundOther => inl 1
  end.

Inductive printed :=
| Usage
| ResultJson (r : ScrapeResult).

(** How the process ends: by [process.exit(code)], or with the promise
    chain rejected and no handler attached (the runtime then reports the
    error; since Node 15 it ends the process with status 1). *)
Inductive ending :=
| Exit (code : nat)
| UnhandledRejection (msg : string).

(** [scrapeCase(...).then(r => {...; return cleanup();}).then(() =>
    {process.exit(r?.success ? 0 : 1);})]: the first callback binds [r],
    the second one takes no parameter and is not nested in the first. *)
Definition then_chain (c : completion) : list printed * ending :=
  match c with
  | Rejected msg => ([], UnhandledRejection msg)
  | Resolved r =>
      let first_callback_scope := ("r", BoundResult r) :: entry_scope in
      let second_callback_scope := entry_scope in
      ([ResultJson r],
       match exit_status second_callback_scope with
       | inl code => Exit code
       | inr msg => UnhandledRejection msg
       end)
  end.

(** The chain of the earlier revision of the script (the copy of the
    scraper without dashboard updates):
    [scrapeCase(...).then(r => {...; process.exit(r.success ? 0 : 1);})]. *)
Definition then_chain_earlier (c : completion) : list printed * ending :=
  match c with
  | Rejected msg => ([], UnhandledRejection msg)
  | Resolved r =>
      let callback_scope := ("r", BoundResult r) :: entry_scope in
      ([ResultJson r],
       match exit_status callback_scope with
       | inl code => Exit code
       | inr msg => UnhandledRejection msg
       end)
  end.

(** [!x] for an element of [process.argv.slice(2)] that may be missing. *)
Definition falsy (x : option string) : bool :=
  match x with
  | Some (String _ _) => false
  | _ => true
  end.

Definition arg (i : nat) (argv : list string) : string :=
  match nth_error argv i with
  | Some x => x
  | None => EmptyString
  end.

(** One run of the program: what it printed, how it ended, and the calls
    it issued. *)
Record run := {
  stdout : list printed;
  status : ending;
  issued : list call
}.

Definition main (w : world) (argv : list string)
    (d0 : gset string) (f0 : gmap string buffer) : run :=
  if falsy (nth_error argv 0) || falsy (nth_error argv 1) then
    {| stdout := [Usage]; status := Exit 1; issued := [] |}
  else
    let '(c, s) := scrapeCase w (arg 0 argv) (arg 1 argv) d0 f0 in
    let '(out, e) := then_chain c in
    {| stdout := out; status := e; issued := calls s |}.

End Scraper.

(* ================================================================== *)
(** * Vocabulary of the specification *)
(* ================================================================== *)

Module Spec.
Import JsString NodePath Dom Parse Scraper.

(** ** Handler arguments, in the words of the specification *)

(** Stripping the quote characters that surround a token. *)
Definition strip_quotes (s : string) : string := strip is_quote s.

(** Split on comma, trim, strip surrounding quote characters. *)
Definition spec_parse_params (args : string) : list string :=
  List.map (fun p => strip_quotes (trim p)) (split "," args).

(** The parameters the program reads off a handler. *)
Definition navigation_params (fname onclick : string) : option (list string) :=
  option_map parse_params (call_arguments fname onclick).

Definition spec_navigation_params (fname onclick : string)
    : option (list string) :=
  option_map spec_parse_params (call_arguments fname onclick).

Fixpoint all_chars (cls : ascii -> bool) (s : string) : bool :=
  match s with
  | EmptyString => true
  | String c r => cls c && all_chars cls r
  end.

Definition no_quote (s : string) : bool :=
  all_chars (fun c => negb (is_quote c)) s.

(** ** Document rows, in the words of the specification *)

(** The handler invokes the PDF-open function with a single-quoted
    argument: the expression of [openPDF_url] with the single quote as
    the only delimiter. *)
Definition spec_openPDF_url (onclick : string) : option string :=
  search (fun t =>
    match strip_prefix "openPDF('" t with
    | Some r =>
        plus (fun c => negb (is_char "'" c))
             (fun m rest =>
                match rest with
                | String q _ => if is_char "'" q then Some m else None
                | EmptyString => None
                end) r
    | None => None
    end) onclick.

Definition spec_scan_row : node -> option DocumentRecord :=
  scan_row_with spec_openPDF_url.

(** The handler holds a call of the PDF-open function whose argument is
    delimited by quote characters of either kind. *)
Definition quoted_call (h u : string) : Prop :=
  exists pre q1 q2 post,
    h = pre +:+ "openPDF(" +:+ String q1 (u +:+ String q2 post) /\
    is_quote q1 = true /\ is_quote q2 = true /\
    u <> EmptyString /\ no_quote u = true.

(** The link of a row: the first anchor below its third cell. *)
Definition row_link (row : node) : option node :=
  match nth_error (descendants (by_tag "td") row) 2 with
  | Some cell => List.head (descendants (by_tag "a") cell)
  | None => None
  end.

Definition is_target_name (s : string) : Prop :=
  s = JUDGMENT_NAME \/ s = NOTICE_NAME.

(** The row is a candidate: at least three cells, a link in the third
    one, named as one of the two targets, with a handler that opens a
    PDF. *)
Definition candidate_row (row : node) : Prop :=
  exists link h u,
    3 <= List.length (descendants (by_tag "td") row) /\
    row_link row = Some link /\
    is_target_name (trim (textContent link)) /\
    getAttribute "onclick" link = Some h /\
    quoted_call h u.

(** ** Challenge markers *)

Definition tag_of (n : node) : string :=
  match n with
  | Elem t _ _ => t
  | Text _ => EmptyString
  end.

Definition is_element (n : node) : bool :=
  match n with
  | Elem _ _ _ => true
  | Text _ => false
  end.

(** An element with a site-key attribute, the challenge widget class, or
    a challenge-hosting frame. *)
Definition is_challenge_marker (e : node) : Prop :=
  is_element e = true /\
  ((exists k, getAttribute "data-sitekey" e = Some k) \/
   has_class "h-captcha" e = true \/
   (tag_of e = "iframe" /\
    exists src, getAttribute "src" e = Some src /\ includes "hcaptcha" src = true)).

Definition challenge_marker_present (root : node) : Prop :=
  exists e, In e (all_elements root) /\ is_challenge_marker e.

(** The run gets as far as the query for the challenge on the search
    result: nothing before it throws. *)
Definition search_completes (w : world) : Prop :=
  fault w AtMkdir = None /\ fault w AtConnect = None /\
  fault w AtNewPage = None /\ fault w AtGotoSearch = None /\
  fault w AtWaitIndex = None /\ fault w AtType = None /\
  fault w AtEvalCounty = None /\
  match countyValue w with
  | Some (String _ _) => fault w AtSelect = None
  | _ => True
  end /\
  fault w AtClick = None /\ fault w AtQueryCaptcha = None.

(** ** Logs of calls *)

Definition navigations (l : list call) : list string :=
  omap (fun c => match c with Goto u => Some u | _ => None end) l.

Definition is_close (c : call) : bool :=
  match c with
  | ClosePage => true
  | _ => false
  end.

Definition closes (l : list call) : nat :=
  List.length (List.filter is_close l).

(** ** Index numbers and directories *)



(** No separator in the string. *)
Definition sep_free (s : string) : bool :=
  all_chars (fun c => negb (is_char "/" c)) s.

(** An ordinary name of a path: not empty, not [.] or [..], and without
    a separator. *)
Definition plain (seg : string) : bool :=
  nonempty seg && negb (String.eqb seg ".") && negb (String.eqb seg "..")
  && sep_free seg.

(** The names along a path. *)
Definition path_names (p : string) : list string :=
  List.filter nonempty (split "/" p).

(** The directory lies at least two levels below the download
    directory. *)
Definition nested (dir : string) : Prop :=
  exists a b rest, path_names dir = path_names DOWNLOAD_DIR ++ a :: b :: rest.

(** The directory the program derives from an index number. *)
Definition derived_dir (indexNumber : string) : string :=
  path_join DOWNLOAD_DIR (replace "/" "-" indexNumber).

(** ** Downloads *)

Definition target_file (dir k : string) : string :=
  path_join dir (k +:+ ".pdf").

Definition is_none {A} (o : option A) : bool :=
  match o with
  | None => true
  | Some _ => false
  end.

(** The payload of the last document of type [k] whose download went
    through, for the documents of index [i] onwards. *)
Fixpoint last_download (w : world) (k : string) (i : nat)
    (docs : list DocumentRecord) : option string :=
  match docs with
  | [] => None
  | d :: rest =>
      match last_download w k (S i) rest with
      | Some p => Some p
      | None =>
          if String.eqb (type d) k && is_none (fault w (AtFetch i))
             && is_none (fault w (AtWrite i))
          then Some (fetched w i (url d))
          else None
      end
  end.

Definition of_type (k : string) (d : DocumentRecord) : bool :=
  String.eqb (type d) k.

End Spec.

(* ================================================================== *)
(** * Sample pages and environments *)
(* ================================================================== *)

Module Samples.
Import JsString NodePath Dom Parse Scraper Spec.

Definition html (body : list node) : node :=
  Elem "html" [] [Elem "body" [] body].

(** A row of the documents table: number, date, and a link. *)
Definition doc_row (date text handler : string) : node :=
  Elem "tr" []
    [ Elem "td" [] [Text "1"];
      Elem "td" [] [Text date];
      Elem "td" [] [Elem "a" [("href", "#"); ("onclick", handler)] [Text text]] ].

Definition table (rows : list node) : node :=
  Elem "table" [] [Elem "tbody" [] rows].

Definition judgment_row : node :=
  doc_row " 01/02/2023 " "JUDGMENT OF FORECLOSURE AND SALE"
    "openPDF('/docs/j.pdf'); return false".
Definition notice_row : node :=
  doc_row "03/04/2023" " NOTICE OF SALE " "openPDF('/docs/n.pdf')".
Definition notice_row_again : node :=
  doc_row "05/06/2023" "NOTICE OF SALE" "openPDF('/docs/n2.pdf')".
Definition other_row : node :=
  doc_row "07/08/2023" "AFFIDAVIT OF SERVICE" "openPDF('/docs/a.pdf')".

(** A target row whose handler delimits the argument with double quotes. *)
Definition double_quoted_row : node :=
  doc_row "01/02/2023" "NOTICE OF SALE"
    ("openPDF(" +:+ dquote +:+ "/docs/n.pdf" +:+ dquote +:+ ")").

Definition found_page : node :=
  html [ Elem "a"
           [("href", "#");
            ("onclick",
             "openCaseDetailsWindow('a','b','Suffolk','606529/2023','c','d','e')")]
           [Text "606529/2023"] ].

Definition challenge_page : node :=
  html [ Elem "div" [("class", "h-captcha"); ("data-sitekey", "10000000-ffff")] [] ].

Definition detail_page : node :=
  html [ Elem "input"
           [("type", "button");
            ("onclick", "openDocumentWindow('x','47','606529/2023','N','123')")]
           [] ].

Definition both_documents : node := html [table [judgment_row; other_row; notice_row]].
Definition two_notices : node := html [table [notice_row; notice_row_again]].

Definition no_fault : site -> option string := fun _ => None.

(** Everything goes well: both documents are found and downloaded. *)
Definition w_ok : world :=
  {| pool := true; fault := no_fault; countyValue := Some "47";
     result_page := found_page; case_page := detail_page;
     case_text := "Plaintiff: BANK X" +:+ String "010" "Defendant: JOHN DOE";
     docs_page := both_documents;
     fetched := fun i _ => "payload-" +:+ dec i |}.

Definition with_fault (f : site -> option string) (w : world) : world :=
  {| pool := pool w; fault := f; countyValue := countyValue w;
     result_page := result_page w; case_page := case_page w;
     case_text := case_text w; docs_page := docs_page w;
     fetched := fetched w |}.

Definition with_result_page (p : node) (w : world) : world :=
  {| pool := pool w; fault := fault w; countyValue := countyValue w;
     result_page := p; case_page := case_page w;
     case_text := case_text w; docs_page := docs_page w;
     fetched := fetched w |}.

Definition with_docs_page (p : node) (w : world) : world :=
  {| pool := pool w; fault := fault w; countyValue := countyValue w;
     result_page := result_page w; case_page := case_page w;
     case_text := case_text w; docs_page := p;
     fetched := fetched w |}.

(** The tab cannot be closed after the downloads. *)
Definition w_close_fails : world :=
  with_fault (fun p => match p with
                       | AtCloseDone => Some "Protocol error: Connection closed."
                       | _ => None
                       end) w_ok.

(** The search result shows the challenge. *)
Definition w_challenge : world := with_result_page challenge_page w_ok.

(** The directory of the case cannot be made. *)
Definition w_mkdir_fails : world :=
  with_fault (fun p => match p with
                       | AtMkdir => Some "EACCES: permission denied, mkdir"
                       | _ => None
                       end) w_ok.

(** The browser cannot be reached. *)
Definition w_no_browser : world :=
  with_fault (fun p => match p with
                       | AtConnect => Some "connect ECONNREFUSED 127.0.0.1:18800"
                       | _ => None
                       end) w_ok.

(** The documents table lists the notice twice. *)
Definition w_two_notices : world := with_docs_page two_notices w_ok.

Definition argv_ok : list string := ["606529/2023"; "Suffolk"].

(** The run for the case 606529/2023 of Suffolk on an empty file system. *)
Definition run_of (w : world) : completion * state :=
  scrapeCase w "606529/2023" "Suffolk" ∅ ∅.
Definition final_state (w : world) : state := snd (run_of w).
Definition final_result (w : world) : ScrapeResult := result (final_state w).

(** A handler whose second argument holds a quote character. *)
Definition handler_with_inner_quote : string :=
  "openCaseDetailsWindow('a','O'Brien')".

End Samples.

(* ================================================================== *)
(** * Reasoning about runs *)
(* ================================================================== *)

Module Logic.
Import JsString NodePath Dom Parse Scraper Spec.

(** [wp m Qn Qt Qr s]: run from [s], the piece [m] ends normally in a
    state satisfying [Qn], by an exception in a state satisfying [Qt], or
    by [return result] in a state satisfying [Qr]. *)
Definition wp {A} (m : M A) (Qn : A -> state -> Prop)
    (Qt : string -> state -> Prop) (Qr : state -> Prop) (s : state) : Prop :=
  match m s with
  | (Normal a, s') => Qn a s'
  | (Throw e, s') => Qt e s'
  | (Return, s') => Qr s'
  end.

(** What the download loop leaves alone: every field of the result but
    [pdfs], the variable [page], the directories, and the calls issued
    before it; the calls it adds are evaluations, writes and dashboard
    queries. *)
Definition is_loop_call (c : call) : bool :=
  match c with
  | EvaluateFetch _ | WriteFileSync _ | DashboardQuery _ _ _ => true
  | _ => false
  end.

Record loop_frame (s s' : state) : Prop := {
  frame_success : success (result s') = success (result s);
  frame_error : error (result s') = error (result s);
  frame_caseDir : caseDir (result s') = caseDir (result s);
  frame_detected : hcaptchaDetected (result s') = hcaptchaDetected (result s);
  frame_caseInfo : caseInfo (result s') = caseInfo (result s);
  frame_documents : documents (result s') = documents (result s);
  frame_page : page s' = page s;
  frame_dirs : dirs s' = dirs s;
  frame_calls : exists l, calls s' = calls s ++ l /\
                          forallb is_loop_call l = true
}.

(** The documents carry one of the two types. *)
Definition typed (d : DocumentRecord) : Prop :=
  type d = "judgment" \/ type d = "notice".

(** What the download loop does to [pdfs] and to the files, for the
    documents [docs] of index [n] onwards written below [dir]. *)
Definition loop_downloads (w : world) (dir : string) (n : nat)
    (docs : list DocumentRecord) (s s' : state) : Prop :=
  (forall k, k = "judgment" \/ k = "notice" ->
     pdfs (result s') !! k =
       match last_download w k n docs with
       | Some _ => Some (target_file dir k)
       | None => pdfs (result s) !! k
       end /\
     files s' !! target_file dir k =
       match last_download w k n docs with
       | Some p => Some (FromBase64 p)
       | None => files s !! target_file dir k
       end) /\
  (forall k, is_Some (pdfs (result s') !! k) ->
     is_Some (pdfs (result s) !! k) \/ k = "judgment" \/ k = "notice").

(** The result after the [catch] and [finally] clauses. *)
Definition settled (w : world) (indexNumber : string)
    (sig : signal unit) (s : state) : state :=
  snd (finally_clause
         (match sig with
          | Throw msg => snd (catch_clause w indexNumber msg s)
          | _ => s
          end)).

End Logic.

(* ================================================================== *)
(** * Further vocabulary: the court selection, the calls of a run and
      its stages *)
(* ================================================================== *)

Module Court.
Import JsString Parse.

(** The lower case of a code unit of the 8-bit range: the capitals are
    the code units 65 to 90 and 192 to 222 except 215 (the multiplication
    sign), each 32 below its small letter; every other code unit of the
    range is its own lower case. *)
Definition lower_unit (c : ascii) : ascii :=
  let n := nat_of_ascii c in
  if (Nat.leb 65 n && Nat.leb n 90) ||
     (Nat.leb 192 n && Nat.leb n 222 && negb (Nat.eqb n 215))
  then ascii_of_nat (n + 32) else c.

(** [s.toLowerCase()] (8-bit range). *)
Fixpoint toLowerCase (s : string) : string :=
  match s with
  | EmptyString => EmptyString
  | String c r => String (lower_unit c) (toLowerCase r)
  end.

(** An element of [select.options]: its properties [text] and [value]. *)
Record court_option := {
  option_text : string;
  option_value : string
}.

(** The callback of [find]:
    [o.text.toLowerCase().includes(county.toLowerCase() + ' supreme')]. *)
Definition court_matches (county : string) (o : court_option) : bool :=
  includes (toLowerCase county +:+ " supreme") (toLowerCase (option_text o)).

(** The script evaluated in the search page to pick the court: [select]
    is [None] when the page has no element [select[name=cboCourt]], and
    the list of its options otherwise; the value is [None] for [null]. *)
Definition countyValue_script (select : option (list court_option))
    (county : string) : option string :=
  match select with
  | None => None
  | Some options =>
      match List.find (court_matches county) options with
      | Some o => Some (option_value o)
      | None => None
      end
  end.

(** [sub] occurs in [s]. *)
Definition occurs (sub s : string) : Prop :=
  exists pre post, s = pre +:+ sub +:+ post.

(** The text of the option names the supreme court of the county, up to
    the case of the letters. *)
Definition names_court (county : string) (o : court_option) : Prop :=
  occurs (toLowerCase county +:+ " supreme") (toLowerCase (option_text o)).

Definition supreme_courts : list court_option :=
  [ {| option_text := "Select a court"; option_value := EmptyString |};
    {| option_text := "New York Supreme Court"; option_value := "31" |};
    {| option_text := "Suffolk Supreme Court"; option_value := "47" |} ].

(** A list whose first option is written with a capital outside the
    ASCII letters (code unit 201) and a county written with the small
    letter (code unit 233). *)
Definition accented_courts : list court_option :=
  [ {| option_text := String "201"%char "RIE SUPREME COURT";
       option_value := "99" |};
    {| option_text := "Erie Supreme Court"; option_value := "15" |} ].

Definition accented_county : string := String "233"%char "rie".

End Court.

Module Handlers.
Import JsString Parse Spec.

(** The handler holds a call of [fname] with the argument text [args]:
    not empty and without a closing parenthesis. *)
Definition handler_call (fname h args : string) : Prop :=
  exists pre post,
    h = pre +:+ fname +:+ "(" +:+ args +:+ ")" +:+ post /\
    args <> EmptyString /\
    all_chars (fun c => negb (is_char ")" c)) args = true.

(** A token between single quotes. *)
Definition quote_token (t : string) : string := "'" +:+ t +:+ "'".

(** A token without quote character, comma and closing parenthesis. *)
Definition clean_token (t : string) : bool :=
  all_chars (fun c => negb (is_quote c) && negb (is_char "," c)
                      && negb (is_char ")" c)) t.

(** The handler that calls [fname] on the quoted tokens. *)
Definition handler_of (fname : string) (tokens : list string) : string :=
  fname +:+ "(" +:+ join "," (List.map quote_token tokens) +:+ ")".

(** A separator of label and value: colons and white space. *)
Definition is_label_sep (c : ascii) : bool := is_char ":" c || is_space c.

(** A value on one line that does not start with a separator of the
    label. *)
Definition line_value (v : string) : Prop :=
  match v with
  | EmptyString => False
  | String c _ => is_label_sep c = false
  end /\
  all_chars (fun c => negb (is_char "010" c)) v = true.

(** The text ends, or goes on with a line break. *)
Definition line_end (tail : string) : Prop :=
  match tail with
  | EmptyString => True
  | String c _ => c = "010"%char
  end.

End Handlers.

Module Trace.
Import JsString NodePath Dom Parse Scraper Spec Logic.

(** ** The connection pool *)

Definition with_pool (b : bool) (w : world) : world :=
  {| pool := b; fault := fault w; countyValue := countyValue w;
     result_page := result_page w; case_page := case_page w;
     case_text := case_text w; docs_page := docs_page w;
     fetched := fetched w |}.

Definition is_dashboard (c : call) : bool :=
  match c with
  | DashboardQuery _ _ _ => true
  | _ => false
  end.

(** The calls into the file system and the browser. *)
Definition capability_calls (l : list call) : list call :=
  List.filter (fun c => negb (is_dashboard c)) l.

(** The statuses written to the dashboard, oldest first. *)
Definition dashboard_statuses (l : list call) : list string :=
  omap (fun c => match c with
                 | DashboardQuery _ _ st => Some st
                 | _ => None
                 end) l.

(** Two states that differ in the dashboard queries at most. *)
Definition sim (s1 s2 : state) : Prop :=
  result s1 = result s2 /\ page s1 = page s2 /\
  downloaded s1 = downloaded s2 /\ dirs s1 = dirs s2 /\
  files s1 = files s2 /\
  capability_calls (calls s1) = capability_calls (calls s2).

(** Two pieces that end the same way, in such states, when started in
    such states. *)
Definition related {A} (m1 m2 : M A) : Prop :=
  forall s1 s2, sim s1 s2 ->
    fst (m1 s1) = fst (m2 s2) /\ sim (snd (m1 s1)) (snd (m2 s2)).

(** ** The calls of a run *)

Definition COURT_SITE : string := "https://iapps.courts.state.ny.us/webcivil/".

(** The calls of the download loop for the case [i] below [dir]. *)
Definition loop_call_ok (w : world) (i dir : string) (x : call) : Prop :=
  match x with
  | EvaluateFetch _ => True
  | WriteFileSync p =>
      p = target_file dir "judgment" \/ p = target_file dir "notice"
  | DashboardQuery a _ st =>
      pool w = true /\ a = agentId i /\ st = "searching"
  | _ => False
  end.

(** The calls of a run for the case [i] of the county [c] below [dir]:
    the directory made and the files written are those of the case, the
    dashboard is queried through the pool only and for the agent of the
    case, the browser is the local one, the tab is sent to the court
    site only, and what is typed and selected is what was asked for. *)
Definition permitted (w : world) (i c dir : string) (x : call) : Prop :=
  match x with
  | MkdirSync p => p = dir
  | WriteFileSync p =>
      p = target_file dir "judgment" \/ p = target_file dir "notice"
  | DashboardQuery a _ st =>
      pool w = true /\ a = agentId i /\ (st = "searching" \/ st = "failed")
  | Connect u => u = CDP_URL
  | Goto u => exists rest, u = COURT_SITE +:+ rest
  | TypeText sel t => sel = "#txtIndex" /\ t = i
  | EvaluateCounty x => x = c
  | SelectOption sel v =>
      sel = court_select_text /\ countyValue w = Some v /\ v <> EmptyString
  | _ => True
  end.

(** The addresses fetched in the pages, oldest first. *)
Definition fetches (l : list call) : list string :=
  omap (fun c => match c with
                 | EvaluateFetch u => Some u
                 | _ => None
                 end) l.

(** What the download loop over [docs] adds to the calls, and the files
    and the fields of the result it leaves alone. *)
Definition loop_trace (w : world) (i dir : string) (docs : list DocumentRecord)
    (s s' : state) : Prop :=
  (forall l, calls s' = calls s ++ l ->
             Forall (loop_call_ok w i dir) l /\
             fetches l = List.map url docs) /\
  (forall p, p <> target_file dir "judgment" -> p <> target_file dir "notice" ->
             files s' !! p = files s !! p) /\
  indexNumber (result s') = indexNumber (result s) /\
  county (result s') = county (result s) /\
  hcaptchaSitekey (result s') = hcaptchaSitekey (result s).

(** A name that [path.join] keeps: not empty and not [.]. *)
Definition kept_name (s : string) : bool :=
  negb (String.eqb s EmptyString || String.eqb s ".").


(** The state a run ends in when the directory cannot be made. *)
Definition rejected_state (i c : string) (d0 : gset string)
    (f0 : gmap string buffer) : state :=
  {| result := initial_result i c (derived_dir i);
     page := false; downloaded := 0;
     calls := [MkdirSync (derived_dir i)];
     dirs := d0; files := f0 |}.

(** ** The stages of a run *)

(** The handler of the case link of the search result. *)
Definition case_handler (w : world) : option string :=
  match querySelector case_link_selector (result_page w) with
  | Some el => getAttribute "onclick" el
  | None => None
  end.

(** The value of [result.hcaptchaSitekey] once the challenge was
    detected: [None] for [null], which is also what a failure of the
    evaluation gives. *)
Definition sitekey_of (w : world) : option string :=
  match fault w AtEvalSitekey with
  | Some _ => None
  | None =>
      match querySelector sitekey_selector (result_page w) with
      | Some el => getAttribute "data-sitekey" el
      | None => None
      end
  end.

(** The search result shows no challenge, and the program gets to look
    for the case link. *)
Definition no_challenge (w : world) : Prop :=
  search_completes w /\
  querySelector captcha_selector (result_page w) = None /\
  fault w AtQueryCase = None.

(** The search result holds a case link. *)
Definition case_found (w : world) : Prop :=
  no_challenge w /\
  is_Some (querySelector case_link_selector (result_page w)).

(** The case page is loaded, from the parameters [params] of the case
    link, and its text is read. *)
Definition case_page_loads (w : world) (params : list string) : Prop :=
  case_found w /\
  fault w AtEvalCaseOnclick = None /\
  (exists h, case_handler w = Some h /\
             navigation_params "openCaseDetailsWindow" h = Some params) /\
  fault w AtGotoCase = None /\
  fault w AtEvalCaseText = None.

(** The value of the variable [efiledOnclick]: [None] for [null], which
    is also what a failure of the evaluation gives. *)
Definition efiledOnclick (w : world) : option string :=
  match fault w AtEvalEfiled with
  | Some _ => None
  | None =>
      match querySelector efiled_selector (case_page w) with
      | Some el => getAttribute "onclick" el
      | None => None
      end
  end.

(** The documents page is loaded, from the parameters [eparams] of the
    button of the case page, and its rows are read. *)
Definition documents_page_loads (w : world) (params eparams : list string)
    : Prop :=
  case_page_loads w params /\
  (exists h, efiledOnclick w = Some h /\ h <> EmptyString /\
             navigation_params "openDocumentWindow" h = Some eparams) /\
  fault w AtGotoEfiled = None /\
  fault w AtEvalDocs = None.

(** The parameters of the two handlers, and the pages a run is to
    visit, in this order. *)
Definition case_params (w : world) : option (list string) :=
  match case_handler w with
  | Some h => navigation_params "openCaseDetailsWindow" h
  | None => None
  end.

Definition efiled_params (w : world) : option (list string) :=
  match efiledOnclick w with
  | Some h => navigation_params "openDocumentWindow" h
  | None => None
  end.

Definition planned_navigations (w : world) : list string :=
  [ SEARCH_URL;
    caseUrl (default [] (case_params w));
    efiledUrl (default [] (efiled_params w)) ].

(** The run gets a tab of the browser. *)
Definition page_acquired (w : world) : Prop :=
  fault w AtMkdir = None /\ fault w AtConnect = None /\
  fault w AtNewPage = None.

(** How often the tab is closed in a run that ends with [e] in [error]:
    once or twice when there is a tab, once when nothing went wrong, and
    never when there is no tab. *)
Definition closes_ok (w : world) (e : option string) (n : nat) : Prop :=
  (page_acquired w -> 1 <= n <= 2) /\
  (~ page_acquired w -> n = 0) /\
  (page_acquired w -> e = None -> n = 1).

(** The last status written to the dashboard is [failed] exactly when
    the run ends with [e] in [error], [e] being an error. *)
Definition status_ok (e : option string) (statuses : list string) : Prop :=
  last statuses = Some "failed" <-> is_Some e.

(** The case information read off the text of the case page. *)
Definition case_info_of (w : world) : CaseInfo :=
  {| plaintiff := option_map trim (labelled_line "plaintiff" (case_text w));
     defendant := option_map trim (labelled_line "defendant" (case_text w)) |}.

(** The fields of the result of a run for the case [i] of the county
    [c] below [dir]: the request is echoed; the site key is there exactly
    when the challenge was detected, and then there is an error and
    nothing of the case; what is there of the case is what the pages
    hold, the documents only together with the case information and the
    local files only together with the documents; and a result without
    error has documents. *)
Definition result_ok (w : world) (i c dir : string) (r : ScrapeResult) : Prop :=
  (indexNumber r = i /\ county r = c /\ caseDir r = dir) /\
  ((hcaptchaDetected r = true <-> is_Some (hcaptchaSitekey r)) /\
   (hcaptchaDetected r = true ->
    is_Some (error r) /\ caseInfo r = None /\ documents r = [] /\ pdfs r = ∅)) /\
  ((caseInfo r = None \/ caseInfo r = Some (case_info_of w)) /\
   (documents r = [] \/
    documents r = scan_documents (docs_page w) /\
    caseInfo r = Some (case_info_of w)) /\
   (documents r = [] -> pdfs r = ∅)) /\
  (fault w AtMkdir = None -> error r = None ->
   documents r <> [] /\ hcaptchaDetected r = false).

(** The calls and the files of a run for the case [i] of the county [c]
    below [dir] that started with the files [f0]: the calls are those of
    [permitted], the files other than the two of the case are left
    alone, the pages visited are the first ones of the planned pages,
    the tab is closed as [closes_ok] has it, with a pool the dashboard
    is left as [status_ok] has it, and what is fetched are the documents
    of the result, one after the other. *)
Definition trace_ok (w : world) (i c dir : string) (f0 : gmap string buffer)
    (s : state) : Prop :=
  Forall (permitted w i c dir) (calls s) /\
  (forall p, p <> target_file dir "judgment" ->
             p <> target_file dir "notice" ->
             files s !! p = f0 !! p) /\
  navigations (calls s) `prefix_of` planned_navigations w /\
  closes_ok w (error (result s)) (closes (calls s)) /\
  (pool w = true ->
   status_ok (error (result s)) (dashboard_statuses (calls s))) /\
  fetches (calls s) = List.map url (documents (result s)).

(** Both arguments of the command line are there and not empty. *)
Definition arguments_given (argv : list string) : Prop :=
  exists a b rest, argv = a :: b :: rest /\ a <> EmptyString /\ b <> EmptyString.

Definition or_message (dflt : string) (o : option string) : string :=
  match o with
  | Some msg => msg
  | None => dflt
  end.

(** The download of the document of index [n] goes through. *)
Definition download_succeeds (w : world) (n : nat) : Prop :=
  fault w (AtFetch n) = None /\ fault w (AtWrite n) = None.

End Trace.

Module MoreSamples.
Import JsString NodePath Dom Parse Scraper Spec Samples Trace.

Definition with_case_page (p : node) (w : world) : world :=
  {| pool := pool w; fault := fault w; countyValue := countyValue w;
     result_page := result_page w; case_page := p;
     case_text := case_text w; docs_page := docs_page w;
     fetched := fetched w |}.

(** The search finds nothing. *)
Definition w_not_found : world := with_result_page (html []) w_ok.

(** The case page has no button for the filed documents. *)
Definition w_no_button : world := with_case_page (html []) w_ok.

(** The evaluation that reads the button of the case page fails. *)
Definition w_button_eval_fails : world :=
  with_fault (fun p => match p with
                       | AtEvalEfiled => Some "Execution context was destroyed"
                       | _ => None
                       end) w_ok.

(** The documents table lists no judgment and no notice. *)
Definition w_no_documents : world :=
  with_docs_page (html [table [other_row]]) w_ok.

(** The case link calls the function without arguments. *)
Definition w_empty_handler : world :=
  with_result_page
    (html [ Elem "a" [("onclick", "openCaseDetailsWindow()")] [Text "1/2023"] ])
    w_ok.

(** The first download fails, the second one goes through. *)
Definition w_first_fetch_fails : world :=
  with_fault (fun p => match p with
                       | AtFetch 0 => Some "Failed to fetch"
                       | _ => None
                       end) w_ok.

Definition case_handler_ok : string :=
  "openCaseDetailsWindow('a','b','Suffolk','606529/2023','c','d','e')".

Definition efiled_handler_ok : string :=
  "openDocumentWindow('x','47','606529/2023','N','123')".

Definition params_ok : list string :=
  ["a"; "b"; "Suffolk"; "606529/2023"; "c"; "d"; "e"].

Definition eparams_ok : list string := ["x"; "47"; "606529/2023"; "N"; "123"].

End MoreSamples.

(* ================================================================== *)
(** * Proofs *)
(* ================================================================== *)

#[local] Arguments String.append !_ _ / : simpl nomatch.
#[local] Arguments Ascii.eqb : simpl never.
#[local] Arguments String.eqb : simpl never.
#[local] Arguments Parse.is_char : simpl never.
(* ================================================================== *)
(** * Facts about the string primitives *)
(* ================================================================== *)

Module StringFacts.
Import JsString Spec.

Lemma append_nil_r (s : string) : s +:+ EmptyString = s.
Proof. induction s as [|c s IH]; simpl; [reflexivity | now rewrite IH]. Qed.

Lemma append_assoc (a b c : string) : (a +:+ b) +:+ c = a +:+ (b +:+ c).
Proof. induction a as [|x a IH]; simpl; [reflexivity | now rewrite IH]. Qed.

Lemma append_inv_head (a b c : string) : a +:+ b = a +:+ c -> b = c.
Proof.
  induction a as [|x a IH]; simpl; intros H; [exact H|].
  injection H as H. now apply IH.
Qed.

Lemma append_length (a b : string) :
  String.length (a +:+ b) = String.length a + String.length b.
Proof. induction a as [|x a IH]; simpl; [reflexivity | now rewrite IH]. Qed.

Lemma nonempty_true (s : string) : Dom.nonempty s = true <-> s <> EmptyString.
Proof. destruct s; simpl; split; congruence. Qed.

Lemma all_chars_app cls (a b : string) :
  all_chars cls (a +:+ b) = all_chars cls a && all_chars cls b.
Proof.
  induction a as [|x a IH]; simpl; [reflexivity|].
  rewrite IH. now rewrite andb_assoc.
Qed.

Lemma all_chars_weaken (p q : ascii -> bool) (s : string) :
  (forall c, p c = true -> q c = true) ->
  all_chars p s = true -> all_chars q s = true.
Proof.
  intros Hpq. induction s as [|c s IH]; simpl; [reflexivity|].
  intros [Hc Hs]%andb_true_iff. rewrite (Hpq _ Hc). now apply IH.
Qed.

(** ** Literal prefixes *)

Lemma strip_prefix_Some (p s r : string) :
  strip_prefix p s = Some r -> s = p +:+ r.
Proof.
  revert s. induction p as [|a p IH]; intros s; simpl.
  - now intros [= ->].
  - destruct s as [|b s]; [discriminate|].
    destruct (Ascii.eqb a b) eqn:E; [|discriminate].
    apply Ascii.eqb_eq in E as ->. intros H. now rewrite (IH _ H).
Qed.

Lemma strip_prefix_app (p r : string) : strip_prefix p (p +:+ r) = Some r.
Proof.
  induction p as [|a p IH]; simpl; [reflexivity|].
  now rewrite Ascii.eqb_refl.
Qed.

(** ** Leftmost search *)

Lemma search_Some {A} (m : string -> option A) (s : string) (x : A) :
  search m s = Some x ->
  exists pre t, s = pre +:+ t /\ m t = Some x.
Proof.
  induction s as [|c s IH]; simpl.
  - destruct (m EmptyString) eqn:E; [|discriminate].
    intros [= ->]. now exists EmptyString, EmptyString.
  - destruct (m (String c s)) eqn:E.
    + intros [= ->]. now exists EmptyString, (String c s).
    + intros H. destruct (IH H) as (pre & t & -> & Ht).
      now exists (String c pre), t.
Qed.

Lemma search_found {A} (m : string -> option A) (pre t : string) (x : A) :
  m t = Some x -> exists y, search m (pre +:+ t) = Some y.
Proof.
  intros Ht. induction pre as [|c pre IH]; simpl.
  - destruct t; simpl; rewrite Ht; eauto.
  - destruct (m (String c (pre +:+ t))); eauto.
Qed.

Lemma search_None {A} (m : string -> option A) (pre t : string) :
  search m (pre +:+ t) = None -> m t = None.
Proof.
  intros H. destruct (m t) eqn:E; [|reflexivity].
  destruct (search_found m pre t a E) as [y Hy]. congruence.
Qed.

(** ** The greedy quantifier *)

Lemma plus_Some {A} cls (k : string -> string -> option A) (s : string) (x : A) :
  plus cls k s = Some x ->
  exists m rest, s = m +:+ rest /\ m <> EmptyString /\
                 all_chars cls m = true /\ k m rest = Some x.
Proof.
  revert k. induction s as [|c s IH]; intros k; simpl; [discriminate|].
  destruct (cls c) eqn:Hc; [|discriminate].
  destruct (plus cls (fun m rest => k (String c m) rest) s) eqn:E.
  - intros [= ->]. destruct (IH _ E) as (m & rest & -> & _ & Hall & Hk).
    exists (String c m), rest. simpl. rewrite Hc, Hall. now repeat split.
  - intros Hk. exists (String c EmptyString), s. simpl. rewrite Hc.
    now repeat split.
Qed.

Lemma plus_found {A} cls (k : string -> string -> option A)
    (m rest : string) (x : A) :
  m <> EmptyString -> all_chars cls m = true -> k m rest = Some x ->
  exists y, plus cls k (m +:+ rest) = Some y.
Proof.
  revert k. induction m as [|c m IH]; intros k Hne Hall Hk; [congruence|].
  simpl in Hall. apply andb_true_iff in Hall as [Hc Hall].
  simpl. rewrite Hc.
  destruct m as [|d m'].
  - simpl. destruct (plus cls _ rest); eauto.
  - destruct (IH (fun m0 rest0 => k (String c m0) rest0)) as [y Hy];
      [congruence | exact Hall | exact Hk |].
    rewrite Hy. eauto.
Qed.

(** ** Removal of a class of characters *)

Lemma remove_all_strip_start cls (s : string) :
  remove_all cls (strip_start cls s) = remove_all cls s.
Proof.
  induction s as [|c s IH]; simpl; [reflexivity|].
  destruct (cls c) eqn:Hc; [exact IH|]. simpl. now rewrite Hc.
Qed.

Lemma remove_all_strip_end cls (s : string) :
  remove_all cls (strip_end cls s) = remove_all cls s.
Proof.
  induction s as [|c s IH]; simpl; [reflexivity|].
  destruct (strip_end cls s) as [|d r] eqn:E.
  - simpl in IH. destruct (cls c) eqn:Hc; simpl.
    + exact IH.
    + rewrite Hc. now rewrite <- IH.
  - cbn [remove_all]. cbn [remove_all] in IH. now rewrite IH.
Qed.

Lemma remove_all_id cls (s : string) :
  all_chars (fun c => negb (cls c)) s = true -> remove_all cls s = s.
Proof.
  induction s as [|c s IH]; simpl; [reflexivity|].
  intros [Hc Hs]%andb_true_iff. apply negb_true_iff in Hc. rewrite Hc.
  now rewrite IH.
Qed.

Lemma remove_all_clean cls (s : string) :
  all_chars (fun c => negb (cls c)) (remove_all cls s) = true.
Proof.
  induction s as [|c s IH]; simpl; [reflexivity|].
  destruct (cls c) eqn:Hc; [exact IH|]. simpl. now rewrite Hc, IH.
Qed.

Lemma remove_all_strip cls (s : string) :
  all_chars (fun c => negb (cls c)) (strip cls s) = true ->
  remove_all cls s = strip cls s.
Proof.
  intros H. rewrite <- (remove_all_id cls (strip cls s) H).
  unfold strip. now rewrite remove_all_strip_end, remove_all_strip_start.
Qed.

(** ** Splitting and joining *)

Lemma split_on_nonempty sep (s : string) : split_on sep s <> [].
Proof. induction s as [|c s IH]; simpl; [easy|]. destruct (sep c); [easy|]. destruct (split_on sep s); easy. Qed.

Lemma split_on_free sep (s : string) :
  all_chars (fun c => negb (sep c)) s = true -> split_on sep s = [s].
Proof.
  induction s as [|c s IH]; simpl; [reflexivity|].
  intros [Hc Hs]%andb_true_iff. apply negb_true_iff in Hc. rewrite Hc.
  now rewrite (IH Hs).
Qed.

Lemma split_on_app sep (a b : string) (c : ascii) :
  sep c = true ->
  split_on sep (a +:+ String c b) = split_on sep a ++ split_on sep b.
Proof.
  intros Hc. induction a as [|x a IH]; simpl.
  - now rewrite Hc.
  - rewrite IH. destruct (sep x); [reflexivity|].
    destruct (split_on sep a) eqn:E; [now apply split_on_nonempty in E|].
    reflexivity.
Qed.

Lemma split_on_pieces_free sep (s : string) :
  Forall (fun p => all_chars (fun c => negb (sep c)) p = true) (split_on sep s).
Proof.
  induction s as [|c s IH]; simpl; [now repeat constructor|].
  destruct (sep c) eqn:Hc; [now constructor|].
  destruct (split_on sep s) as [|h t]; [repeat constructor; simpl; now rewrite Hc|].
  inversion IH as [|? ? Hh Ht]; subst. constructor; [|exact Ht].
  simpl. now rewrite Hc, Hh.
Qed.

Lemma split_length sep (s : string) :
  List.length (split sep s) = S (count_char sep s).
Proof.
  unfold split, count_char. induction s as [|c s IH]; simpl; [reflexivity|].
  destruct (Ascii.eqb sep c) eqn:E; simpl; [now rewrite IH|].
  destruct (split_on (Ascii.eqb sep) s) eqn:F; simpl in *; [discriminate|].
  exact IH.
Qed.

Lemma join_split (sep : ascii) (s : string) :
  join (String sep EmptyString) (split sep s) = s.
Proof.
  unfold split. induction s as [|c s IH]; simpl; [reflexivity|].
  destruct (Ascii.eqb sep c) eqn:E.
  - apply Ascii.eqb_eq in E as <-.
    destruct (split_on (Ascii.eqb sep) s) eqn:F; [now apply split_on_nonempty in F|].
    simpl. simpl in IH. now rewrite IH.
  - destruct (split_on (Ascii.eqb sep) s) as [|h t] eqn:F; [now apply split_on_nonempty in F|].
    destruct t; simpl in *; now rewrite <- IH.
Qed.

End StringFacts.

(* ================================================================== *)
(** * Facts about paths and the derived directory *)
(* ================================================================== *)

Module PathFacts.
Import JsString NodePath Dom Parse Scraper Spec StringFacts.

Lemma plain_inv (seg : string) :
  plain seg = true ->
  seg <> EmptyString /\ String.eqb seg EmptyString = false /\
  String.eqb seg "." = false /\ String.eqb seg ".." = false /\
  sep_free seg = true.
Proof.
  unfold plain. intros H.
  apply andb_true_iff in H as [H Hfree].
  apply andb_true_iff in H as [H Hdd].
  apply andb_true_iff in H as [Hne Hd].
  apply negb_true_iff in Hd, Hdd.
  destruct seg; [discriminate|]. now repeat split.
Qed.

Lemma replace_first_sep (a b : string) :
  sep_free a = true ->
  replace "/" "-" (a +:+ "/" +:+ b) = a +:+ "-" +:+ b.
Proof.
  unfold sep_free. induction a as [|c a IH]; simpl; [reflexivity|].
  intros [Hc Ha]%andb_true_iff. apply negb_true_iff in Hc.
  unfold is_char in Hc. rewrite Hc. simpl in IH. now rewrite (IH Ha).
Qed.

Lemma normalize_segments_plain (above : bool) (acc segs : list string) :
  Forall (fun s => plain s = true) segs ->
  normalize_segments above acc segs = rev acc ++ segs.
Proof.
  revert acc. induction segs as [|seg segs IH]; intros acc Hall; simpl.
  - now rewrite app_nil_r.
  - inversion Hall as [|? ? Hseg Hrest]; subst.
    destruct (plain_inv _ Hseg) as (_ & -> & -> & -> & _). simpl.
    rewrite (IH _ Hrest). simpl. now rewrite <- app_assoc.
Qed.

Lemma normalize_segments_snoc (above : bool) (acc xs : list string) (b : string) :
  plain b = true ->
  normalize_segments above acc (xs ++ [b]) =
  normalize_segments above acc xs ++ [b].
Proof.
  intros Hb. revert acc. induction xs as [|x xs IH]; intros acc.
  - simpl. destruct (plain_inv _ Hb) as (_ & -> & -> & -> & _). reflexivity.
  - simpl. destruct (String.eqb x EmptyString || String.eqb x "."); [apply IH|].
    destruct (String.eqb x ".."); [|apply IH].
    destruct acc as [|top acc']; [apply IH|].
    destruct (String.eqb top ".."); apply IH.
Qed.

Lemma join_cons (sep x : string) (xs : list string) :
  xs <> [] -> join sep (x :: xs) = x +:+ sep +:+ join sep xs.
Proof. destruct xs; [congruence | reflexivity]. Qed.

Lemma join_snoc (ys : list string) :
  exists pfx, forall b, join "/" (ys ++ [b]) = pfx +:+ b.
Proof.
  induction ys as [|y ys [pfx IH]].
  - now exists EmptyString.
  - exists (y +:+ "/" +:+ pfx). intros b.
    change ((y :: ys) ++ [b]) with (y :: (ys ++ [b])).
    rewrite join_cons by (now destruct ys).
    rewrite IH. now rewrite !append_assoc.
Qed.

Lemma ends_with_sep_app (a b : string) :
  b <> EmptyString -> ends_with_sep (a +:+ b) = ends_with_sep b.
Proof.
  intros Hb. induction a as [|c a IH]; simpl; [reflexivity|].
  destruct (a +:+ b) eqn:E; [|exact IH].
  destruct a; simpl in E; congruence.
Qed.

Lemma ends_with_sep_free (s : string) :
  sep_free s = true -> ends_with_sep s = false.
Proof.
  unfold sep_free. induction s as [|c s IH]; simpl; [reflexivity|].
  intros [Hc Hs]%andb_true_iff. apply negb_true_iff in Hc.
  destruct s; [|now apply IH].
  unfold is_char in Hc. now rewrite Ascii.eqb_sym.
Qed.

Lemma starts_with_sep_free (s : string) :
  sep_free s = true -> starts_with_sep s = false.
Proof.
  unfold sep_free. destruct s as [|c s]; simpl; [reflexivity|].
  intros [Hc _]%andb_true_iff. apply negb_true_iff in Hc.
  unfold is_char in Hc.
  destruct (Ascii.eqb_spec "/"%char c) as [<-|Hne]; [discriminate|].
  destruct c as [[] [] [] [] [] [] [] []]; try reflexivity. congruence.
Qed.

(** A plain name joined to a directory is appended to a prefix that
    depends on the directory only. *)
Lemma path_join_plain (d : string) :
  exists pfx, forall b, plain b = true -> path_join d b = pfx +:+ b.
Proof.
  destruct d as [|c d].
  - exists EmptyString. intros b Hb.
    destruct (plain_inv _ Hb) as (Hne & _ & _ & _ & Hfree).
    destruct b as [|x b]; [congruence|].
    unfold path_join, normalize.
    rewrite (starts_with_sep_free _ Hfree), (ends_with_sep_free _ Hfree).
    unfold split. rewrite split_on_free.
    2:{ eapply all_chars_weaken; [|exact Hfree]. intros ch. unfold is_char.
        now rewrite Ascii.eqb_sym. }
    rewrite (normalize_segments_plain _ [] [String x b]) by (now repeat constructor).
    simpl. now rewrite append_nil_r.
  - destruct (join_snoc
                (normalize_segments (negb (starts_with_sep (String c d))) []
                   (split "/" (String c d)))) as [pfx Hpfx].
    exists ((if starts_with_sep (String c d) then "/" else EmptyString) +:+ pfx).
    intros b Hb.
    destruct (plain_inv _ Hb) as (Hne & _ & _ & _ & Hfree).
    destruct b as [|x b]; [congruence|].
    unfold path_join.
    set (p := String c d +:+ "/" +:+ String x b).
    assert (Hp : p = String c (d +:+ "/" +:+ String x b)) by reflexivity.
    unfold normalize. rewrite Hp at 1.
    assert (Habs : starts_with_sep p = starts_with_sep (String c d)) by reflexivity.
    assert (Htrail : ends_with_sep p = false).
    { unfold p. rewrite <- append_assoc. rewrite ends_with_sep_app by easy.
      now apply ends_with_sep_free. }
    assert (Hsplit : split "/" p = split "/" (String c d) ++ [String x b]).
    { unfold p, split. change ("/" +:+ String x b) with (String "/" (String x b)).
      rewrite split_on_app by reflexivity.
      rewrite (split_on_free _ (String x b)); [reflexivity|].
      eapply all_chars_weaken; [|exact Hfree]. intros ch. unfold is_char.
      now rewrite Ascii.eqb_sym. }
    rewrite Habs, Htrail, Hsplit, normalize_segments_snoc by exact Hb.
    rewrite Hpfx.
    destruct (pfx +:+ String x b) eqn:E; [destruct pfx; discriminate|].
    rewrite <- E. now rewrite append_nil_r, append_assoc.
Qed.

Lemma path_join_inj (d a b : string) :
  plain a = true -> plain b = true -> path_join d a = path_join d b -> a = b.
Proof.
  intros Ha Hb. destruct (path_join_plain d) as [pfx H].
  rewrite (H a Ha), (H b Hb). apply append_inv_head.
Qed.

Lemma join_nonempty (x : string) (xs : list string) :
  x <> EmptyString -> join "/" (x :: xs) <> EmptyString.
Proof. destruct x; [congruence|]. destruct xs; simpl; congruence. Qed.

Lemma split_join (segs : list string) :
  segs <> [] -> Forall (fun s => sep_free s = true) segs ->
  split "/" (join "/" segs) = segs.
Proof.
  induction segs as [|x segs IH]; [congruence|]. intros _ Hall.
  inversion Hall as [|? ? Hx Hrest]; subst.
  assert (Hx' : all_chars (fun c => negb (Ascii.eqb "/" c)) x = true).
  { exact Hx. }
  destruct segs as [|y segs].
  - simpl. unfold split. now apply split_on_free.
  - rewrite join_cons by easy. unfold split in *.
    change ("/" +:+ join "/" (y :: segs)) with (String "/" (join "/" (y :: segs))).
    rewrite split_on_app by reflexivity.
    rewrite (split_on_free _ x Hx'). simpl. f_equal. now apply IH.
Qed.

Lemma ends_with_sep_join (segs : list string) :
  Forall (fun s => plain s = true) segs -> ends_with_sep (join "/" segs) = false.
Proof.
  induction segs as [|x segs IH]; [reflexivity|]. intros Hall.
  inversion Hall as [|? ? Hx Hrest]; subst.
  destruct (plain_inv _ Hx) as (Hne & _ & _ & _ & Hfree).
  destruct segs as [|y segs].
  - simpl. now apply ends_with_sep_free.
  - rewrite join_cons by easy.
    rewrite <- append_assoc, ends_with_sep_app; [now apply IH|].
    inversion Hrest; subst. apply join_nonempty.
    now destruct (plain_inv y).
Qed.

(** An absolute path made of plain names is its own normal form. *)
Lemma normalize_absolute_plain (segs : list string) :
  segs <> [] -> Forall (fun s => plain s = true) segs ->
  normalize ("/" +:+ join "/" segs) = "/" +:+ join "/" segs.
Proof.
  intros Hne Hall.
  assert (Hfree : Forall (fun s => sep_free s = true) segs).
  { eapply Forall_impl; [exact Hall|]. intros s Hs. now destruct (plain_inv s). }
  unfold normalize. change ("/" +:+ join "/" segs) with (String "/" (join "/" segs)).
  cbn [starts_with_sep negb].
  replace (ends_with_sep (String "/" (join "/" segs))) with false.
  2:{ change (String "/" (join "/" segs)) with ("/" +:+ join "/" segs).
      rewrite ends_with_sep_app; [now rewrite ends_with_sep_join|].
      destruct segs as [|x xs]; [congruence|]. inversion Hall; subst.
      apply join_nonempty. now destruct (plain_inv x). }
  replace (split "/" (String "/" (join "/" segs))) with (EmptyString :: segs).
  2:{ unfold split. simpl. f_equal. symmetry. now apply split_join. }
  cbn [normalize_segments String.eqb orb].
  rewrite normalize_segments_plain by exact Hall. simpl.
  destruct (join "/" segs) eqn:E.
  - destruct segs as [|x xs]; [congruence|]. inversion Hall; subst.
    exfalso. eapply join_nonempty; [|exact E]. now destruct (plain_inv x).
  - now rewrite append_nil_r.
Qed.

Lemma sep_free_app (a b : string) :
  sep_free (a +:+ b) = sep_free a && sep_free b.
Proof. apply all_chars_app. Qed.

Lemma plain_of_length (x : string) :
  sep_free x = true -> 3 <= String.length x -> plain x = true.
Proof.
  intros Hfree Hlen. unfold plain. fold (sep_free x). rewrite Hfree.
  destruct x as [|a [|b [|c x]]]; simpl in Hlen; try lia.
  destruct (String.eqb_spec (String a (String b (String c x))) ".") as [E|_];
    [discriminate E|].
  destruct (String.eqb_spec (String a (String b (String c x))) "..") as [E|_];
    [discriminate E|].
  reflexivity.
Qed.


(** A name with a dash in it is neither [.] nor [..]. *)
Lemma plain_dash (a b : string) :
  sep_free a = true -> sep_free b = true -> plain (a +:+ "-" +:+ b) = true.
Proof.
  intros Ha Hb. unfold plain. fold (sep_free (a +:+ "-" +:+ b)).
  rewrite !sep_free_app, Ha, Hb. cbn [andb].
  assert (Hdash : all_chars (fun c => negb (is_char "-" c)) (a +:+ "-" +:+ b) = false).
  { rewrite !all_chars_app. cbn. now rewrite andb_false_r. }
  assert (Hne : nonempty (a +:+ "-" +:+ b) = true) by (destruct a; reflexivity).
  rewrite Hne.
  destruct (String.eqb_spec (a +:+ "-" +:+ b) ".") as [E|_].
  { rewrite E in Hdash. discriminate Hdash. }
  destruct (String.eqb_spec (a +:+ "-" +:+ b) "..") as [E|_].
  { rewrite E in Hdash. discriminate Hdash. }
  reflexivity.
Qed.

Lemma path_join_nonempty (b : string) :
  b <> EmptyString ->
  path_join DOWNLOAD_DIR b = normalize (DOWNLOAD_DIR +:+ "/" +:+ b).
Proof. destruct b; [congruence | reflexivity]. Qed.

(** Plain names below the download directory are joined to it as they
    are. *)
Lemma path_join_download_dir (segs : list string) :
  segs <> [] -> Forall (fun s => plain s = true) segs ->
  path_join DOWNLOAD_DIR (join "/" segs) =
  DOWNLOAD_DIR +:+ "/" +:+ join "/" segs.
Proof.
  intros Hne Hall.
  assert (Hj : join "/" segs <> EmptyString).
  { destruct segs as [|x xs]; [congruence|]. inversion Hall; subst.
    apply join_nonempty. now destruct (plain_inv x). }
  assert (E : DOWNLOAD_DIR +:+ "/" +:+ join "/" segs =
              "/" +:+ join "/" ("tmp" :: "trex-pdfs" :: segs)).
  { rewrite (join_cons "/" "tmp") by easy.
    rewrite (join_cons "/" "trex-pdfs") by exact Hne. reflexivity. }
  rewrite path_join_nonempty by exact Hj. rewrite E.
  apply normalize_absolute_plain; [easy|].
  repeat constructor. exact Hall.
Qed.

Lemma filter_nonempty_plain (segs : list string) :
  Forall (fun s => plain s = true) segs -> List.filter nonempty segs = segs.
Proof.
  induction 1 as [|x xs Hx _ IH]; [reflexivity|].
  cbn [List.filter]. destruct (plain_inv _ Hx) as (Hx' & _).
  apply nonempty_true in Hx'. now rewrite Hx', IH.
Qed.

Lemma path_names_download_dir (segs : list string) :
  segs <> [] -> Forall (fun s => plain s = true) segs ->
  path_names (DOWNLOAD_DIR +:+ "/" +:+ join "/" segs) =
  path_names DOWNLOAD_DIR ++ segs.
Proof.
  intros Hne Hall.
  assert (E : DOWNLOAD_DIR +:+ "/" +:+ join "/" segs =
              String "/" (join "/" ("tmp" :: "trex-pdfs" :: segs))).
  { rewrite (join_cons "/" "tmp") by easy.
    rewrite (join_cons "/" "trex-pdfs") by exact Hne. reflexivity. }
  assert (Hall' : Forall (fun s => plain s = true) ("tmp" :: "trex-pdfs" :: segs)).
  { repeat constructor. exact Hall. }
  assert (Hbase : path_names DOWNLOAD_DIR = ["tmp"; "trex-pdfs"])
    by (vm_compute; reflexivity).
  rewrite E, Hbase. unfold path_names.
  replace (split "/" (String "/" (join "/" ("tmp" :: "trex-pdfs" :: segs))))
    with (EmptyString :: "tmp" :: "trex-pdfs" :: segs).
  2:{ unfold split. cbn [split_on]. rewrite Ascii.eqb_refl. f_equal. symmetry.
      apply split_join; [easy|]. eapply Forall_impl; [exact Hall'|].
      intros s Hs. now destruct (plain_inv s). }
  change (List.filter nonempty (EmptyString :: "tmp" :: "trex-pdfs" :: segs))
    with (List.filter nonempty ("tmp" :: "trex-pdfs" :: segs)).
  now rewrite (filter_nonempty_plain _ Hall').
Qed.

End PathFacts.

(* ================================================================== *)
(** * Rules for runs *)
(* ================================================================== *)

Module Rules.
Import JsString NodePath Dom Parse Scraper Spec Logic StringFacts.

Lemma wp_bind {A B} (m : M A) (k : A -> M B) Qn Qt Qr (s : state) :
  wp m (fun a s' => wp (k a) Qn Qt Qr s') Qt Qr s ->
  wp (bind m k) Qn Qt Qr s.
Proof. unfold wp, bind. destruct (m s) as [[a|e|] s']; auto. Qed.

Lemma wp_ret {B} (b : B) Qn Qt Qr (s : state) :
  Qn b s -> wp (ret b) Qn Qt Qr s.
Proof. exact id. Qed.

Lemma wp_throw {B} (e : string) (Qn : B -> state -> Prop) Qt Qr (s : state) :
  Qt e s -> wp (throw e) Qn Qt Qr s.
Proof. exact id. Qed.

Lemma wp_return {B} (Qn : B -> state -> Prop) Qt Qr (s : state) :
  Qr s -> wp return_result Qn Qt Qr s.
Proof. exact id. Qed.

Lemma wp_catch_default {B} (m : M B) (dflt : B) Qn Qt Qr (s : state) :
  wp m Qn (fun _ s' => Qn dflt s') Qr s ->
  wp (catch_default m dflt) Qn Qt Qr s.
Proof. unfold wp, catch_default. destruct (m s) as [[a|e|] s']; auto. Qed.

Lemma wp_with_state {B} (f : state -> M B) Qn Qt Qr (s : state) :
  wp (f s) Qn Qt Qr s -> wp (with_state f) Qn Qt Qr s.
Proof. exact id. Qed.

Lemma wp_modify (f : state -> state) Qn Qt Qr (s : state) :
  Qn tt (f s) -> wp (modify f) Qn Qt Qr s.
Proof. exact id. Qed.

Lemma wp_assign (f : ScrapeResult -> ScrapeResult) Qn Qt Qr (s : state) :
  Qn tt (with_result f s) -> wp (assign f) Qn Qt Qr s.
Proof. exact id. Qed.

Lemma wp_issue (c : call) Qn Qt Qr (s : state) :
  Qn tt (log c s) -> wp (issue c) Qn Qt Qr s.
Proof. exact id. Qed.

Lemma wp_settle (w : world) (p : site) Qn Qt Qr (s : state) :
  (fault w p = None -> Qn tt s) ->
  (forall e, fault w p = Some e -> Qt e s) ->
  wp (settle w p) Qn Qt Qr s.
Proof.
  intros Hn Ht. unfold wp, settle. destruct (fault w p) as [e|]; simpl; auto.
Qed.

Lemma wp_perform (w : world) (p : site) (c : call) Qn Qt Qr (s : state) :
  (fault w p = None -> Qn tt (log c s)) ->
  (forall e, fault w p = Some e -> Qt e (log c s)) ->
  wp (perform w p c) Qn Qt Qr s.
Proof.
  intros Hn Ht. unfold perform. apply wp_bind, wp_issue.
  now apply wp_settle.
Qed.

Lemma wp_updateDashboard (w : world) (i step status : string) Qn Qt Qr
    (s : state) :
  Qn tt (log_when (pool w) (DashboardQuery (agentId i) step status) s) ->
  wp (updateDashboard w i step status) Qn Qt Qr s.
Proof. exact id. Qed.

Ltac frame_calls :=
  simpl; eexists; split;
  [ repeat rewrite <- app_assoc; reflexivity
  | repeat rewrite forallb_app; simpl;
    repeat match goal with |- context [if ?b then _ else _] => destruct b end;
    reflexivity ].

(** The download loop never throws and never returns; it ends in a state
    framed by the one it started in. *)
Lemma loop_frame_refl (s : state) : loop_frame s s.
Proof.
  constructor; try reflexivity. exists []. now rewrite app_nil_r.
Qed.

Lemma loop_frame_trans (s1 s2 s3 : state) :
  loop_frame s1 s2 -> loop_frame s2 s3 -> loop_frame s1 s3.
Proof.
  intros [? ? ? ? ? ? ? ? (l1 & Hl1 & Hc1)] [? ? ? ? ? ? ? ? (l2 & Hl2 & Hc2)].
  constructor; try congruence.
  exists (l1 ++ l2). split.
  - rewrite Hl2, Hl1. now rewrite <- app_assoc.
  - rewrite forallb_app. now rewrite Hc1, Hc2.
Qed.

Lemma download_frame (w : world) (i dir : string) (total n : nat)
    (doc : DocumentRecord) (s : state) :
  exists s', download w i dir total n doc s = (Normal tt, s') /\ loop_frame s s'.
Proof.
  unfold download, catch_default, perform, bind, issue, settle, modify, assign,
    with_state, updateDashboard, throw, ret.
  destruct (fault w (AtFetch n)); simpl.
  { eexists; split; [reflexivity|]. constructor; try reflexivity. frame_calls. }
  destruct (fault w (AtWrite n)); simpl.
  { eexists; split; [reflexivity|]. constructor; try reflexivity. frame_calls. }
  eexists; split; [reflexivity|].
  constructor; try reflexivity; frame_calls.
Qed.

Lemma download_all_frame (w : world) (i dir : string) (total : nat)
    (docs : list DocumentRecord) (n : nat) (s : state) :
  exists s', download_all w i dir total n docs s = (Normal tt, s') /\
             loop_frame s s'.
Proof.
  revert n s. induction docs as [|doc docs IH]; intros n s; simpl.
  - exists s. split; [reflexivity | apply loop_frame_refl].
  - unfold bind.
    destruct (download_frame w i dir total n doc s) as (s1 & -> & H1).
    destruct (IH (S n) s1) as (s2 & -> & H2).
    exists s2. split; [reflexivity|]. eapply loop_frame_trans; eauto.
Qed.

(** One turn of the loop: either the download went through and the file
    and the entry of [pdfs] are written, or nothing of them changed. *)
Lemma download_step (w : world) (i dir : string) (total n : nat)
    (doc : DocumentRecord) (s : state) :
  typed doc ->
  exists s', download w i dir total n doc s = (Normal tt, s') /\
    if is_none (fault w (AtFetch n)) && is_none (fault w (AtWrite n)) then
      pdfs (result s') = <[type doc := target_file dir (type doc)]> (pdfs (result s)) /\
      files s' = <[target_file dir (type doc) := FromBase64 (fetched w n (url doc))]> (files s)
    else pdfs (result s') = pdfs (result s) /\ files s' = files s.
Proof.
  intros Hty.
  assert (Hfile : (if String.eqb (type doc) "judgment"
                   then "judgment.pdf" else "notice.pdf") = type doc +:+ ".pdf").
  { destruct Hty as [-> | ->]; reflexivity. }
  unfold download. rewrite Hfile. fold (target_file dir (type doc)).
  unfold catch_default, perform, bind, issue, settle, modify, assign,
    with_state, updateDashboard, throw, ret.
  destruct (fault w (AtFetch n)); simpl.
  { eexists; split; [reflexivity|]. now split. }
  destruct (fault w (AtWrite n)); simpl.
  { eexists; split; [reflexivity|]. now split. }
  eexists; split; [reflexivity|]. now split.
Qed.

Lemma target_file_inj (dir k k' : string) :
  k = "judgment" \/ k = "notice" -> k' = "judgment" \/ k' = "notice" ->
  target_file dir k = target_file dir k' -> k = k'.
Proof.
  unfold target_file. intros Hk Hk' H.
  apply PathFacts.path_join_inj in H.
  - destruct Hk as [-> | ->], Hk' as [-> | ->]; try reflexivity; discriminate H.
  - destruct Hk as [-> | ->]; reflexivity.
  - destruct Hk' as [-> | ->]; reflexivity.
Qed.

Lemma download_all_downloads (w : world) (i dir : string) (total : nat)
    (docs : list DocumentRecord) (n : nat) (s s' : state) :
  Forall typed docs ->
  download_all w i dir total n docs s = (Normal tt, s') ->
  loop_downloads w dir n docs s s'.
Proof.
  revert n s. induction docs as [|doc docs IH]; intros n s Hall; simpl.
  - intros [= <-]. split; [now intros k _ | auto].
  - inversion Hall as [|? ? Hty Hrest]; subst.
    unfold bind.
    destruct (download_step w i dir total n doc s Hty) as (s1 & -> & Hstep).
    intros Hloop. destruct (IH _ _ Hrest Hloop) as [Hk Hdom].
    split.
    + intros k Hkind. destruct (Hk k Hkind) as [Hp Hf].
      rewrite Hp, Hf. cbn [last_download].
      destruct (last_download w k (S n) docs) as [p|]; [now split|].
      destruct (fault w (AtFetch n)), (fault w (AtWrite n));
        cbn [is_none andb] in Hstep |- *;
        rewrite ?andb_false_r, ?andb_true_r;
        destruct Hstep as [-> ->]; try (now split).
      destruct (String.eqb_spec (type doc) k) as [<- | Hne].
      * now rewrite !lookup_insert_eq.
      * rewrite !lookup_insert_ne; [now split | | exact Hne].
        intros E. apply Hne. now apply (target_file_inj dir).
    + intros k Hsome. destruct (Hdom k Hsome) as [H1 | H1]; [|now right].
      destruct (is_none (fault w (AtFetch n)) && is_none (fault w (AtWrite n)));
        destruct Hstep as [Hpd _]; rewrite Hpd in H1; [|now left].
      destruct (String.eqb_spec (type doc) k) as [<- | Hne].
      * right. exact Hty.
      * left. now rewrite lookup_insert_ne in H1.
Qed.

Lemma wp_download_all (w : world) (i dir : string) (total n : nat)
    (docs : list DocumentRecord) Qn Qt Qr (s : state) :
  (forall s', loop_frame s s' ->
              (Forall typed docs -> loop_downloads w dir n docs s s') ->
              Qn tt s') ->
  wp (download_all w i dir total n docs) Qn Qt Qr s.
Proof.
  intros H. unfold wp.
  destruct (download_all_frame w i dir total docs n s) as (s' & E & Hf).
  rewrite E. apply H; [exact Hf|].
  intros Hall. now apply (download_all_downloads w i dir total docs n s s').
Qed.

End Rules.

(* ================================================================== *)
(** * Properties of [scrapeCase] *)
(* ================================================================== *)

Module RunFacts.
Import JsString NodePath Dom Parse Scraper Spec Logic StringFacts Rules.

#[local] Arguments mkdir_recursive : simpl never.

Lemma entry_state_eq (i c : string) (d0 : gset string) (f0 : gmap string buffer) :
  entry_state i c d0 f0 =
  {| result := initial_result i c (derived_dir i);
     page := false; downloaded := 0;
     calls := [MkdirSync (derived_dir i)];
     dirs := mkdir_recursive (derived_dir i) d0; files := f0 |}.
Proof. reflexivity. Qed.

Lemma scrapeCase_resolved (w : world) (i c : string) (d0 : gset string)
    (f0 : gmap string buffer) :
  fault w AtMkdir = None ->
  let t := try_block w i c (derived_dir i) (entry_state i c d0 f0) in
  scrapeCase w i c d0 f0 =
  (Resolved (result (settled w i (fst t) (snd t))), settled w i (fst t) (snd t)).
Proof.
  intros Hm. unfold scrapeCase, try_statement, settled. rewrite Hm.
  fold (derived_dir i).
  destruct (try_block w i c (derived_dir i) (entry_state i c d0 f0))
    as [[[]|e|] s']; reflexivity.
Qed.

Lemma scrapeCase_rejected (w : world) (i c : string) (d0 : gset string)
    (f0 : gmap string buffer) (msg : string) :
  fault w AtMkdir = Some msg ->
  fst (scrapeCase w i c d0 f0) = Rejected msg.
Proof. intros Hm. unfold scrapeCase. now rewrite Hm. Qed.

(** A property of the settled state of every way the [try] block can
    end holds of the state the run ends in. *)
Lemma settled_wp (w : world) (i c dir : string) (s0 : state)
    (Q : state -> Prop) :
  wp (try_block w i c dir)
     (fun _ s' => Q (settled w i (Normal tt) s'))
     (fun e s' => Q (settled w i (Throw e) s'))
     (fun s' => Q (settled w i Return s'))
     s0 ->
  Q (settled w i (fst (try_block w i c dir s0)) (snd (try_block w i c dir s0))).
Proof.
  unfold wp. destruct (try_block w i c dir s0) as [[[]|e|] s']; exact id.
Qed.

Lemma scrapeCase_settled (w : world) (i c : string) (d0 : gset string)
    (f0 : gmap string buffer) (Q : state -> Prop) :
  wp (try_block w i c (derived_dir i))
     (fun _ s' => Q (settled w i (Normal tt) s'))
     (fun e s' => Q (settled w i (Throw e) s'))
     (fun s' => Q (settled w i Return s'))
     (entry_state i c d0 f0) ->
  forall r s, scrapeCase w i c d0 f0 = (Resolved r, s) ->
              r = result s /\ Q s.
Proof.
  intros H r s E. apply settled_wp in H.
  destruct (fault w AtMkdir) as [msg|] eqn:Hm.
  { pose proof (scrapeCase_rejected w i c d0 f0 msg Hm) as R.
    rewrite E in R. discriminate R. }
  rewrite (scrapeCase_resolved w i c d0 f0 Hm) in E. cbv zeta in E.
  remember (settled w i _ _) as s1 eqn:Hs1 in E, H.
  assert (s1 = s) by congruence. assert (result s1 = r) by congruence.
  subst s r. now split.
Qed.

(** Symbolic execution of a piece, one construct at a time. *)
Ltac wp_step :=
  lazymatch goal with
  | |- wp (bind _ _) _ _ _ _ => apply wp_bind
  | |- wp (ret _) _ _ _ _ => apply wp_ret
  | |- wp (throw _) _ _ _ _ => apply wp_throw
  | |- wp return_result _ _ _ _ => apply wp_return
  | |- wp (modify _) _ _ _ _ => apply wp_modify
  | |- wp (assign _) _ _ _ _ => apply wp_assign
  | |- wp (issue _) _ _ _ _ => apply wp_issue
  | |- wp (with_state _) _ _ _ _ => apply wp_with_state
  | |- wp (settle _ _) _ _ _ _ => apply wp_settle; [intros ? | intros ? ?]
  | |- wp (perform _ _ _) _ _ _ _ => apply wp_perform; [intros ? | intros ? ?]
  | |- wp (updateDashboard _ _ _ _) _ _ _ _ => apply wp_updateDashboard
  | |- wp (catch_default _ _) _ _ _ _ => apply wp_catch_default
  | |- wp (download_all _ _ _ _ _ _) _ _ _ _ =>
      apply wp_download_all; intros ? ? ?
  | |- wp (case_stage _ _ _) _ _ _ _ => unfold case_stage
  | |- wp (documents_stage _ _ _) _ _ _ _ => unfold documents_stage
  | |- wp (fetch_stage _ _ _ _) _ _ _ _ => unfold fetch_stage
  | |- wp (match ?x with _ => _ end) _ _ _ _ =>
      first [ match goal with H : x = _ |- _ => rewrite H end
            | destruct x eqn:? ]
  end; cbv beta zeta.

(** The facts of the frame of the download loop, simplified. *)
Ltac frame_facts :=
  lazymatch goal with
  | H : loop_frame _ _ |- _ =>
      let Fl := fresh "Fl" in
      destruct H as [? ? ? ? ? ? ? ? [Fl [? ?]]];
      repeat match goal with
             | F : _ (result _) = _ |- _ => progress cbn in F
             | F : page _ = _ |- _ => progress cbn in F
             | F : dirs _ = _ |- _ => progress cbn in F
             | F : calls _ = _ |- _ => progress cbn in F
             end
  | _ => idtac
  end.

Ltac rewrite_frame :=
  repeat match goal with
         | F : page ?s = _ |- context [page ?s] => rewrite F
         | F : dirs ?s = _ |- context [dirs ?s] => rewrite F
         | F : calls ?s = _ |- context [calls ?s] => rewrite F
         | F : success (result ?s) = _ |- context [success (result ?s)] =>
             rewrite F
         | F : error (result ?s) = _ |- context [error (result ?s)] =>
             rewrite F
         | F : caseDir (result ?s) = _ |- context [caseDir (result ?s)] =>
             rewrite F
         | F : hcaptchaDetected (result ?s) = _
           |- context [hcaptchaDetected (result ?s)] => rewrite F
         | F : caseInfo (result ?s) = _ |- context [caseInfo (result ?s)] =>
             rewrite F
         | F : documents (result ?s) = _ |- context [documents (result ?s)] =>
             rewrite F
         end.

Ltac unfold_settled :=
  unfold settled, catch_clause, finally_clause, with_state, bind, assign,
    modify, updateDashboard, issue, ret;
  cbn; rewrite_frame; cbn; rewrite_frame; cbn.

Ltac run_cases :=
  unfold try_block; repeat wp_step; frame_facts; unfold_settled.

Lemma mkdir_recursive_elem (p : string) (d : gset string) :
  p ∈ mkdir_recursive p d.
Proof.
  unfold mkdir_recursive. apply elem_of_union_r, elem_of_list_to_set.
  assert (H : forall seen rest, (seen +:+ rest) ∈ dir_prefixes seen rest).
  { intros seen rest. revert seen. induction rest as [|c rest IH]; intros seen.
    - simpl. rewrite append_nil_r. apply list_elem_of_here.
    - simpl. apply elem_of_app. right.
      specialize (IH (seen +:+ String c EmptyString)).
      now rewrite append_assoc in IH. }
  exact (H EmptyString p).
Qed.


(** The directory of the case: the result names it, it is made by the
    first call of the run, and it is there when the run ends. *)
Lemma scrapeCase_directory (w : world) (i c : string) (d0 : gset string)
    (f0 : gmap string buffer) (r : ScrapeResult) (s : state) :
  scrapeCase w i c d0 f0 = (Resolved r, s) ->
  caseDir r = derived_dir i /\
  (exists rest, calls s = MkdirSync (derived_dir i) :: rest) /\
  derived_dir i ∈ dirs s.
Proof.
  intros H.
  apply (scrapeCase_settled w i c d0 f0
    (fun s => caseDir (result s) = derived_dir i /\
              (exists rest, calls s = MkdirSync (derived_dir i) :: rest) /\
              derived_dir i ∈ dirs s)) in H.
  { now destruct H as [-> H]. }
  clear H. rewrite entry_state_eq. generalize (derived_dir i). intros dir.
  run_cases.
  all: split; [reflexivity|]; split; [eexists; reflexivity|].
  all: apply mkdir_recursive_elem.
Qed.



Lemma scan_row_typed (capture : string -> option string) (row : node)
    (d : DocumentRecord) :
  scan_row_with capture row = Some d -> typed d.
Proof.
  unfold scan_row_with, typed.
  destruct (Nat.leb 3 _); [|discriminate].
  destruct (_ && _); [|discriminate].
  destruct (capture _); [|discriminate].
  intros [= <-]. cbn [type]. destruct (includes _ _); auto.
Qed.

Lemma scan_documents_typed (root : node) : Forall typed (scan_documents root).
Proof.
  unfold scan_documents. induction (querySelectorAll rows_selector root) as [|row rows IH].
  - constructor.
  - cbn [omap list_omap]. destruct (scan_row row) as [d|] eqn:E; [|exact IH].
    constructor; [|exact IH]. now apply (scan_row_typed openPDF_url row).
Qed.

(** [success] against [pdfs] and [error], on every run. *)
Lemma scrapeCase_success (w : world) (i c : string) (d0 : gset string)
    (f0 : gmap string buffer) (r : ScrapeResult) (s : state) :
  scrapeCase w i c d0 f0 = (Resolved r, s) ->
  (success r = true <-> 0 < size (pdfs r) /\ error r = None).
Proof.
  intros H.
  apply (scrapeCase_settled w i c d0 f0
    (fun s => success (result s) = true <->
              0 < size (pdfs (result s)) /\ error (result s) = None)) in H.
  { now destruct H as [-> H]. }
  clear H. rewrite entry_state_eq. generalize (derived_dir i). intros dir.
  run_cases.
  all: try (split; [discriminate | intros [_ ?]; discriminate]).
  all: destruct (size _); cbn;
    (split;
     [ intros ?; first [discriminate | split; [lia | reflexivity]]
     | intros [? _]; first [reflexivity | lia] ]).
Qed.

(** [pdfs] and the files against the documents, on every run. *)
Lemma scrapeCase_downloads (w : world) (i c : string) (d0 : gset string)
    (f0 : gmap string buffer) (r : ScrapeResult) (s : state) :
  scrapeCase w i c d0 f0 = (Resolved r, s) ->
  (forall k, k = "judgment" \/ k = "notice" ->
     pdfs r !! k =
       match last_download w k 0 (documents r) with
       | Some _ => Some (target_file (caseDir r) k)
       | None => None
       end /\
     forall p, last_download w k 0 (documents r) = Some p ->
               files s !! target_file (caseDir r) k = Some (FromBase64 p)) /\
  (forall k, is_Some (pdfs r !! k) -> k = "judgment" \/ k = "notice").
Proof.
  intros H.
  apply (scrapeCase_settled w i c d0 f0
    (fun s =>
       (forall k, k = "judgment" \/ k = "notice" ->
          pdfs (result s) !! k =
            match last_download w k 0 (documents (result s)) with
            | Some _ => Some (target_file (caseDir (result s)) k)
            | None => None
            end /\
          forall p, last_download w k 0 (documents (result s)) = Some p ->
                    files s !! target_file (caseDir (result s)) k =
                    Some (FromBase64 p)) /\
       (forall k, is_Some (pdfs (result s) !! k) ->
                  k = "judgment" \/ k = "notice"))) in H.
  { now destruct H as [-> H]. }
  clear H. rewrite entry_state_eq. generalize (derived_dir i). intros dir.
  run_cases.
  all: try (split; [ intros k _; split; [apply lookup_empty | discriminate]
                   | intros k [? Hk]; now rewrite lookup_empty in Hk ]).
  all: match goal with
       | E : scan_documents _ = ?docs,
         D : Forall typed ?docs -> loop_downloads _ _ _ ?docs _ _ |- _ =>
           let Hk := fresh "Hk" in let Hdom := fresh "Hdom" in
           destruct D as [Hk Hdom];
           [ rewrite <- E; apply scan_documents_typed | cbn in Hk, Hdom ]
       end.
  all: split;
    [ intros k Hkind; destruct (Hk k Hkind) as [Hp Hf];
      rewrite lookup_empty in Hp; rewrite Hp; split; [reflexivity|];
      intros p Hlast; rewrite Hlast in Hf; exact Hf
    | intros k Hsome; destruct (Hdom k Hsome) as [Hbad | ?]; [|assumption];
      rewrite lookup_empty in Hbad; now destruct Hbad ].
Qed.

Lemma closes_cons (x : call) (l : list call) :
  closes (x :: l) = (if is_close x then 1 else 0) + closes l.
Proof. unfold closes. cbn [List.filter]. now destruct (is_close x). Qed.

Lemma closes_loop_calls (l : list call) :
  forallb is_loop_call l = true -> closes l = 0.
Proof.
  induction l as [|x l IH]; [reflexivity|]. cbn [forallb].
  intros [Hx Hl]%andb_true_iff. rewrite closes_cons, (IH Hl).
  now destruct x.
Qed.

(** How often the tab is closed, by the way the [try] block ends: twice
    on every [return result], once when the block runs to its end. *)
Lemma closes_by_ending (w : world) (i c : string) (d0 : gset string)
    (f0 : gmap string buffer) :
  wp (try_block w i c (derived_dir i))
     (fun _ s' => closes (calls (settled w i (Normal tt) s')) = 1)
     (fun _ _ => True)
     (fun s' => closes (calls (settled w i Return s')) = 2)
     (entry_state i c d0 f0).
Proof.
  rewrite entry_state_eq. generalize (derived_dir i). intros dir.
  destruct (pool w) eqn:Hpool; run_cases; try exact I.
  all: rewrite ?Hpool; cbn; try reflexivity.
  all: rewrite ?List.filter_app, ?List.length_app; cbn.
  all: match goal with
       | H : forallb is_loop_call ?l = true |- _ =>
           pose proof (closes_loop_calls l H) as Hz; unfold closes in Hz;
           rewrite Hz
       end; reflexivity.
Qed.

(** With both arguments given and a result returned, the callback that
    is to end the process throws instead: no exit status is set by the
    program. *)
Lemma exit_not_reached (w : world) (a b : string) (rest : list string)
    (d0 : gset string) (f0 : gmap string buffer) (r : ScrapeResult) (s : state) :
  a <> EmptyString -> b <> EmptyString ->
  scrapeCase w a b d0 f0 = (Resolved r, s) ->
  status (main w (a :: b :: rest) d0 f0) = UnhandledRejection "r is not defined".
Proof.
  intros Ha Hb E. unfold main. cbn [nth_error arg falsy].
  destruct a; [congruence|]. destruct b; [congruence|].
  cbn [falsy nth_error orb arg]. rewrite E. reflexivity.
Qed.

(** The documents of the result are those of the documents page, when
    the run got that far. *)
Lemma scrapeCase_documents (w : world) (i c : string) (d0 : gset string)
    (f0 : gmap string buffer) (r : ScrapeResult) (s : state) :
  scrapeCase w i c d0 f0 = (Resolved r, s) ->
  documents r = [] \/ documents r = scan_documents (docs_page w).
Proof.
  intros H.
  apply (scrapeCase_settled w i c d0 f0
    (fun s => documents (result s) = [] \/
              documents (result s) = scan_documents (docs_page w))) in H.
  { now destruct H as [-> H]. }
  clear H. rewrite entry_state_eq. generalize (derived_dir i). intros dir.
  run_cases.
  all: first [left; reflexivity | right; congruence].
Qed.

Lemma last_download_In (w : world) (k : string) (docs : list DocumentRecord)
    (n : nat) (p : string) :
  last_download w k n docs = Some p ->
  exists d, In d docs /\ type d = k.
Proof.
  revert n p. induction docs as [|d docs IH]; intros n; cbn [last_download];
    intros p; [discriminate|].
  destruct (last_download w k (S n) docs) as [q|] eqn:E.
  - intros _. destruct (IH _ _ E) as (d' & Hin & Hty). exists d'. split; [now right | exact Hty].
  - destruct (String.eqb_spec (type d) k) as [Hty|]; [|discriminate].
    intros _. exists d. split; [now left | exact Hty].
Qed.

End RunFacts.

(* ================================================================== *)
(** * Facts about queries and rows *)
(* ================================================================== *)

Module DomFacts.
Import JsString NodePath Dom Parse Scraper Spec StringFacts.

Lemma node_induction (P : node -> Prop) :
  (forall d, P (Text d)) ->
  (forall t a kids, Forall P kids -> P (Elem t a kids)) ->
  forall n, P n.
Proof.
  intros HT HE. fix IH 1. intros [d | t a kids]; [apply HT|].
  apply HE. induction kids as [|k kids IHk]; constructor; [apply IH | exact IHk].
Qed.

Lemma all_elements_Elem (t : string) (a : list (string * string))
    (kids : list node) :
  all_elements (Elem t a kids) = Elem t a kids :: flat_map all_elements kids.
Proof.
  reflexivity.
Qed.

Lemma query_from_Elem (sel : selector) (ancs : list node) (t : string)
    (a : list (string * string)) (kids : list node) :
  query_from sel ancs (Elem t a kids) =
  (if matches sel ancs (Elem t a kids) then [Elem t a kids] else []) ++
  flat_map (query_from sel (Elem t a kids :: ancs)) kids.
Proof.
  reflexivity.
Qed.

(** An element that the selector matches whatever its ancestors is among
    the results of the query. *)
Lemma query_from_complete (sel : selector) (e : node) :
  (forall ancs, matches sel ancs e = true) ->
  forall n ancs, In e (all_elements n) -> In e (query_from sel ancs n).
Proof.
  intros Hm. induction n as [d | t a kids IH] using node_induction;
    intros ancs Hin; [destruct Hin|].
  rewrite all_elements_Elem in Hin. rewrite query_from_Elem.
  apply in_or_app. destruct Hin as [<- | Hin].
  - left. rewrite Hm. now left.
  - right. apply in_flat_map in Hin as (k & Hk & He).
    apply in_flat_map. exists k. split; [exact Hk|].
    rewrite Forall_forall in IH. apply IH; [|exact He].
    now apply list_elem_of_In.
Qed.

Lemma challenge_marker_matches (e : node) (ancs : list node) :
  is_challenge_marker e -> matches captcha_selector ancs e = true.
Proof.
  intros [Hel H]. destruct e as [d | t a kids]; [discriminate|].
  unfold matches, captcha_selector, matches_complex. cbn [existsb rev app].
  destruct H as [[k Hk] | [Hc | [Ht (src & Hsrc & Hinc)]]].
  - cbn. cbn in Hk. now rewrite Hk.
  - apply orb_true_iff. right. apply orb_true_iff. left.
    cbn. cbn in Hc. now rewrite Hc.
  - apply orb_true_iff. right. apply orb_true_iff. right.
    cbn in Ht. subst t. cbn. cbn in Hsrc. rewrite Hsrc.
    rewrite String.eqb_refl. cbn. now rewrite Hinc.
Qed.

(** A challenge marker on the page is found by the query of the program. *)
Lemma challenge_marker_found (root : node) :
  challenge_marker_present root ->
  exists e, querySelector captcha_selector root = Some e.
Proof.
  intros (e & Hin & Hm).
  assert (H : In e (querySelectorAll captcha_selector root)).
  { apply query_from_complete; [|exact Hin].
    intros ancs. now apply challenge_marker_matches. }
  unfold querySelector. destruct (querySelectorAll captcha_selector root);
    [destruct H | eauto].
Qed.

(** ** The handler of a document link *)

Lemma no_quote_all (s : string) :
  all_chars (fun c => negb (is_quote c)) s = no_quote s.
Proof. reflexivity. Qed.

Lemma openPDF_url_sound (h u : string) :
  openPDF_url h = Some u -> quoted_call h u.
Proof.
  unfold openPDF_url. intros H.
  apply search_Some in H as (pre & t & -> & H).
  destruct (strip_prefix "openPDF(" t) as [[|q r]|] eqn:E; try discriminate.
  apply strip_prefix_Some in E as ->.
  destruct (is_quote q) eqn:Hq; [|discriminate].
  apply plus_Some in H as (m & rest & -> & Hne & Hall & Hk).
  destruct rest as [|q' post]; [discriminate|].
  destruct (is_quote q') eqn:Hq'; [|discriminate].
  injection Hk as ->.
  exists pre, q, q', post. repeat split; auto.
Qed.

Lemma openPDF_url_complete (h u : string) :
  quoted_call h u -> exists u', openPDF_url h = Some u'.
Proof.
  intros (pre & q1 & q2 & post & -> & Hq1 & Hq2 & Hne & Hall).
  destruct (plus_found (fun c => negb (is_quote c))
              (fun m rest =>
                 match rest with
                 | String q' _ => if is_quote q' then Some m else None
                 | EmptyString => None
                 end) u (String q2 post) u Hne Hall) as [y Hy].
  { now rewrite Hq2. }
  unfold openPDF_url. apply (search_found _ pre _ y). cbv beta.
  rewrite strip_prefix_app, Hq1. exact Hy.
Qed.

Lemma quoted_call_nonempty (h u : string) :
  quoted_call h u -> nonempty h = true.
Proof.
  intros (pre & q1 & q2 & post & -> & _). destruct pre; reflexivity.
Qed.

Lemma target_name_eqb (s : string) :
  (String.eqb s JUDGMENT_NAME || String.eqb s NOTICE_NAME = true) <->
  is_target_name s.
Proof.
  unfold is_target_name. rewrite orb_true_iff, !String.eqb_eq. reflexivity.
Qed.

(** What [scan_row] returns, field by field. *)
Lemma scan_row_Some (row : node) (d : DocumentRecord) :
  scan_row row = Some d ->
  exists link h,
    row_link row = Some link /\
    getAttribute "onclick" link = Some h /\
    is_target_name (trim (textContent link)) /\
    openPDF_url h = Some (url d) /\
    name d = trim (textContent link) /\
    type d = (if includes "JUDGMENT" (name d) then "judgment" else "notice") /\
    date d = option_map (fun c => trim (textContent c))
               (nth_error (descendants (by_tag "td") row) 1).
Proof.
  unfold scan_row, scan_row_with, row_link.
  destruct (Nat.leb 3 _); [|discriminate].
  destruct (nth_error (descendants (by_tag "td") row) 2) as [cell|].
  2:{ cbn. discriminate. }
  destruct (List.head (descendants (by_tag "a") cell)) as [link|].
  2:{ cbn. discriminate. }
  destruct (getAttribute "onclick" link) as [h|] eqn:Hattr.
  2:{ rewrite andb_false_r. discriminate. }
  destruct (String.eqb _ _ || String.eqb _ _) eqn:Hname; [|discriminate].
  apply target_name_eqb in Hname.
  destruct (nonempty h); [|discriminate]. cbn [andb].
  destruct (openPDF_url h) as [u|] eqn:Hu; [|discriminate].
  intros [= <-]. exists link, h. cbn [name type url date]. now repeat split.
Qed.

Lemma scan_row_candidate (row : node) :
  candidate_row row -> exists d, scan_row row = Some d.
Proof.
  intros (link & h & u & Hlen & Hlink & Hname & Hattr & Hcall).
  unfold scan_row, scan_row_with. unfold row_link in Hlink.
  apply Nat.leb_le in Hlen. rewrite Hlen.
  destruct (nth_error (descendants (by_tag "td") row) 2) as [cell|];
    [|discriminate].
  rewrite Hlink, Hattr.
  apply target_name_eqb in Hname. rewrite Hname.
  rewrite (quoted_call_nonempty h u Hcall). cbn [andb].
  destruct (openPDF_url_complete h u Hcall) as [u' ->]. eauto.
Qed.

End DomFacts.

(* ================================================================== *)
(** * The claims of the specification *)
(* ================================================================== *)

Import JsString NodePath Dom Parse Scraper Spec Logic Samples.
Import StringFacts PathFacts Rules RunFacts DomFacts.

(** ** C1: success and the downloads *)

(** C1, as stated, fails: when both documents were downloaded and the
    closing of the tab after the loop throws, the result is returned
    with [pdfs] holding two entries and [success] false. *)
Lemma C1_success_false_with_downloads :
  exists r s,
    run_of w_close_fails = (Resolved r, s) /\
    ~ (success r = true <-> 0 < size (pdfs r)).
Proof.
  exists (final_result w_close_fails), (final_state w_close_fails).
  split; [vm_compute; reflexivity|].
  intros [_ H].
  assert (Hs : success (final_result w_close_fails) = false)
    by (vm_compute; reflexivity).
  rewrite H in Hs; [discriminate|].
  vm_compute. lia.
Qed.

(** C1 (amended): on every run of [scrapeCase] that returns a result,
    [success] is true exactly when [pdfs] has at least one entry and no
    error was recorded; so it is never true without a download, whatever
    the number of documents found. *)
Theorem C1_success_iff_downloads_without_error
    (w : world) (i c : string) (d0 : gset string) (f0 : gmap string buffer)
    (r : ScrapeResult) (s : state) :
  scrapeCase w i c d0 f0 = (Resolved r, s) ->
  (success r = true <-> 0 < size (pdfs r) /\ error r = None).
Proof. apply scrapeCase_success. Qed.

Lemma C1_witness :
  success (final_result w_ok) = true <->
  0 < size (pdfs (final_result w_ok)) /\ error (final_result w_ok) = None.
Proof.
  apply (C1_success_iff_downloads_without_error w_ok "606529/2023" "Suffolk"
           ∅ ∅ (final_result w_ok) (final_state w_ok)).
  vm_compute. reflexivity.
Defined.

(** ** C2: the challenge ends the run *)

(** C2, as stated, fails: with the challenge on the search result the
    result has [hcaptchaDetected] set and [error] populated as well. *)
Lemma C2_error_populated_with_challenge :
  exists r s,
    run_of w_challenge = (Resolved r, s) /\
    hcaptchaDetected r = true /\
    ~ (error r = None /\ documents r = [] /\ caseInfo r = None).
Proof.
  exists (final_result w_challenge), (final_state w_challenge).
  split; [vm_compute; reflexivity|]. split; [vm_compute; reflexivity|].
  intros [H _]. vm_compute in H. discriminate H.
Qed.

(** C2 (amended): when the search completes and a challenge marker is
    on the search-result page, the run returns a result with
    [hcaptchaDetected] true and [success] false, the only navigation is
    the one to the search page, [documents], [caseInfo] and [pdfs] stay
    unpopulated, and [error] is the text hCaptcha detected, or the
    message of the exception when closing the tab throws. *)
Theorem C2_challenge_short_circuits
    (w : world) (i c : string) (d0 : gset string) (f0 : gmap string buffer) :
  search_completes w ->
  challenge_marker_present (result_page w) ->
  exists r s,
    scrapeCase w i c d0 f0 = (Resolved r, s) /\
    hcaptchaDetected r = true /\ success r = false /\
    navigations (calls s) = [SEARCH_URL] /\
    documents r = [] /\ caseInfo r = None /\ pdfs r = ∅ /\
    error r = Some (match fault w AtCloseCaptcha with
                    | Some msg => msg
                    | None => "hCaptcha detected"
                    end).
Proof.
  intros (Hmk & Hconn & Hnew & Hgoto & Hwait & Htype & Hcounty & Hsel &
          Hclick & Hq) Hmarker.
  apply challenge_marker_found in Hmarker as [e He].
  exists (result (settled w i
            (fst (try_block w i c (derived_dir i) (entry_state i c d0 f0)))
            (snd (try_block w i c (derived_dir i) (entry_state i c d0 f0))))),
         (settled w i
            (fst (try_block w i c (derived_dir i) (entry_state i c d0 f0)))
            (snd (try_block w i c (derived_dir i) (entry_state i c d0 f0)))).
  split; [now apply scrapeCase_resolved|].
  apply (settled_wp w i c (derived_dir i) (entry_state i c d0 f0)
    (fun s =>
       hcaptchaDetected (result s) = true /\ success (result s) = false /\
       navigations (calls s) = [SEARCH_URL] /\
       documents (result s) = [] /\ caseInfo (result s) = None /\
       pdfs (result s) = ∅ /\
       error (result s) = Some (match fault w AtCloseCaptcha with
                                | Some msg => msg
                                | None => "hCaptcha detected"
                                end))).
  rewrite entry_state_eq. generalize (derived_dir i). intros dir.
  destruct (pool w) eqn:Hpool;
    destruct (countyValue w) as [[|a v]|] eqn:Hcv;
    run_cases; try congruence.
  all: rewrite ?Hpool; cbn.
  all: match goal with
       | H : fault _ AtCloseCaptcha = _ |- _ => rewrite H
       end.
  all: now repeat split.
Qed.

Lemma C2_witness :
  exists r s,
    run_of w_challenge = (Resolved r, s) /\
    hcaptchaDetected r = true /\ success r = false /\
    navigations (calls s) = [SEARCH_URL] /\
    documents r = [] /\ caseInfo r = None /\ pdfs r = ∅ /\
    error r = Some "hCaptcha detected".
Proof.
  apply (C2_challenge_short_circuits w_challenge "606529/2023" "Suffolk" ∅ ∅).
  - repeat split; reflexivity.
  - exists (Elem "div" [("class", "h-captcha"); ("data-sitekey", "10000000-ffff")] []).
    split.
    + right. right. left. reflexivity.
    + split; [reflexivity|]. left. eexists. reflexivity.
Defined.

(** ** C3: which rows of the documents table give a record *)

(** C3, as stated, fails: a target row whose handler delimits the
    argument of the PDF-open function with double quotes gives a record,
    although it has no single-quoted argument. *)
Lemma C3_double_quoted_handler_gives_record :
  (exists d, scan_row double_quoted_row = Some d /\ url d = "/docs/n.pdf") /\
  spec_scan_row double_quoted_row = None.
Proof.
  split; [|vm_compute; reflexivity].
  eexists. split; vm_compute; reflexivity.
Qed.

(** C3 (amended): a row of the documents table gives a record exactly
    when it has at least three cells, the third cell holds a link whose
    trimmed text is one of the two target names, and the handler of the
    link holds a call of the PDF-open function whose argument is
    delimited by quote characters, single or double; the record has the
    trimmed text as name, the captured argument as url, and the type
    judgment exactly when the name contains JUDGMENT, else notice; any
    other row adds nothing to the documents, and so nothing to [pdfs]:
    every document of a result is the record of a row, and every entry
    of [pdfs] has the type of a document of the result. *)
Theorem C3_record_exactly_for_candidate_rows (row : node) :
  (is_Some (scan_row row) <-> candidate_row row) /\
  (forall d, scan_row row = Some d ->
     exists link h,
       row_link row = Some link /\
       getAttribute "onclick" link = Some h /\
       name d = trim (textContent link) /\
       is_target_name (name d) /\
       quoted_call h (url d) /\
       (type d = "judgment" <-> includes "JUDGMENT" (name d) = true) /\
       (type d = "notice" <-> includes "JUDGMENT" (name d) = false)) /\
  (scan_row row = None ->
     forall before after,
       omap scan_row (before ++ row :: after) = omap scan_row (before ++ after)) /\
  (forall (w : world) (i c : string) (d0 : gset string)
          (f0 : gmap string buffer) (r : ScrapeResult) (s : state),
     scrapeCase w i c d0 f0 = (Resolved r, s) ->
     (forall d, In d (documents r) ->
        exists row', In row' (querySelectorAll rows_selector (docs_page w)) /\
                     scan_row row' = Some d) /\
     (forall k, is_Some (pdfs r !! k) ->
        exists d, In d (documents r) /\ type d = k)).
Proof.
  split; [|split; [|split]].
  - split.
    + intros [d Hd]. pose proof Hd as Hd'.
      apply scan_row_Some in Hd as (link & h & Hlink & Hattr & Hname & Hu & _).
      exists link, h, (url d). repeat split; auto.
      * unfold scan_row, scan_row_with in Hd'.
        destruct (Nat.leb 3 _) eqn:Hlen; [|discriminate].
        now apply Nat.leb_le in Hlen.
      * now apply openPDF_url_sound.
    + intros H. now apply scan_row_candidate.
  - intros d Hd.
    apply scan_row_Some in Hd as (link & h & Hlink & Hattr & Hname & Hu &
                                  Hn & Ht & _).
    assert (Hty : (type d = "judgment" <-> includes "JUDGMENT" (name d) = true) /\
                  (type d = "notice" <-> includes "JUDGMENT" (name d) = false)).
    { rewrite Ht. destruct (includes "JUDGMENT" (name d));
        split; split; intros; first [reflexivity | discriminate]. }
    exists link, h. rewrite Hn at 1 2.
    split; [exact Hlink|]. split; [exact Hattr|]. split; [reflexivity|].
    split; [exact Hname|]. split; [now apply openPDF_url_sound | exact Hty].
  - intros Hnone before after.
    rewrite !omap_app. cbn [omap list_omap]. now rewrite Hnone.
  - intros w i c d0 f0 r s Hrun. split.
    + intros d Hin.
      destruct (scrapeCase_documents w i c d0 f0 r s Hrun) as [E | E];
        rewrite E in Hin; [destruct Hin|].
      unfold scan_documents in Hin.
      apply list_elem_of_In, list_elem_of_omap in Hin as (row' & Hrow & Hd).
      exists row'. split; [now apply list_elem_of_In | exact Hd].
    + intros k Hk.
      destruct (scrapeCase_downloads w i c d0 f0 r s Hrun) as [Hlook Hdom].
      destruct (Hdom k Hk) as [-> | ->].
      * destruct (Hlook "judgment") as [Hp _]; [now left|].
        rewrite Hp in Hk.
        destruct (last_download w "judgment" 0 (documents r)) as [p|] eqn:E;
          [|now destruct Hk].
        now apply last_download_In in E.
      * destruct (Hlook "notice") as [Hp _]; [now right|].
        rewrite Hp in Hk.
        destruct (last_download w "notice" 0 (documents r)) as [p|] eqn:E;
          [|now destruct Hk].
        now apply last_download_In in E.
Qed.

Lemma C3_witness :
  is_Some (scan_row notice_row) <-> candidate_row notice_row.
Proof. exact (proj1 (C3_record_exactly_for_candidate_rows notice_row)). Defined.

(** ** C4: the exit status *)

(** C4 fails on the program: with both arguments given and a run that
    ends with [success] true, the callback that computes the exit status
    refers to [r], which is not in its scope, so the promise chain is
    rejected and [process.exit(0)] is never reached; the earlier
    revision of the entry point, where the callback binds [r], exits
    with status 0 on the same result; a missing argument prints the
    usage and exits with status 1 without a call ([exit_not_reached] has
    every run that returns a result). *)
Theorem C4_exit_status_not_reached_on_success :
  success (final_result w_ok) = true /\
  status (main w_ok argv_ok ∅ ∅) = UnhandledRejection "r is not defined" /\
  snd (then_chain_earlier (fst (run_of w_ok))) = Exit 0 /\
  stdout (main w_ok ["606529/2023"] ∅ ∅) = [Usage] /\
  status (main w_ok ["606529/2023"] ∅ ∅) = Exit 1 /\
  issued (main w_ok ["606529/2023"] ∅ ∅) = [].
Proof. repeat split; vm_compute; reflexivity. Qed.

(** ** C5: exceptions *)

(** C5, as stated, fails: the directory of the case is made before the
    [try] statement is entered; when that throws, the exception leaves
    [scrapeCase] and no result is returned. *)
Lemma C5_mkdir_exception_escapes :
  fst (run_of w_mkdir_fails) = Rejected "EACCES: permission denied, mkdir".
Proof. vm_compute. reflexivity. Qed.

(** C5 (amended): when making the directory of the case does not throw,
    then for every input and every behaviour of the browser [scrapeCase]
    returns one result, and whenever the [try] block ends by an
    exception its message is the [error] of that result. *)
Theorem C5_exceptions_recorded_once_directory_made
    (w : world) (i c : string) (d0 : gset string) (f0 : gmap string buffer) :
  fault w AtMkdir = None ->
  exists r s,
    scrapeCase w i c d0 f0 = (Resolved r, s) /\
    forall msg s',
      try_block w i c (derived_dir i) (entry_state i c d0 f0) = (Throw msg, s') ->
      error r = Some msg.
Proof.
  intros Hmk. rewrite (scrapeCase_resolved w i c d0 f0 Hmk). cbv zeta.
  eexists _, _. split; [reflexivity|].
  intros msg s' E. rewrite E. cbn [fst snd].
  unfold settled, catch_clause, finally_clause, with_state, bind, assign,
    modify, updateDashboard, issue, ret.
  cbn. destruct (page s'); reflexivity.
Qed.

Lemma C5_witness :
  exists r s,
    run_of w_no_browser = (Resolved r, s) /\
    forall msg s',
      try_block w_no_browser "606529/2023" "Suffolk"
        (derived_dir "606529/2023") (entry_state "606529/2023" "Suffolk" ∅ ∅)
      = (Throw msg, s') ->
      error r = Some msg.
Proof.
  apply (C5_exceptions_recorded_once_directory_made w_no_browser
           "606529/2023" "Suffolk" ∅ ∅).
  reflexivity.
Defined.

(** ** C6: closing the tab *)

(** C6 fails on the program: on the early return for a detected
    challenge the tab is closed before [return result] and, the variable
    [page] still holding the page, once more by the [finally] clause;
    the path that completes the downloads clears the variable and closes
    the tab once ([closes_by_ending] has every early return and every
    completed run). *)
Theorem C6_tab_closed_twice_on_early_return :
  closes (calls (final_state w_challenge)) = 2 /\
  closes (calls (final_state w_ok)) = 1.
Proof. split; vm_compute; reflexivity. Qed.

(** ** C7: one entry of [pdfs] per type *)

(** C7, as stated, fails: a documents table that lists the notice twice
    gives two records of the type notice. *)
Lemma C7_two_records_of_one_type :
  exists r s,
    run_of w_two_notices = (Resolved r, s) /\
    List.length (List.filter (of_type "notice") (documents r)) = 2.
Proof.
  exists (final_result w_two_notices), (final_state w_two_notices).
  split; vm_compute; reflexivity.
Qed.

(** C7 (amended): [documents] holds one record for every matching row,
    so a type can occur several times in it; [pdfs] is keyed by the type
    and holds at most two entries, for judgment and notice; the entry of
    a type is present exactly when a document of that type was
    downloaded, it names the file of that type in the directory of the
    case, and that file holds the last download of the type that went
    through. *)
Theorem C7_pdfs_by_type_last_download_wins
    (w : world) (i c : string) (d0 : gset string) (f0 : gmap string buffer)
    (r : ScrapeResult) (s : state) :
  scrapeCase w i c d0 f0 = (Resolved r, s) ->
  size (pdfs r) <= 2 /\
  (forall k, is_Some (pdfs r !! k) -> k = "judgment" \/ k = "notice") /\
  (forall k, k = "judgment" \/ k = "notice" ->
     pdfs r !! k =
       match last_download w k 0 (documents r) with
       | Some _ => Some (target_file (caseDir r) k)
       | None => None
       end /\
     forall p, last_download w k 0 (documents r) = Some p ->
               files s !! target_file (caseDir r) k = Some (FromBase64 p)).
Proof.
  intros H. apply scrapeCase_downloads in H as [Hk Hdom].
  split; [|split; [exact Hdom | exact Hk]].
  assert (Hsub : dom (pdfs r) ⊆ ({["judgment"; "notice"]} : gset string)).
  { intros k Hin. apply elem_of_dom in Hin.
    destruct (Hdom k Hin) as [-> | ->]; set_solver. }
  rewrite <- size_dom. apply subseteq_size in Hsub.
  etransitivity; [exact Hsub|].
  rewrite size_union by set_solver. rewrite !size_singleton. lia.
Qed.

Lemma C7_witness :
  size (pdfs (final_result w_two_notices)) <= 2 /\
  files (final_state w_two_notices)
    !! target_file (caseDir (final_result w_two_notices)) "notice"
  = Some (FromBase64 "payload-1").
Proof.
  destruct (C7_pdfs_by_type_last_download_wins w_two_notices
              "606529/2023" "Suffolk" ∅ ∅
              (final_result w_two_notices) (final_state w_two_notices))
    as (Hsize & _ & Hk).
  - vm_compute. reflexivity.
  - split; [exact Hsize|].
    destruct (Hk "notice") as [_ Hf]; [now right|].
    apply Hf. vm_compute. reflexivity.
Defined.

(** ** C8: the parameters of a handler *)

(** C8, as stated, fails: a quote character inside a token is removed
    as well, where stripping the surrounding quotes would keep it. *)
Lemma C8_inner_quote_removed :
  navigation_params "openCaseDetailsWindow" handler_with_inner_quote
    = Some ["a"; "OBrien"] /\
  spec_navigation_params "openCaseDetailsWindow" handler_with_inner_quote
    = Some ["a"; "O'Brien"].
Proof. split; vm_compute; reflexivity. Qed.

(** C8 (amended): the parameters are the pieces of the argument list
    between commas, one more than there are commas, each trimmed and
    with every quote character removed, inside the token too; for a
    token without a quote inside this is the token with its surrounding
    quotes stripped; no token is validated. *)
Theorem C8_params_split_trim_unquote (args : string) :
  List.length (parse_params args) = S (count_char "," args) /\
  (forall n p, nth_error (split "," args) n = Some p ->
               nth_error (parse_params args) n =
               Some (remove_all is_quote (trim p))) /\
  Forall (fun t => no_quote t = true) (parse_params args) /\
  (forall p, no_quote (strip_quotes (trim p)) = true ->
             remove_all is_quote (trim p) = strip_quotes (trim p)).
Proof.
  unfold parse_params. repeat split.
  - rewrite List.length_map. apply split_length.
  - intros n p Hp. rewrite nth_error_map, Hp. reflexivity.
  - apply Forall_map, Forall_forall. intros p _. apply remove_all_clean.
  - intros p Hp. now apply remove_all_strip.
Qed.

Lemma C8_witness :
  nth_error (parse_params "'a', 'b' ,x") 1 = Some "b".
Proof.
  destruct (C8_params_split_trim_unquote "'a', 'b' ,x") as (_ & H & _).
  rewrite (H 1 " 'b' "); reflexivity.
Defined.

(** ** C9: the directory of the case *)




(** ** C10: more than one slash *)

(** C10, as stated, fails: an index number with two slashes and nothing
    after the first one gives a directory directly below the download
    directory, not a nested one. *)
Lemma C10_empty_pieces_stay_flat :
  1 < count_char "/" "1//" /\
  derived_dir "1//" = "/tmp/trex-pdfs/1-/" /\
  ~ nested (derived_dir "1//").
Proof.
  split; [vm_compute; lia|]. split; [vm_compute; reflexivity|].
  intros (a & b & rest & H). vm_compute in H. inversion H.
Qed.

(** C10 (amended): for an index number with more than one slash only
    the first one is replaced by a dash, in the directory of the case
    and in the agent identifier alike; the other slashes stay in the
    text given to the join of paths, and when the pieces after the
    second slash are ordinary names (not empty, not one or two dots) the
    directory of the case is the download directory, the first two
    pieces joined by the dash, and the other pieces below, a nested
    directory. *)
Theorem C10_only_first_separator_replaced
    (w : world) (i c s1 s2 s3 : string) (more : list string)
    (d0 : gset string) (f0 : gmap string buffer)
    (r : ScrapeResult) (s : state) :
  split "/" i = s1 :: s2 :: s3 :: more ->
  scrapeCase w i c d0 f0 = (Resolved r, s) ->
  replace "/" "-" i = s1 +:+ "-" +:+ s2 +:+ "/" +:+ join "/" (s3 :: more) /\
  agentId i = "scraper-" +:+ s1 +:+ "-" +:+ s2 +:+ "/" +:+ join "/" (s3 :: more) /\
  caseDir r = path_join DOWNLOAD_DIR (replace "/" "-" i) /\
  (Forall (fun p => plain p = true) (s3 :: more) ->
   caseDir r = DOWNLOAD_DIR +:+ "/" +:+ s1 +:+ "-" +:+ s2 +:+ "/"
               +:+ join "/" (s3 :: more) /\
   nested (caseDir r)).
Proof.
  intros Hsplit H.
  apply scrapeCase_directory in H as (Hdir & _ & _).
  pose proof (split_on_pieces_free (Ascii.eqb "/") i) as Hfree.
  fold (split "/" i) in Hfree. rewrite Hsplit in Hfree.
  inversion Hfree as [|? ? F1 Hfree2]; subst.
  inversion Hfree2 as [|? ? F2 _]; subst.
  assert (Hi : i = s1 +:+ "/" +:+ s2 +:+ "/" +:+ join "/" (s3 :: more)).
  { rewrite <- (join_split "/" i), Hsplit.
    rewrite (join_cons "/" s1) by easy. now rewrite (join_cons "/" s2) by easy. }
  assert (Hrep : replace "/" "-" i =
                 s1 +:+ "-" +:+ s2 +:+ "/" +:+ join "/" (s3 :: more)).
  { rewrite Hi at 1. now apply replace_first_sep. }
  split; [exact Hrep|]. split; [unfold agentId; now rewrite Hrep|].
  split; [exact Hdir|].
  intros Hplain.
  assert (Hsegs : Forall (fun p => plain p = true)
                         ((s1 +:+ "-" +:+ s2) :: s3 :: more)).
  { constructor; [|exact Hplain]. now apply plain_dash. }
  assert (Hjoin : s1 +:+ "-" +:+ s2 +:+ "/" +:+ join "/" (s3 :: more) =
                  join "/" ((s1 +:+ "-" +:+ s2) :: s3 :: more)).
  { rewrite (join_cons "/" (s1 +:+ "-" +:+ s2)) by easy.
    now rewrite !append_assoc. }
  assert (E : caseDir r = DOWNLOAD_DIR +:+ "/" +:+ s1 +:+ "-" +:+ s2 +:+ "/"
                          +:+ join "/" (s3 :: more)).
  { rewrite Hdir. unfold derived_dir. rewrite Hrep, Hjoin.
    now apply path_join_download_dir. }
  split; [exact E|].
  rewrite E, Hjoin. unfold nested.
  exists (s1 +:+ "-" +:+ s2), s3, more.
  now apply path_names_download_dir.
Qed.

Lemma C10_witness :
  replace "/" "-" "606529/2023/7" = "606529-2023/7" /\
  agentId "606529/2023/7" = "scraper-606529-2023/7".
Proof.
  destruct (C10_only_first_separator_replaced w_ok "606529/2023/7" "Suffolk"
              "606529" "2023" "7" [] ∅ ∅
              (result (snd (scrapeCase w_ok "606529/2023/7" "Suffolk" ∅ ∅)))
              (snd (scrapeCase w_ok "606529/2023/7" "Suffolk" ∅ ∅)))
    as (H1 & H2 & _).
  - reflexivity.
  - vm_compute. reflexivity.
  - split; [exact H1 | exact H2].
Defined.

(* ================================================================== *)
(** * Facts about the handlers, the labelled lines and the court
      selection *)
(* ================================================================== *)

Module HandlerFacts.
Import JsString Dom Parse Scraper Spec Handlers StringFacts.

Lemma search_here {A} (m : string -> option A) (s : string) (x : A) :
  m s = Some x -> search m s = Some x.
Proof. intros H. destruct s; simpl; now rewrite H. Qed.

(** The quantifier takes the whole run of characters of the class when
    the rest of the pattern accepts that. *)
Lemma plus_maximal {A} cls (k : string -> string -> option A)
    (m rest : string) (x : A) :
  m <> EmptyString -> all_chars cls m = true ->
  match rest with
  | String c _ => cls c = false
  | EmptyString => True
  end ->
  k m rest = Some x -> plus cls k (m +:+ rest) = Some x.
Proof.
  revert k. induction m as [|c m IH]; intros k Hne Hall Hrest Hk; [congruence|].
  simpl in Hall. apply andb_true_iff in Hall as [Hc Hall].
  simpl. rewrite Hc.
  destruct m as [|d m'].
  - simpl. destruct rest as [|e r]; simpl; [exact Hk|]. now rewrite Hrest.
  - rewrite (IH (fun m0 rest0 => k (String c m0) rest0)); auto; congruence.
Qed.

Lemma call_arguments_sound (fname h args : string) :
  call_arguments fname h = Some args -> handler_call fname h args.
Proof.
  unfold call_arguments. intros H.
  apply search_Some in H as (pre & t & -> & H).
  destruct (strip_prefix (fname +:+ "(") t) as [r|] eqn:E; [|discriminate].
  apply strip_prefix_Some in E as ->.
  apply plus_Some in H as (m & rest & -> & Hne & Hall & Hk).
  destruct rest as [|c post]; [discriminate|].
  destruct (is_char ")" c) eqn:Hc; [|discriminate]. injection Hk as ->.
  apply Ascii.eqb_eq in Hc as <-.
  exists pre, post. split; [|now split].
  now rewrite append_assoc.
Qed.

Lemma call_arguments_here (fname args post : string) :
  args <> EmptyString ->
  all_chars (fun c => negb (is_char ")" c)) args = true ->
  call_arguments fname (fname +:+ "(" +:+ args +:+ ")" +:+ post) = Some args.
Proof.
  intros Hne Hall. unfold call_arguments. apply search_here.
  rewrite <- append_assoc, strip_prefix_app.
  apply plus_maximal; [exact Hne | exact Hall | reflexivity | reflexivity].
Qed.

Lemma call_arguments_complete (fname h args : string) :
  handler_call fname h args -> is_Some (call_arguments fname h).
Proof.
  intros (pre & post & -> & Hne & Hall).
  destruct (search_found
    (fun t =>
       match strip_prefix (fname +:+ "(") t with
       | Some r =>
           plus (fun c => negb (is_char ")" c))
                (fun m rest =>
                   match rest with
                   | String c _ => if is_char ")" c then Some m else None
                   | EmptyString => None
                   end) r
       | None => None
       end) pre (fname +:+ "(" +:+ args +:+ ")" +:+ post) args) as [y Hy].
  - rewrite <- append_assoc, strip_prefix_app.
    apply plus_maximal; [exact Hne | exact Hall | reflexivity | reflexivity].
  - exists y. exact Hy.
Qed.

(** ** Splitting what was joined *)

Lemma split_join_sep (c : ascii) (pieces : list string) :
  pieces <> [] ->
  Forall (fun p => all_chars (fun x => negb (Ascii.eqb c x)) p = true) pieces ->
  split c (join (String c EmptyString) pieces) = pieces.
Proof.
  unfold split. induction pieces as [|x rest IH]; [congruence|].
  intros _ Hall. inversion Hall as [|? ? Hx Hrest]; subst.
  destruct rest as [|y rest].
  - simpl. now apply split_on_free.
  - change (join (String c EmptyString) (x :: y :: rest))
      with (x +:+ String c (join (String c EmptyString) (y :: rest))).
    rewrite split_on_app by apply Ascii.eqb_refl.
    rewrite (split_on_free _ x Hx), IH; [reflexivity | congruence | exact Hrest].
Qed.

Lemma strip_end_last cls (s : string) (c : ascii) :
  cls c = false ->
  strip_end cls (s +:+ String c EmptyString) = s +:+ String c EmptyString.
Proof.
  intros Hc. induction s as [|x s IH]; simpl.
  - now rewrite Hc.
  - simpl in IH. rewrite IH. now destruct s.
Qed.

Lemma remove_all_app cls (a b : string) :
  remove_all cls (a +:+ b) = remove_all cls a +:+ remove_all cls b.
Proof.
  induction a as [|x a IH]; simpl; [reflexivity|].
  destruct (cls x); simpl; now rewrite IH.
Qed.

Lemma clean_token_inv (t : string) :
  clean_token t = true ->
  all_chars (fun c => negb (is_quote c)) t = true /\
  all_chars (fun c => negb (Ascii.eqb "," c)) t = true /\
  all_chars (fun c => negb (is_char ")" c)) t = true.
Proof.
  unfold clean_token. intros H. repeat split.
  all: eapply all_chars_weaken; [|exact H]; cbv beta; intros c Hc.
  all: apply andb_true_iff in Hc as [[H1 H2]%andb_true_iff H3]; assumption.
Qed.

(** A quoted token survives the trimming; the removal of the quote
    characters gives the token back. *)
Lemma unquote_quote_token (t : string) :
  all_chars (fun c => negb (is_quote c)) t = true ->
  remove_all is_quote (trim (quote_token t)) = t.
Proof.
  intros Ht. unfold trim, strip, quote_token.
  change ("'" +:+ t +:+ "'") with (String "'" (t +:+ "'")).
  cbn [strip_start]. change (is_space "'") with false. cbv iota.
  change (String "'" (t +:+ "'")) with (String "'" t +:+ "'").
  rewrite strip_end_last by reflexivity.
  rewrite remove_all_app. cbn [remove_all]. change (is_quote "'") with true.
  cbv iota. rewrite remove_all_id by exact Ht.
  simpl. apply append_nil_r.
Qed.

Lemma parse_params_quoted (tokens : list string) :
  tokens <> [] -> forallb clean_token tokens = true ->
  parse_params (join "," (List.map quote_token tokens)) = tokens.
Proof.
  intros Hne Hall. unfold parse_params.
  assert (Hclean : Forall (fun t => clean_token t = true) tokens).
  { clear Hne. induction tokens as [|t ts IH]; [constructor|].
    cbn [forallb] in Hall. apply andb_true_iff in Hall as [Ht Hts].
    constructor; [exact Ht | exact (IH Hts)]. }
  rewrite split_join_sep.
  - clear Hne Hall. induction Hclean as [|t ts Ht _ IH]; [reflexivity|].
    cbn [List.map]. rewrite IH.
    now rewrite unquote_quote_token by apply (clean_token_inv t Ht).
  - destruct tokens; [congruence | discriminate].
  - clear Hne Hall. induction Hclean as [|t ts Ht _ IH]; constructor; [|exact IH].
    destruct (clean_token_inv t Ht) as (_ & Hcomma & _).
    unfold quote_token. rewrite !all_chars_app, Hcomma. reflexivity.
Qed.

Lemma joined_tokens_no_paren (tokens : list string) :
  forallb clean_token tokens = true ->
  all_chars (fun c => negb (is_char ")" c))
            (join "," (List.map quote_token tokens)) = true.
Proof.
  induction tokens as [|t ts IH]; [reflexivity|].
  cbn [forallb]. intros [Ht Hts]%andb_true_iff.
  destruct (clean_token_inv t Ht) as (_ & _ & Hp).
  assert (Hq : all_chars (fun c => negb (is_char ")" c)) (quote_token t) = true).
  { unfold quote_token. rewrite !all_chars_app, Hp. reflexivity. }
  destruct ts as [|u ts]; [exact Hq|].
  change (join "," (List.map quote_token (t :: u :: ts)))
    with (quote_token t +:+ "," +:+ join "," (List.map quote_token (u :: ts))).
  rewrite !all_chars_app, Hq, (IH Hts). reflexivity.
Qed.

Lemma joined_tokens_nonempty (tokens : list string) :
  tokens <> [] -> join "," (List.map quote_token tokens) <> EmptyString.
Proof.
  destruct tokens as [|t [|u ts]]; [congruence | |]; intros _; discriminate.
Qed.

(** ** Case-insensitive literals *)

Lemma strip_prefix_ci_app (label word r : string) :
  strip_prefix_ci label word = Some EmptyString ->
  strip_prefix_ci label (word +:+ r) = Some r.
Proof.
  revert word. induction label as [|a label IH]; intros word; simpl.
  - intros [= ->]. reflexivity.
  - destruct word as [|b word]; [discriminate|]. simpl.
    destruct (Ascii.eqb a (to_lower b)); [apply IH | discriminate].
Qed.

Lemma label_sep_not_s (c : ascii) :
  is_char ":" c || is_space c = true -> is_char "s" (to_lower c) = false.
Proof.
  destruct c as [[] [] [] [] [] [] [] []]; vm_compute; congruence.
Qed.

End HandlerFacts.

Module CourtFacts.
Import JsString Parse Court StringFacts.

Lemma includes_occurs (sub s : string) :
  includes sub s = true <-> occurs sub s.
Proof.
  unfold includes, occurs. split.
  - destruct (search (strip_prefix sub) s) as [r|] eqn:E; [|discriminate].
    intros _. apply search_Some in E as (pre & t & -> & Ht).
    apply strip_prefix_Some in Ht as ->. now exists pre, r.
  - intros (pre & post & ->).
    destruct (search_found (strip_prefix sub) pre (sub +:+ post) post) as [y Hy].
    + apply strip_prefix_app.
    + now rewrite Hy.
Qed.

Lemma toLowerCase_app (a b : string) :
  toLowerCase (a +:+ b) = toLowerCase a +:+ toLowerCase b.
Proof. induction a as [|x a IH]; simpl; [reflexivity | now rewrite IH]. Qed.

Lemma find_first {A} (f : A -> bool) (l : list A) (x : A) :
  List.find f l = Some x <->
  exists before after, l = before ++ x :: after /\ f x = true /\
                       Forall (fun y => f y = false) before.
Proof.
  split.
  - induction l as [|y l IH]; simpl; [discriminate|].
    destruct (f y) eqn:E.
    + intros [= ->]. exists [], l. now repeat split.
    + intros H. destruct (IH H) as (before & after & -> & Hx & Hb).
      exists (y :: before), after. repeat split; auto.
  - intros (before & after & -> & Hx & Hb).
    induction Hb as [|y before Hy _ IH]; simpl; [now rewrite Hx|].
    now rewrite Hy.
Qed.

(** A county written with a small letter outside the ASCII letters
    selects the option written with its capital. *)
Lemma accented_county_selects :
  countyValue_script (Some accented_courts) accented_county = Some "99".
Proof. vm_compute. reflexivity. Qed.

(** The code units whose lower case is another code unit. *)
Lemma lower_unit_changes (c : ascii) :
  lower_unit c <> c <->
  (65 <= nat_of_ascii c <= 90) \/
  (192 <= nat_of_ascii c <= 222 /\ nat_of_ascii c <> 215).
Proof.
  destruct c as [[] [] [] [] [] [] [] []]; vm_compute;
    split; first [ intros H; exfalso; apply H; reflexivity
                 | intros _; lia
                 | intros _; discriminate
                 | intros H; exfalso; lia ].
Qed.

(** A capital is 32 below its small letter. *)
Lemma lower_unit_capital (c : ascii) :
  lower_unit c <> c -> nat_of_ascii (lower_unit c) = nat_of_ascii c + 32.
Proof.
  destruct c as [[] [] [] [] [] [] [] []]; vm_compute; intros H;
    first [ reflexivity | exfalso; apply H; reflexivity ].
Qed.

End CourtFacts.

Module ContainmentFacts.
Import JsString NodePath Dom Parse Scraper Spec Trace StringFacts PathFacts.

Lemma normalize_segments_no_up (above : bool) (acc segs : list string) :
  Forall (fun s => s <> "..") segs ->
  normalize_segments above acc segs = rev acc ++ List.filter kept_name segs.
Proof.
  revert acc. induction segs as [|seg segs IH]; intros acc Hall.
  - simpl. now rewrite app_nil_r.
  - inversion Hall as [|? ? Hseg Hrest]; subst.
    cbn [normalize_segments List.filter]. unfold kept_name at 1.
    destruct (String.eqb seg EmptyString || String.eqb seg "."); cbn [negb].
    + now apply IH.
    + destruct (String.eqb_spec seg "..") as [E|_]; [congruence|].
      rewrite (IH (seg :: acc) Hrest). cbn [rev]. now rewrite <- app_assoc.
Qed.

Lemma Forall_filter_keep {A} (P : A -> Prop) (f : A -> bool) (l : list A) :
  Forall P l -> Forall P (List.filter f l).
Proof.
  induction 1 as [|x l Hx _ IH]; [constructor|]. cbn [List.filter].
  destruct (f x); [constructor|]; assumption.
Qed.

Lemma kept_name_inv (s : string) :
  kept_name s = true -> nonempty s = true.
Proof. destruct s; [discriminate | reflexivity]. Qed.

Lemma filter_nonempty_kept (segs : list string) :
  List.filter nonempty (List.filter kept_name segs) = List.filter kept_name segs.
Proof.
  induction segs as [|x xs IH]; [reflexivity|]. cbn [List.filter].
  destruct (kept_name x) eqn:E; [|exact IH].
  cbn [List.filter]. now rewrite (kept_name_inv x E), IH.
Qed.

(** The names of an absolute path made of names without separator, with
    or without a separator at its end. *)
Lemma path_names_absolute (segs : list string) (trailing : bool) :
  segs <> [] -> Forall (fun s => sep_free s = true) segs ->
  path_names ("/" +:+ join "/" segs +:+ (if trailing then "/" else EmptyString))
  = List.filter nonempty segs.
Proof.
  intros Hne Hall. unfold path_names.
  change ("/" +:+ join "/" segs +:+ (if trailing then "/" else EmptyString))
    with (String "/" (join "/" segs +:+ (if trailing then "/" else EmptyString))).
  unfold split. cbn [split_on]. rewrite Ascii.eqb_refl. cbn [List.filter nonempty].
  destruct trailing.
  - change "/" with (String "/" EmptyString).
    rewrite split_on_app by apply Ascii.eqb_refl.
    fold (split "/" (join "/" segs)). rewrite split_join by assumption.
    rewrite List.filter_app. cbn. now rewrite app_nil_r.
  - rewrite append_nil_r. fold (split "/" (join "/" segs)).
    now rewrite split_join by assumption.
Qed.

(** The names of the directory of a case, for an index number whose
    pieces are not [..]. *)
Lemma derived_dir_names (i : string) :
  Forall (fun s => s <> "..") (split "/" (replace "/" "-" i)) ->
  path_names (derived_dir i) =
  path_names DOWNLOAD_DIR ++
  List.filter kept_name (split "/" (replace "/" "-" i)).
Proof.
  unfold derived_dir. generalize (replace "/" "-" i). intros b Hall.
  destruct b as [|x b]; [vm_compute; reflexivity|].
  rewrite path_join_nonempty by discriminate.
  set (p := DOWNLOAD_DIR +:+ "/" +:+ String x b).
  assert (Hsplit : split "/" p =
                   EmptyString :: "tmp" :: "trex-pdfs" :: split "/" (String x b)).
  { unfold p, split.
    change (DOWNLOAD_DIR +:+ "/" +:+ String x b)
      with (DOWNLOAD_DIR +:+ String "/" (String x b)).
    now rewrite split_on_app by reflexivity. }
  assert (Hnorm : forall q, starts_with_sep q = true ->
            normalize q =
            match join "/" (normalize_segments false [] (split "/" q)) with
            | EmptyString => "/"
            | String c0 body =>
                "/" +:+ String c0 body +:+
                (if ends_with_sep q then "/" else EmptyString)
            end).
  { intros q Hq. unfold normalize. destruct q; [discriminate Hq|].
    rewrite Hq. cbn [negb]. now destruct (join "/" _). }
  rewrite (Hnorm p eq_refl), Hsplit, normalize_segments_no_up.
  2:{ repeat (constructor; [discriminate|]). exact Hall. }
  cbn [rev app].
  change (List.filter kept_name
            (EmptyString :: "tmp" :: "trex-pdfs" :: split "/" (String x b)))
    with ("tmp" :: "trex-pdfs" :: List.filter kept_name (split "/" (String x b))).
  set (K := List.filter kept_name (split "/" (String x b))).
  assert (HK : Forall (fun s => sep_free s = true) ("tmp" :: "trex-pdfs" :: K)).
  { repeat (constructor; [reflexivity|]). unfold K.
    apply Forall_filter_keep.
    exact (split_on_pieces_free (Ascii.eqb "/") (String x b)). }
  destruct (join "/" ("tmp" :: "trex-pdfs" :: K)) as [|c0 body] eqn:E.
  { destruct K; discriminate E. }
  rewrite <- E.
  change (path_names
            ("/" +:+ join "/" ("tmp" :: "trex-pdfs" :: K) +:+
             (if ends_with_sep p then "/" else EmptyString))
          = path_names DOWNLOAD_DIR ++ K).
  rewrite path_names_absolute by (assumption || discriminate).
  cbn [List.filter nonempty]. unfold K. now rewrite filter_nonempty_kept.
Qed.




End ContainmentFacts.

(* ================================================================== *)
(** * Runs with and without the connection pool *)
(* ================================================================== *)

Module SinkFacts.
Import JsString NodePath Dom Parse Scraper Spec Logic Trace.
Import StringFacts Rules RunFacts.

Lemma sim_refl (s : state) : sim s s.
Proof. now repeat split. Qed.

Lemma capability_calls_app (l1 l2 : list call) :
  capability_calls (l1 ++ l2) = capability_calls l1 ++ capability_calls l2.
Proof. apply List.filter_app. Qed.

Lemma sim_log (c : call) (s1 s2 : state) :
  sim s1 s2 -> sim (log c s1) (log c s2).
Proof.
  intros (? & ? & ? & ? & ? & Hc). repeat split; try assumption.
  cbn [calls log]. now rewrite !capability_calls_app, Hc.
Qed.

Lemma sim_log_when (b1 b2 : bool) (a st st' : string) (s1 s2 : state) :
  sim s1 s2 ->
  sim (log_when b1 (DashboardQuery a st st') s1)
      (log_when b2 (DashboardQuery a st st') s2).
Proof.
  intros (? & ? & ? & ? & ? & Hc). repeat split; try assumption.
  cbn [calls log_when]. rewrite !capability_calls_app, Hc.
  now destruct b1, b2.
Qed.

Lemma related_ret {A} (a : A) : related (ret a) (ret a).
Proof. intros s1 s2 H. now split. Qed.

Lemma related_throw {A} (e : string) : related (@throw A e) (throw e).
Proof. intros s1 s2 H. now split. Qed.

Lemma related_return {A} : related (@return_result A) return_result.
Proof. intros s1 s2 H. now split. Qed.

Lemma related_bind {A B} (m1 m2 : M A) (k1 k2 : A -> M B) :
  related m1 m2 -> (forall a, related (k1 a) (k2 a)) ->
  related (bind m1 k1) (bind m2 k2).
Proof.
  intros Hm Hk s1 s2 Hs. unfold bind. destruct (Hm s1 s2 Hs) as [E S].
  destruct (m1 s1) as [[a|e|] s1'], (m2 s2) as [[a'|e'|] s2'];
    cbn [fst snd] in E, S; try discriminate.
  - injection E as ->. now apply Hk.
  - injection E as ->. split; [reflexivity | exact S].
  - split; [reflexivity | exact S].
Qed.

Lemma related_catch_default {A} (m1 m2 : M A) (dflt : A) :
  related m1 m2 -> related (catch_default m1 dflt) (catch_default m2 dflt).
Proof.
  intros Hm s1 s2 Hs. unfold catch_default. destruct (Hm s1 s2 Hs) as [E S].
  destruct (m1 s1) as [[a|e|] s1'], (m2 s2) as [[a'|e'|] s2'];
    cbn [fst snd] in E, S; try discriminate;
    (split; [first [exact E | reflexivity] | exact S]).
Qed.

Lemma related_with_state {A} (f1 f2 : state -> M A) :
  (forall s1 s2, sim s1 s2 -> related (f1 s1) (f2 s2)) ->
  related (with_state f1) (with_state f2).
Proof. intros H s1 s2 Hs. unfold with_state. now apply H. Qed.

Lemma related_modify (f1 f2 : state -> state) :
  (forall s1 s2, sim s1 s2 -> sim (f1 s1) (f2 s2)) ->
  related (modify f1) (modify f2).
Proof. intros H s1 s2 Hs. split; [reflexivity | now apply H]. Qed.

Lemma related_assign (f : ScrapeResult -> ScrapeResult) :
  related (assign f) (assign f).
Proof.
  apply related_modify. intros s1 s2 (Hr & ? & ? & ? & ? & ?).
  repeat split; try assumption. cbn [result with_result]. now rewrite Hr.
Qed.

Lemma related_issue (c : call) : related (issue c) (issue c).
Proof. apply related_modify. intros s1 s2. apply sim_log. Qed.

Lemma related_settle (w : world) (b : bool) (p : site) :
  related (settle w p) (settle (with_pool b w) p).
Proof.
  unfold settle. cbn [with_pool fault].
  destruct (fault w p); [apply related_throw | apply related_ret].
Qed.

Lemma related_perform (w : world) (b : bool) (p : site) (c : call) :
  related (perform w p c) (perform (with_pool b w) p c).
Proof.
  unfold perform. apply related_bind; [apply related_issue|].
  intros _. apply related_settle.
Qed.

Lemma related_updateDashboard (w : world) (b : bool) (i step st : string) :
  related (updateDashboard w i step st)
          (updateDashboard (with_pool b w) i step st).
Proof.
  apply related_modify. intros s1 s2. apply sim_log_when.
Qed.

Lemma related_page (b : bool) : related (modify (with_page b)) (modify (with_page b)).
Proof.
  apply related_modify. intros s1 s2 (? & ? & ? & ? & ? & ?). now repeat split.
Qed.

Lemma related_downloaded (n : nat) :
  related (modify (with_downloaded n)) (modify (with_downloaded n)).
Proof.
  apply related_modify. intros s1 s2 (? & ? & ? & ? & ? & ?). now repeat split.
Qed.

Lemma related_file (p : string) (b : buffer) :
  related (modify (with_file p b)) (modify (with_file p b)).
Proof.
  apply related_modify. intros s1 s2 (? & ? & ? & ? & Hf & ?).
  repeat split; try assumption. cbn [files with_file]. now rewrite Hf.
Qed.

Lemma related_download (w : world) (b : bool) (i dir : string) (total n : nat)
    (doc : DocumentRecord) :
  related (download w i dir total n doc)
          (download (with_pool b w) i dir total n doc).
Proof.
  unfold download. cbn [with_pool fetched].
  apply related_catch_default.
  apply related_bind; [apply related_perform | intros _].
  apply related_bind; [apply related_perform | intros _].
  apply related_bind; [apply related_file | intros _].
  apply related_bind; [apply related_assign | intros _].
  apply related_bind.
  - apply related_modify. intros s1 s2 (? & ? & Hd & ? & ? & ?).
    repeat split; try assumption. cbn [downloaded with_downloaded]. now rewrite Hd.
  - intros _. apply related_with_state. intros s1 s2 (_ & _ & Hd & _).
    rewrite Hd. apply related_updateDashboard.
Qed.

Lemma related_download_all (w : world) (b : bool) (i dir : string) (total : nat)
    (docs : list DocumentRecord) (n : nat) :
  related (download_all w i dir total n docs)
          (download_all (with_pool b w) i dir total n docs).
Proof.
  revert n. induction docs as [|doc docs IH]; intros n; cbn [download_all].
  - apply related_ret.
  - apply related_bind; [apply related_download | intros _; apply IH].
Qed.

Ltac related_step :=
  lazymatch goal with
  | |- related (bind _ _) (bind _ _) =>
      apply related_bind; [|intros ?; cbv beta]
  | |- related (ret _) (ret _) => apply related_ret
  | |- related (throw _) (throw _) => apply related_throw
  | |- related return_result return_result => apply related_return
  | |- related (perform _ _ _) (perform _ _ _) => apply related_perform
  | |- related (settle _ _) (settle _ _) => apply related_settle
  | |- related (issue _) (issue _) => apply related_issue
  | |- related (assign _) (assign _) => apply related_assign
  | |- related (updateDashboard _ _ _ _) (updateDashboard _ _ _ _) =>
      apply related_updateDashboard
  | |- related (modify (with_page _)) (modify (with_page _)) =>
      apply related_page
  | |- related (modify (with_downloaded _)) (modify (with_downloaded _)) =>
      apply related_downloaded
  | |- related (catch_default _ _) (catch_default _ _) =>
      apply related_catch_default
  | |- related (download_all _ _ _ _ _ _) (download_all _ _ _ _ _ _) =>
      apply related_download_all
  | |- related (with_state _) (with_state _) =>
      let Hr := fresh "Hr" in let Hp := fresh "Hp" in
      apply related_with_state; intros ? ? (Hr & Hp & _);
      rewrite ?Hr, ?Hp
  | |- related (match ?x with _ => _ end) (match ?x with _ => _ end) =>
      destruct x
  | |- related (if ?x then _ else _) (if ?x then _ else _) =>
      destruct x
  end.

Lemma related_try_block (w : world) (b : bool) (i c dir : string) :
  related (try_block w i c dir) (try_block (with_pool b w) i c dir).
Proof.
  unfold try_block, case_stage, documents_stage, fetch_stage.
  cbn [with_pool countyValue result_page case_page case_text docs_page].
  repeat related_step.
Qed.

Lemma related_catch_clause (w : world) (b : bool) (i msg : string) :
  related (catch_clause w i msg) (catch_clause (with_pool b w) i msg).
Proof. unfold catch_clause. repeat related_step. Qed.

Lemma related_finally_clause : related finally_clause finally_clause.
Proof. unfold finally_clause. repeat related_step. Qed.

Lemma related_try_statement (w : world) (b : bool) (i c dir : string) :
  related (try_statement w i c dir) (try_statement (with_pool b w) i c dir).
Proof.
  intros s1 s2 Hs. unfold try_statement.
  destruct (related_try_block w b i c dir s1 s2 Hs) as [E S].
  destruct (try_block w i c dir s1) as [[[]|e|] s1'],
           (try_block (with_pool b w) i c dir s2) as [[[]|e'|] s2'];
    cbn [fst snd] in E, S; try discriminate.
  - now apply related_finally_clause.
  - injection E as <-. apply related_finally_clause.
    now apply related_catch_clause.
  - now apply related_finally_clause.
Qed.

(** Whether there is a pool or not, the run ends the same way, with the
    same result, directories and files, and with the same calls but for
    the queries to the dashboard. *)
Lemma scrapeCase_pool (w : world) (b : bool) (i c : string)
    (d0 : gset string) (f0 : gmap string buffer) :
  fst (scrapeCase (with_pool b w) i c d0 f0) = fst (scrapeCase w i c d0 f0) /\
  sim (snd (scrapeCase (with_pool b w) i c d0 f0)) (snd (scrapeCase w i c d0 f0)).
Proof.
  unfold scrapeCase. cbn [with_pool fault].
  destruct (fault w AtMkdir) as [msg|]; cbn [fst snd].
  - split; [reflexivity | apply sim_refl].
  - destruct (related_try_statement w b i c
                (path_join DOWNLOAD_DIR (replace "/" "-" i))
                (entry_state i c d0 f0) (entry_state i c d0 f0)
                (sim_refl _)) as [_ S].
    destruct S as (Hr & Hp & Hd & Hdirs & Hfiles & Hcalls).
    split; [now rewrite Hr | now repeat split].
Qed.

End SinkFacts.

(* ================================================================== *)
(** * The calls of a run *)
(* ================================================================== *)

Module TraceFacts.
Import JsString NodePath Dom Parse Scraper Spec Logic Trace.
Import StringFacts Rules RunFacts.

#[local] Arguments mkdir_recursive : simpl never.

Lemma loop_call_ok_permitted (w : world) (i c dir : string) (x : call) :
  loop_call_ok w i dir x -> permitted w i c dir x.
Proof.
  destruct x; cbn; tauto.
Qed.

Lemma loop_calls_permitted (w : world) (i c dir : string) (l : list call) :
  Forall (loop_call_ok w i dir) l -> Forall (permitted w i c dir) l.
Proof.
  intros H. eapply Forall_impl; [exact H|].
  intros x. apply loop_call_ok_permitted.
Qed.

Lemma loop_calls_statuses (w : world) (i dir : string) (l : list call) :
  Forall (loop_call_ok w i dir) l ->
  Forall (fun st => st = "searching") (dashboard_statuses l).
Proof.
  unfold dashboard_statuses. induction 1 as [|x l Hx _ IH]; [constructor|].
  destruct x; cbn [omap list_omap]; try exact IH; try (now destruct Hx).
  constructor; [now destruct Hx as (_ & _ & ->) | exact IH].
Qed.

Lemma navigations_loop_calls (l : list call) :
  forallb is_loop_call l = true -> navigations l = [].
Proof.
  unfold navigations. induction l as [|x l IH]; [reflexivity|].
  cbn [forallb]. intros [Hx Hl]%andb_true_iff.
  destruct x; try discriminate Hx; cbn [omap list_omap]; now apply IH.
Qed.

Lemma download_trace (w : world) (i dir : string) (total n : nat)
    (doc : DocumentRecord) (s : state) :
  exists s' l,
    download w i dir total n doc s = (Normal tt, s') /\
    calls s' = calls s ++ l /\
    Forall (loop_call_ok w i dir) l /\
    fetches l = [url doc] /\
    (forall p, p <> target_file dir "judgment" -> p <> target_file dir "notice" ->
               files s' !! p = files s !! p) /\
    indexNumber (result s') = indexNumber (result s) /\
    county (result s') = county (result s) /\
    hcaptchaSitekey (result s') = hcaptchaSitekey (result s).
Proof.
  assert (Hfile :
    path_join dir (if String.eqb (type doc) "judgment"
                   then "judgment.pdf" else "notice.pdf")
      = target_file dir "judgment" \/
    path_join dir (if String.eqb (type doc) "judgment"
                   then "judgment.pdf" else "notice.pdf")
      = target_file dir "notice").
  { destruct (String.eqb (type doc) "judgment"); [left | right]; reflexivity. }
  unfold download.
  remember (path_join dir (if String.eqb (type doc) "judgment"
                           then "judgment.pdf" else "notice.pdf")) as path.
  clear Heqpath.
  unfold catch_default, perform, bind, issue, settle, modify, assign,
    with_state, updateDashboard, throw, ret.
  assert (Hcalls : forall b,
            Forall (loop_call_ok w i dir)
              ([EvaluateFetch (url doc)] ++ [WriteFileSync path] ++
               (if b && pool w
                then [DashboardQuery (agentId i)
                        ("Getting PDFs (" +:+ dec (S (downloaded s)) +:+ "/" +:+
                         dec total +:+ ")...") "searching"]
                else []))).
  { intros b. apply Forall_cons_2; [exact I|]. apply Forall_cons_2; [exact Hfile|].
    destruct b; [|constructor]. destruct (pool w) eqn:Hpool; [|constructor].
    apply Forall_cons_2; [|constructor]. now repeat split. }
  destruct (fault w (AtFetch n)); simpl.
  { eexists; eexists; split; [reflexivity|]. split; [reflexivity|].
    split; [|now repeat split]. apply Forall_cons_2; [exact I | constructor]. }
  destruct (fault w (AtWrite n)); simpl.
  { eexists; eexists; split; [reflexivity|].
    split; [simpl; repeat rewrite <- app_assoc; reflexivity|].
    split; [exact (Hcalls false) | now repeat split]. }
  eexists; eexists; split; [reflexivity|].
  split; [simpl; repeat rewrite <- app_assoc; reflexivity|].
  split; [exact (Hcalls true)|].
  split; [now destruct (pool w)|]. split; [|now repeat split].
  intros p Hj Hn. simpl. apply lookup_insert_ne.
  destruct Hfile as [-> | ->]; congruence.
Qed.

Lemma download_all_trace (w : world) (i dir : string) (total : nat)
    (docs : list DocumentRecord) (n : nat) (s : state) :
  exists s' l,
    download_all w i dir total n docs s = (Normal tt, s') /\
    calls s' = calls s ++ l /\
    Forall (loop_call_ok w i dir) l /\
    fetches l = List.map url docs /\
    (forall p, p <> target_file dir "judgment" -> p <> target_file dir "notice" ->
               files s' !! p = files s !! p) /\
    indexNumber (result s') = indexNumber (result s) /\
    county (result s') = county (result s) /\
    hcaptchaSitekey (result s') = hcaptchaSitekey (result s).
Proof.
  revert n s. induction docs as [|doc docs IH]; intros n s; cbn [download_all].
  - exists s, []. split; [reflexivity|]. split; [now rewrite app_nil_r|].
    split; [constructor | now repeat split].
  - unfold bind.
    destruct (download_trace w i dir total n doc s)
      as (s1 & l1 & -> & C1 & A1 & U1 & F1 & I1 & K1 & S1).
    destruct (IH (S n) s1)
      as (s2 & l2 & -> & C2 & A2 & U2 & F2 & I2 & K2 & S2).
    exists s2, (l1 ++ l2). split; [reflexivity|].
    split; [now rewrite C2, C1, app_assoc|].
    split; [now apply Forall_app|].
    split; [unfold fetches in *; now rewrite omap_app, U1, U2|].
    split; [|repeat split; congruence].
    intros p Hj Hn. now rewrite F2, F1.
Qed.

Lemma wp_download_all_trace (w : world) (i dir : string) (total n : nat)
    (docs : list DocumentRecord) Qn Qt Qr (s : state) :
  (forall s', loop_frame s s' ->
              (Forall typed docs -> loop_downloads w dir n docs s s') ->
              loop_trace w i dir docs s s' ->
              Qn tt s') ->
  wp (download_all w i dir total n docs) Qn Qt Qr s.
Proof.
  intros H. unfold wp.
  destruct (download_all_frame w i dir total docs n s) as (s' & E & Hf).
  destruct (download_all_trace w i dir total docs n s)
    as (s'' & l & E' & C & A & U & F & R).
  rewrite E in E'. injection E' as <-.
  rewrite E. apply H; [exact Hf | | ].
  - intros Hall. now apply (download_all_downloads w i dir total docs n s s').
  - split; [|split; [exact F | exact R]].
    intros l0 Hl0. rewrite C in Hl0. apply app_inv_head in Hl0.
    subst l0. now split.
Qed.

Ltac wp_step_trace :=
  lazymatch goal with
  | |- wp (download_all _ _ _ _ _ _) _ _ _ _ =>
      apply wp_download_all_trace; intros ? ? ? ?; cbv beta zeta
  | _ => wp_step
  end.

(** The facts of the frame and of the trace of the download loop. *)
Ltac frame_trace_facts :=
  lazymatch goal with
  | H : loop_frame ?s ?s', T : loop_trace _ _ _ _ ?s ?s' |- _ =>
      let Fl := fresh "Fl" in
      let Fc := fresh "Fc" in
      let Tc := fresh "Tc" in
      let Tu := fresh "Tu" in
      let Tf := fresh "Tf" in
      destruct T as (Tc & Tf & ? & ? & ?);
      destruct H as [? ? ? ? ? ? ? ? [Fl [Fc ?]]];
      destruct (Tc Fl Fc) as [Tc' Tu]; clear Tc; unfold fetches in Tu;
      cbn in Tf;
      repeat match goal with
             | F : _ (result _) = _ |- _ => progress cbn in F
             | F : page _ = _ |- _ => progress cbn in F
             | F : dirs _ = _ |- _ => progress cbn in F
             | F : calls _ = _ |- _ => progress cbn in F
             end
  | _ => idtac
  end.

Ltac rewrite_trace :=
  repeat match goal with
         | F : indexNumber (result ?s) = _ |- context [indexNumber (result ?s)] =>
             rewrite F
         | F : county (result ?s) = _ |- context [county (result ?s)] =>
             rewrite F
         | F : hcaptchaSitekey (result ?s) = _
           |- context [hcaptchaSitekey (result ?s)] => rewrite F
         end.

Ltac run_cases_trace :=
  unfold try_block; repeat wp_step_trace; frame_trace_facts; unfold_settled.

(** A property of the state of every run. *)
Lemma scrapeCase_state (w : world) (i c : string) (d0 : gset string)
    (f0 : gmap string buffer) (Q : state -> Prop) :
  (forall msg, fault w AtMkdir = Some msg -> Q (rejected_state i c d0 f0)) ->
  (fault w AtMkdir = None ->
   wp (try_block w i c (derived_dir i))
      (fun _ s' => Q (settled w i (Normal tt) s'))
      (fun e s' => Q (settled w i (Throw e) s'))
      (fun s' => Q (settled w i Return s'))
      (entry_state i c d0 f0)) ->
  Q (snd (scrapeCase w i c d0 f0)).
Proof.
  intros Hrej Hres. destruct (fault w AtMkdir) as [msg|] eqn:Hm.
  - unfold scrapeCase. rewrite Hm. apply (Hrej msg eq_refl).
  - rewrite (scrapeCase_resolved w i c d0 f0 Hm). cbv zeta. cbn [snd].
    apply settled_wp. now apply Hres.
Qed.

Lemma court_site_search : exists rest, SEARCH_URL = COURT_SITE +:+ rest.
Proof. now exists "FCASSearch". Qed.

Lemma court_site_case (params : list string) :
  exists rest, caseUrl params = COURT_SITE +:+ rest.
Proof. eexists. unfold caseUrl, COURT_SITE. simpl. reflexivity. Qed.

Lemma court_site_efiled (params : list string) :
  exists rest, efiledUrl params = COURT_SITE +:+ rest.
Proof. eexists. unfold efiledUrl, COURT_SITE. simpl. reflexivity. Qed.

End TraceFacts.

(* ================================================================== *)
(** * Properties of every run *)
(* ================================================================== *)

Module RunProperties.
Import JsString NodePath Dom Parse Scraper Spec Logic Trace.
Import StringFacts Rules RunFacts SinkFacts TraceFacts.

#[local] Arguments mkdir_recursive : simpl never.
#[local] Arguments caseUrl : simpl never.
#[local] Arguments efiledUrl : simpl never.
#[local] Arguments SEARCH_URL : simpl never.
#[local] Arguments CDP_URL : simpl never.
#[local] Arguments agentId : simpl never.
#[local] Arguments dec : simpl never.
#[local] Arguments court_select_text : simpl never.
#[local] Arguments captcha_selector_text : simpl never.
#[local] Arguments case_link_selector_text : simpl never.
#[local] Arguments efiled_selector_text : simpl never.
#[local] Arguments no_element_error : simpl never.
#[local] Arguments target_file : simpl never.
#[local] Arguments parse_params : simpl never.
#[local] Arguments labelled_line : simpl never.
#[local] Arguments trim : simpl never.
#[local] Arguments trace_ok : simpl never.
#[local] Arguments closes_ok : simpl never.
#[local] Arguments status_ok : simpl never.
#[local] Arguments planned_navigations : simpl never.
#[local] Arguments permitted : simpl never.
#[local] Arguments result_ok : simpl never.

Ltac permitted_call :=
  first
    [ exact I
    | reflexivity
    | apply court_site_search
    | apply court_site_case
    | apply court_site_efiled
    | repeat split;
      first [ assumption | reflexivity | discriminate
            | left; reflexivity | right; reflexivity ] ].

Ltac permitted_calls :=
  repeat first
    [ apply Forall_nil_2
    | apply Forall_cons_2; [unfold permitted; permitted_call |]
    | apply Forall_app_2
    | apply loop_calls_permitted; assumption ].

(** What the run knows of the environment, put into the goal. *)
Ltac rewrite_known :=
  repeat match goal with
         | H : querySelector _ _ = _ |- _ => rewrite H
         | H : getAttribute _ _ = _ |- _ => rewrite H
         | H : call_arguments _ _ = _ |- _ => rewrite H
         | H : fault _ AtEvalEfiled = _ |- _ => rewrite H
         | H : ?x = String _ _ |- _ => is_var x; rewrite H
         end.

Lemma last_loop_status (l : list string) :
  Forall (fun st => st = "searching") l ->
  last l = None \/ last l = Some "searching".
Proof.
  intros H. destruct (last l) as [y|] eqn:E; [right | now left].
  apply last_Some in E as [l' ->]. apply Forall_app in H as [_ H].
  inversion H; subst. reflexivity.
Qed.

Ltac loop_calls_away :=
  try match goal with
      | H : forallb is_loop_call ?l = true,
        T : Forall (loop_call_ok _ _ _) ?l |- _ =>
          let Hn := fresh "Hn" in
          let Hz := fresh "Hz" in
          let Hs := fresh "Hs" in
          pose proof (navigations_loop_calls l H) as Hn;
          pose proof (closes_loop_calls l H) as Hz;
          pose proof (last_loop_status _ (loop_calls_statuses _ _ _ l T)) as Hs;
          unfold navigations in Hn; unfold closes in Hz;
          unfold dashboard_statuses in Hs
      end.

Ltac navigation_prefix :=
  unfold navigations, planned_navigations, case_params, efiled_params,
    case_handler, efiledOnclick, navigation_params;
  rewrite ?omap_app; cbn;
  try match goal with Hn : omap _ _ = [] |- _ => rewrite Hn end;
  rewrite_known; cbn; eexists; reflexivity.

Ltac close_count :=
  unfold closes_ok, page_acquired, closes;
  rewrite ?List.filter_app, ?List.length_app; cbn;
  try match goal with Hz : length (List.filter is_close _) = 0 |- _ => rewrite Hz end;
  cbn;
  let Hnot := fresh "Hnot" in
  (split; [intros (? & ? & ?) | split; [intros Hnot | intros (? & ? & ?) ?]]);
  first [ congruence | lia | reflexivity
        | exfalso; apply Hnot; repeat split; assumption ].

Ltac last_status :=
  let Hp := fresh "Hp" in
  intros Hp; first [ congruence | idtac ];
  unfold status_ok, dashboard_statuses;
  rewrite ?omap_app; cbn;
  repeat first [rewrite last_app | rewrite last_cons | rewrite app_nil_r]; cbn;
  try match goal with
      | Hs : last (omap _ _) = None \/ _ |- _ =>
          destruct Hs as [Hs | Hs]; rewrite Hs; cbn
      end;
  (split; [ first [discriminate | intros _; eexists; reflexivity]
          | first [ intros _; reflexivity | intros [? ?]; discriminate ] ]).

(** The calls, the files, the pages visited, the closing of the tab and
    the dashboard, for every run. *)
Lemma scrapeCase_trace (w : world) (i c : string) (d0 : gset string)
    (f0 : gmap string buffer) :
  trace_ok w i c (derived_dir i) f0 (snd (scrapeCase w i c d0 f0)).
Proof.
  apply (scrapeCase_state w i c d0 f0 (trace_ok w i c (derived_dir i) f0)).
  - intros msg Hm. split; [|split; [reflexivity|split; [|split; [|split]]]].
    + apply Forall_cons_2; [reflexivity | constructor].
    + now exists (planned_navigations w).
    + unfold closes_ok, page_acquired. cbn.
      split; [|split];
        [ intros (H & _); congruence | intros _; reflexivity
        | intros (H & _); congruence ].
    + intros _. unfold status_ok. cbn. split; [discriminate|].
      intros [? ?]; discriminate.
    + reflexivity.
  - intros Hm. rewrite entry_state_eq. generalize (derived_dir i). intros dir.
    (destruct (pool w) eqn:Hpool;
      destruct (countyValue w) as [[|a v]|] eqn:Hcv;
      unfold try_block; repeat wp_step_trace).
    all: frame_trace_facts.
    all: unfold_settled.
    all: rewrite ?Hpool; cbn.
    all: unfold trace_ok; cbn; rewrite_frame; rewrite ?Hpool; cbn.
    all: loop_calls_away.
    all: (split; [permitted_calls | split; [first [assumption | intros; reflexivity]|]]).
    all: (split; [navigation_prefix|]).
    all: (split; [close_count|]).
    all: (split; [last_status|]).
    all: unfold fetches; rewrite ?omap_app; cbn.
    all: try match goal with
             | Tu : omap _ _ = List.map url _ |- _ => rewrite Tu
             end.
    all: rewrite ?app_nil_r; reflexivity.
Qed.

Ltac fields :=
  repeat match goal with
         | |- _ /\ _ => split
         | |- _ <-> _ => split
         | |- _ -> _ => intros ?
         | H : is_Some None |- _ => destruct H; discriminate
         | |- is_Some (Some _) => eexists; reflexivity
         end;
  try congruence;
  first [ reflexivity
        | left; reflexivity
        | right; first [reflexivity | split; [congruence | reflexivity]] ].

(** The fields of the result, for every run. *)
Lemma scrapeCase_result_ok (w : world) (i c : string) (d0 : gset string)
    (f0 : gmap string buffer) :
  result_ok w i c (derived_dir i) (result (snd (scrapeCase w i c d0 f0))).
Proof.
  apply (scrapeCase_state w i c d0 f0
           (fun s => result_ok w i c (derived_dir i) (result s))).
  - intros msg Hm. unfold rejected_state. generalize (derived_dir i). intros dir.
    unfold result_ok. cbn. rewrite Hm. fields.
  - intros Hm. rewrite entry_state_eq. generalize (derived_dir i). intros dir.
    run_cases_trace.
    all: unfold result_ok, case_info_of; cbn; rewrite_frame; rewrite_trace; cbn.
    all: fields.
Qed.

End RunProperties.

(* ================================================================== *)
(** * Runs by the stage they end in *)
(* ================================================================== *)

Module StageFacts.
Import JsString NodePath Dom Parse Scraper Spec Logic Trace.
Import StringFacts Rules RunFacts SinkFacts TraceFacts RunProperties.

#[local] Arguments mkdir_recursive : simpl never.
#[local] Arguments caseUrl : simpl never.
#[local] Arguments efiledUrl : simpl never.
#[local] Arguments SEARCH_URL : simpl never.
#[local] Arguments CDP_URL : simpl never.
#[local] Arguments agentId : simpl never.
#[local] Arguments dec : simpl never.
#[local] Arguments court_select_text : simpl never.
#[local] Arguments captcha_selector_text : simpl never.
#[local] Arguments case_link_selector_text : simpl never.
#[local] Arguments efiled_selector_text : simpl never.
#[local] Arguments no_element_error : simpl never.
#[local] Arguments null_index_error : simpl never.
#[local] Arguments target_file : simpl never.
#[local] Arguments parse_params : simpl never.
#[local] Arguments labelled_line : simpl never.
#[local] Arguments trim : simpl never.

Lemma wp_perform_ok (w : world) (p : site) (c : call) Qn Qt Qr (s : state) :
  fault w p = None -> Qn tt (log c s) -> wp (perform w p c) Qn Qt Qr s.
Proof. intros Hp Hn. apply wp_perform; [auto | intros e He; congruence]. Qed.

Lemma wp_settle_ok (w : world) (p : site) Qn Qt Qr (s : state) :
  fault w p = None -> Qn tt s -> wp (settle w p) Qn Qt Qr s.
Proof. intros Hp Hn. apply wp_settle; [auto | intros e He; congruence]. Qed.

Lemma wp_perform_fails (w : world) (p : site) (c : call) (e : string)
    Qn Qt Qr (s : state) :
  fault w p = Some e -> Qt e (log c s) -> wp (perform w p c) Qn Qt Qr s.
Proof.
  intros Hp Hn. apply wp_perform; [congruence | intros e' He; congruence].
Qed.

(** Symbolic execution that follows what is known of the faults. *)
Ltac wp_step_known :=
  lazymatch goal with
  | |- wp (perform _ _ _) _ _ _ _ =>
      first [ apply wp_perform_ok; [assumption|]
            | eapply wp_perform_fails; [eassumption|]
            | apply wp_perform; [intros ? | intros ? ?] ]
  | |- wp (settle _ _) _ _ _ _ =>
      first [ apply wp_settle_ok; [assumption|]
            | apply wp_settle; [intros ? | intros ? ?] ]
  | _ => wp_step_trace
  end; cbv beta zeta.

Ltac run_known :=
  unfold try_block; repeat wp_step_known; frame_trace_facts; unfold_settled.

Lemma scrapeCase_returns (w : world) (i c : string) (d0 : gset string)
    (f0 : gmap string buffer) (Q : state -> Prop) :
  fault w AtMkdir = None ->
  wp (try_block w i c (derived_dir i))
     (fun _ s' => Q (settled w i (Normal tt) s'))
     (fun e s' => Q (settled w i (Throw e) s'))
     (fun s' => Q (settled w i Return s'))
     (entry_state i c d0 f0) ->
  exists s, scrapeCase w i c d0 f0 = (Resolved (result s), s) /\ Q s.
Proof.
  intros Hm H. apply settled_wp in H.
  eexists. split; [apply (scrapeCase_resolved w i c d0 f0 Hm) | exact H].
Qed.

(** ** Which downloads go through *)

Lemma last_download_succeeds (w : world) (k : string)
    (docs : list DocumentRecord) (i : nat) :
  is_Some (last_download w k i docs) <->
  exists n d, nth_error docs n = Some d /\ type d = k /\
              download_succeeds w (i + n).
Proof.
  revert i. induction docs as [|d docs IH]; intros i; cbn [last_download].
  - split; [intros [? ?]; discriminate|].
    intros (n & d & H & _). destruct n; discriminate.
  - split.
    + destruct (last_download w k (S i) docs) as [p|] eqn:E.
      * intros _. destruct (proj1 (IH (S i))) as (n & d' & Hn & Hty & Hok).
        { rewrite E. eauto. }
        exists (S n), d'. rewrite Nat.add_succ_r.
        split; [exact Hn | split; [exact Hty | exact Hok]].
      * destruct (String.eqb_spec (type d) k) as [Hty|]; [|intros [? ?]; discriminate].
        unfold download_succeeds.
        destruct (fault w (AtFetch i)) eqn:Hf, (fault w (AtWrite i)) eqn:Hw;
          cbn [is_none andb]; try (intros [? ?]; discriminate).
        intros _. exists 0, d. rewrite Nat.add_0_r.
        split; [reflexivity | split; [exact Hty | now split]].
    + intros (n & d' & Hn & Hty & Hok).
      destruct n as [|n].
      * cbn in Hn. injection Hn as <-. rewrite Nat.add_0_r in Hok.
        destruct (last_download w k (S i) docs); [eauto|].
        destruct Hok as [-> ->]. rewrite <- Hty, String.eqb_refl. cbn. eauto.
      * cbn in Hn. destruct (proj2 (IH (S i))) as [p Hp].
        { exists n, d'. rewrite Nat.add_succ_r in Hok.
          split; [exact Hn | split; [exact Hty | exact Hok]]. }
        rewrite Hp. eauto.
Qed.

(** The entries of [pdfs] after the loop: there is one exactly when some
    download went through. *)
Lemma downloads_size (w : world) (docs : list DocumentRecord)
    (pdfs : gmap string string) (f : string -> string) :
  Forall typed docs ->
  (forall k, k = "judgment" \/ k = "notice" ->
     pdfs !! k = match last_download w k 0 docs with
                 | Some _ => Some (f k)
                 | None => None
                 end) ->
  (forall k, is_Some (pdfs !! k) -> k = "judgment" \/ k = "notice") ->
  (0 < size pdfs <->
   exists n d, nth_error docs n = Some d /\ download_succeeds w n).
Proof.
  intros Hty Hk Hdom. split.
  - intros Hsize.
    destruct (map_choose pdfs) as (k & x & Hx).
    { intros ->. rewrite map_size_empty in Hsize. lia. }
    pose proof (Hdom k (ex_intro _ x Hx)) as Hkind.
    rewrite (Hk k Hkind) in Hx.
    destruct (last_download w k 0 docs) as [p|] eqn:E; [|discriminate].
    destruct (proj1 (last_download_succeeds w k docs 0)) as (n & d & Hn & _ & Hok).
    { rewrite E. eauto. }
    now exists n, d.
  - intros (n & d & Hn & Hok).
    assert (Hd : typed d).
    { rewrite Forall_forall in Hty. apply Hty.
      apply list_elem_of_In. eapply nth_error_In; eauto. }
    destruct (proj2 (last_download_succeeds w (type d) docs 0)) as [p Hp].
    { now exists n, d. }
    pose proof (Hk (type d) Hd) as Hl. rewrite Hp in Hl.
    destruct (size pdfs) eqn:Hs; [|lia].
    apply map_size_empty_iff in Hs. rewrite Hs, lookup_empty in Hl. discriminate.
Qed.

(** [success] against the downloads, on every run that returns. *)
Lemma success_by_downloads (w : world) (i c : string) (d0 : gset string)
    (f0 : gmap string buffer) (r : ScrapeResult) (s : state) :
  scrapeCase w i c d0 f0 = (Resolved r, s) ->
  (success r = true <->
   error r = None /\
   exists n d, nth_error (documents r) n = Some d /\ download_succeeds w n).
Proof.
  intros E.
  pose proof (scrapeCase_success w i c d0 f0 r s E) as Hs.
  destruct (scrapeCase_downloads w i c d0 f0 r s E) as [Hk Hdom].
  assert (Hty : Forall typed (documents r)).
  { destruct (scrapeCase_documents w i c d0 f0 r s E) as [-> | ->];
      [constructor | apply scan_documents_typed]. }
  pose proof (downloads_size w (documents r) (pdfs r) (target_file (caseDir r))
                Hty (fun k Hkind => proj1 (Hk k Hkind)) Hdom) as Hsize.
  rewrite Hs, Hsize. tauto.
Qed.

(** ** What the stages leave in the environment *)

Lemma no_challenge_inv (w : world) :
  no_challenge w ->
  (fault w AtMkdir = None /\ fault w AtConnect = None /\
   fault w AtNewPage = None /\ fault w AtGotoSearch = None /\
   fault w AtWaitIndex = None /\ fault w AtType = None /\
   fault w AtEvalCounty = None /\
   match countyValue w with
   | Some (String _ _) => fault w AtSelect = None
   | _ => True
   end /\
   fault w AtClick = None /\ fault w AtQueryCaptcha = None) /\
  querySelector captcha_selector (result_page w) = None /\
  fault w AtQueryCase = None.
Proof. exact id. Qed.

Lemma navigation_params_inv (fname h : string) (params : list string) :
  navigation_params fname h = Some params ->
  exists args, call_arguments fname h = Some args /\ params = parse_params args.
Proof.
  unfold navigation_params. destruct (call_arguments fname h) as [args|];
    [|discriminate].
  intros [= <-]. now exists args.
Qed.

Lemma case_page_loads_inv (w : world) (params : list string) :
  case_page_loads w params ->
  no_challenge w /\
  (exists el h args,
     querySelector case_link_selector (result_page w) = Some el /\
     getAttribute "onclick" el = Some h /\
     call_arguments "openCaseDetailsWindow" h = Some args /\
     params = parse_params args) /\
  fault w AtEvalCaseOnclick = None /\ fault w AtGotoCase = None /\
  fault w AtEvalCaseText = None.
Proof.
  intros ((Hno & [el Hel]) & Heval & (h & Hh & Hnav) & Hgoto & Htext).
  split; [exact Hno|]. split; [|now repeat split].
  unfold case_handler in Hh. rewrite Hel in Hh.
  apply navigation_params_inv in Hnav as (args & Hargs & ->).
  now exists el, h, args.
Qed.

Lemma documents_page_loads_inv (w : world) (params eparams : list string) :
  documents_page_loads w params eparams ->
  case_page_loads w params /\
  (exists el a h args,
     fault w AtEvalEfiled = None /\
     querySelector efiled_selector (case_page w) = Some el /\
     getAttribute "onclick" el = Some (String a h) /\
     call_arguments "openDocumentWindow" (String a h) = Some args /\
     eparams = parse_params args) /\
  fault w AtGotoEfiled = None /\ fault w AtEvalDocs = None.
Proof.
  intros (Hcase & (h & Hh & Hne & Hnav) & Hgoto & Hdocs).
  split; [exact Hcase|]. split; [|now split].
  unfold efiledOnclick in Hh.
  destruct (fault w AtEvalEfiled) eqn:Hf; [discriminate|].
  destruct (querySelector efiled_selector (case_page w)) as [el|] eqn:Hel;
    [|discriminate].
  apply navigation_params_inv in Hnav as (args & Hargs & ->).
  destruct h as [|a h]; [congruence|].
  now exists el, a, h, args.
Qed.

End StageFacts.

(* ================================================================== *)
(** * Further properties of the program *)
(* ================================================================== *)

Import Court Handlers Trace MoreSamples.
Import HandlerFacts CourtFacts ContainmentFacts.
Import SinkFacts TraceFacts RunProperties StageFacts.

#[local] Arguments mkdir_recursive : simpl never.
#[local] Arguments caseUrl : simpl never.
#[local] Arguments efiledUrl : simpl never.
#[local] Arguments SEARCH_URL : simpl never.
#[local] Arguments CDP_URL : simpl never.
#[local] Arguments agentId : simpl never.
#[local] Arguments dec : simpl never.
#[local] Arguments court_select_text : simpl never.
#[local] Arguments captcha_selector_text : simpl never.
#[local] Arguments case_link_selector_text : simpl never.
#[local] Arguments efiled_selector_text : simpl never.
#[local] Arguments no_element_error : simpl never.
#[local] Arguments null_index_error : simpl never.
#[local] Arguments target_file : simpl never.
#[local] Arguments parse_params : simpl never.
#[local] Arguments labelled_line : simpl never.
#[local] Arguments trim : simpl never.

(** ** The handlers and the text of the case page *)

(** X1: the argument text read off a handler.  Whatever is captured is
    the argument text of a call of the function in the handler: not
    empty, without a closing parenthesis, between the parentheses of the
    call; and something is captured exactly when the handler holds such
    a call, so a call with an empty argument list gives nothing. *)
Theorem X1_call_arguments_are_those_of_a_call (fname h : string) :
  (forall args, call_arguments fname h = Some args -> handler_call fname h args) /\
  (is_Some (call_arguments fname h) <-> exists args, handler_call fname h args).
Proof.
  split; [intros args; apply call_arguments_sound|].
  split.
  - intros [args H]. exists args. now apply call_arguments_sound.
  - intros [args H]. now apply (call_arguments_complete fname h args).
Qed.

(** X2: a handler that calls the function on single-quoted tokens,
    separated by commas, is read back as these tokens, when no token
    holds a quote character, a comma or a closing parenthesis; white
    space inside a token is kept, and what follows the call is
    ignored. *)
Theorem X2_quoted_tokens_are_read_back
    (fname post : string) (tokens : list string) :
  tokens <> [] ->
  forallb clean_token tokens = true ->
  navigation_params fname (handler_of fname tokens +:+ post) = Some tokens.
Proof.
  intros Hne Hall. unfold navigation_params, handler_of.
  rewrite !append_assoc.
  rewrite call_arguments_here.
  - cbn [option_map]. now rewrite parse_params_quoted.
  - now apply joined_tokens_nonempty.
  - now apply joined_tokens_no_paren.
Qed.

Lemma X2_witness :
  navigation_params "openCaseDetailsWindow"
    (handler_of "openCaseDetailsWindow" params_ok +:+ "; return false")
  = Some params_ok.
Proof.
  apply (X2_quoted_tokens_are_read_back "openCaseDetailsWindow"
           "; return false" params_ok).
  - discriminate.
  - vm_compute. reflexivity.
Defined.

(** X3: the address of the case page reads the eighth parameter of the
    handler; an argument text with at most six commas has at most seven
    parameters, and the address then ends in the text undefined. *)
Theorem X3_case_address_of_seven_parameters (args : string) :
  count_char "," args <= 6 ->
  exists front,
    caseUrl (parse_params args) = front +:+ "&civilCaseId=undefined".
Proof.
  intros Hcount.
  assert (Hlen : List.length (parse_params args) <= 7).
  { unfold parse_params. rewrite List.length_map, split_length. lia. }
  apply nth_error_None in Hlen.
  unfold caseUrl at 1. unfold param at 7. rewrite Hlen.
  rewrite <- !append_assoc.
  rewrite (append_assoc _ "&civilCaseId=" "undefined").
  eexists. reflexivity.
Qed.

Lemma X3_witness :
  exists front,
    caseUrl (parse_params "'a','b','Suffolk','606529/2023','c','d','e'")
    = front +:+ "&civilCaseId=undefined".
Proof.
  apply (X3_case_address_of_seven_parameters
           "'a','b','Suffolk','606529/2023','c','d','e'").
  vm_compute. lia.
Defined.

(** X4: a line of the case text that starts with the label, in any case
    of the letters, followed by colons and white space and then by a
    value, gives the value up to the end of the line. *)
Theorem X4_labelled_line_gives_the_value
    (label word sep v tail : string) :
  strip_prefix_ci label word = Some EmptyString ->
  sep <> EmptyString -> all_chars is_label_sep sep = true ->
  line_value v -> line_end tail ->
  labelled_line label (word +:+ sep +:+ v +:+ tail) = Some v.
Proof.
  intros Hword Hne Hsep [Hfirst Hline] Htail.
  unfold labelled_line. apply search_here.
  rewrite (strip_prefix_ci_app label word _ Hword).
  destruct sep as [|c sep']; [congruence|].
  assert (Hc : is_label_sep c = true).
  { cbn [all_chars] in Hsep. now apply andb_true_iff in Hsep as [? _]. }
  change (String c sep' +:+ v +:+ tail) with (String c (sep' +:+ v +:+ tail)).
  cbv beta iota. rewrite (label_sep_not_s c Hc).
  change (String c (sep' +:+ v +:+ tail)) with (String c sep' +:+ (v +:+ tail)).
  apply plus_maximal; [discriminate | exact Hsep | |].
  - destruct v as [|c0 v']; [destruct Hfirst | exact Hfirst].
  - apply plus_maximal; [| exact Hline | | reflexivity].
    + destruct v; [destruct Hfirst | discriminate].
    + destruct tail as [|c1 tail']; [exact I|]. cbn in Htail. now subst c1.
Qed.

Lemma X4_witness :
  labelled_line "plaintiff"
    ("PLAINTIFF" +:+ ": " +:+ "BANK X" +:+ String "010" "Defendant: JOHN DOE")
  = Some "BANK X".
Proof.
  apply (X4_labelled_line_gives_the_value "plaintiff" "PLAINTIFF" ": "
           "BANK X" (String "010" "Defendant: JOHN DOE")).
  - vm_compute. reflexivity.
  - discriminate.
  - vm_compute. reflexivity.
  - split; vm_compute; reflexivity.
  - reflexivity.
Defined.

(** X5: what is read after a label is never empty, holds no line break
    and is a piece of the text. *)
Theorem X5_labelled_line_is_a_piece_of_one_line (label text m : string) :
  labelled_line label text = Some m ->
  m <> EmptyString /\
  all_chars (fun c => negb (is_char "010" c)) m = true /\
  occurs m text.
Proof.
  unfold labelled_line. intros H.
  apply search_Some in H as (pre & t & -> & H).
  destruct (strip_prefix_ci label t) as [r|] eqn:E; [|discriminate].
  assert (Hr : forall r0 : string,
            plus (fun c => is_char ":" c || is_space c)
                 (fun _ rest =>
                    plus (fun c => negb (is_char "010" c))
                         (fun m0 _ => Some m0) rest) r0 = Some m ->
            m <> EmptyString /\
            all_chars (fun c => negb (is_char "010" c)) m = true /\
            occurs m r0).
  { intros r0 Hp.
    apply plus_Some in Hp as (m1 & rest1 & -> & _ & _ & Hp).
    apply plus_Some in Hp as (m2 & rest2 & -> & Hne & Hall & [= <-]).
    split; [exact Hne|]. split; [exact Hall|]. now exists m1, rest2. }
  assert (Ht : occurs m r -> occurs m (pre +:+ t)).
  { intros (a & b & ->).
    assert (Hlen : exists u, t = u +:+ a +:+ m +:+ b).
    { clear H Hr. revert t E. induction label as [|x label IH]; intros t; simpl.
      - intros [= ->]. now exists EmptyString.
      - destruct t as [|y t]; [discriminate|].
        destruct (Ascii.eqb x (to_lower y)); [|discriminate].
        intros E. destruct (IH t E) as [u ->]. now exists (String y u). }
    destruct Hlen as [u ->]. exists (pre +:+ u +:+ a), b.
    now rewrite !append_assoc. }
  destruct r as [|c r'].
  - destruct (Hr _ H) as (? & ? & ?). auto.
  - destruct (is_char "s" (to_lower c)).
    + destruct (plus _ _ r') as [x|] eqn:Hx.
      * injection H as ->. destruct (Hr _ Hx) as (? & ? & (a & b & ->)).
        repeat split; auto. apply Ht. now exists (String c a), b.
      * destruct (Hr _ H) as (? & ? & ?). auto.
    + destruct (Hr _ H) as (? & ? & ?). auto.
Qed.

Lemma X5_witness :
  "BANK X" <> EmptyString /\
  all_chars (fun c => negb (is_char "010" c)) "BANK X" = true /\
  occurs "BANK X" (case_text w_ok).
Proof.
  apply (X5_labelled_line_is_a_piece_of_one_line "plaintiff" (case_text w_ok)
           "BANK X").
  vm_compute. reflexivity.
Defined.

(** ** The selection of the court *)

(** X6: the script of the court selection gives the value of the first
    option whose text names the supreme court of the county, up to the
    case of the letters, and nothing when the page has no selection box
    or none of its options does. *)
Theorem X6_first_option_naming_the_court
    (sel : option (list court_option)) (county v : string) :
  countyValue_script sel county = Some v <->
  exists before o after,
    sel = Some (before ++ o :: after) /\ option_value o = v /\
    names_court county o /\
    Forall (fun o' => ~ names_court county o') before.
Proof.
  unfold countyValue_script, names_court. split.
  - destruct sel as [options|]; [|discriminate].
    destruct (find (court_matches county) options) as [o|] eqn:E; [|discriminate].
    intros [= <-]. apply find_first in E as (before & after & -> & Ho & Hb).
    exists before, o, after. repeat split; [now apply includes_occurs|].
    eapply Forall_impl; [exact Hb|]. cbv beta. intros o' Ho' Hocc.
    apply includes_occurs in Hocc. unfold court_matches in Ho'. congruence.
  - intros (before & o & after & -> & <- & Ho & Hb).
    assert (E : find (court_matches county) (before ++ o :: after) = Some o).
    { apply find_first. exists before, after. repeat split.
      - now apply includes_occurs.
      - eapply Forall_impl; [exact Hb|]. cbv beta. intros o' Ho'.
        unfold court_matches.
        destruct (includes _ _) eqn:Hi; [|reflexivity].
        apply includes_occurs in Hi. now destruct Ho'. }
    now rewrite E.
Qed.

(** X7: the county is looked for as a piece of the text of an option:
    when a name that ends in the county selects a court, so does the
    county itself. *)
Theorem X7_county_is_matched_as_a_piece
    (sel : option (list court_option)) (pre county : string) :
  is_Some (countyValue_script sel (pre +:+ county)) ->
  is_Some (countyValue_script sel county).
Proof.
  unfold countyValue_script. destruct sel as [options|];
    [|intros [? ?]; discriminate].
  destruct (find (court_matches (pre +:+ county)) options) as [o|] eqn:E;
    [|intros [? ?]; discriminate].
  intros _. apply find_some in E as [Hin Ho].
  assert (Hc : court_matches county o = true).
  { unfold court_matches in *. apply includes_occurs in Ho as (a & b & Hab).
    apply includes_occurs. exists (a +:+ toLowerCase pre), b.
    rewrite Hab, toLowerCase_app, !append_assoc. reflexivity. }
  destruct (find (court_matches county) options) as [o'|] eqn:E'; [eauto|].
  pose proof (find_none _ _ E' o Hin). congruence.
Qed.

Lemma X7_witness :
  is_Some (countyValue_script (Some supreme_courts) "York").
Proof.
  apply (X7_county_is_matched_as_a_piece (Some supreme_courts) "New " "York").
  vm_compute. eauto.
Defined.

(** ** The dashboard *)

(** X8: the pool changes nothing but the queries to the dashboard:
    with and without it the run ends the same way, with the same result,
    directories and files, and with the same calls into the file system
    and the browser, in the same order. *)
Theorem X8_pool_changes_the_dashboard_queries_only
    (w : world) (b : bool) (i c : string) (d0 : gset string)
    (f0 : gmap string buffer) :
  fst (scrapeCase (with_pool b w) i c d0 f0) = fst (scrapeCase w i c d0 f0) /\
  dirs (snd (scrapeCase (with_pool b w) i c d0 f0)) =
    dirs (snd (scrapeCase w i c d0 f0)) /\
  files (snd (scrapeCase (with_pool b w) i c d0 f0)) =
    files (snd (scrapeCase w i c d0 f0)) /\
  capability_calls (calls (snd (scrapeCase (with_pool b w) i c d0 f0))) =
    capability_calls (calls (snd (scrapeCase w i c d0 f0))).
Proof.
  destruct (scrapeCase_pool w b i c d0 f0) as [E (_ & _ & _ & Hd & Hf & Hc)].
  now repeat split.
Qed.

(** X9: the dashboard is queried through the pool only, always for the
    agent named after the index number, with its first separator
    replaced, and only with the statuses searching and failed. *)
Theorem X9_dashboard_queries_need_the_pool
    (w : world) (i c : string) (d0 : gset string) (f0 : gmap string buffer)
    (a step st : string) :
  In (DashboardQuery a step st) (calls (snd (scrapeCase w i c d0 f0))) ->
  pool w = true /\ a = "scraper-" +:+ replace "/" "-" i /\
  (st = "searching" \/ st = "failed").
Proof.
  intros Hin. destruct (scrapeCase_trace w i c d0 f0) as [Hall _].
  rewrite Forall_forall in Hall.
  exact (Hall _ (proj2 (list_elem_of_In _ _) Hin)).
Qed.

Lemma X9_witness :
  pool w_ok = true /\
  "scraper-606529-2023" = "scraper-" +:+ replace "/" "-" "606529/2023" /\
  ("searching" = "searching" \/ "searching" = "failed").
Proof.
  apply (X9_dashboard_queries_need_the_pool w_ok "606529/2023" "Suffolk" ∅ ∅
           "scraper-606529-2023" "Connecting to browser..." "searching").
  vm_compute. right. left. reflexivity.
Defined.

(** X10: with a pool, the last status written to the dashboard is
    failed exactly when the run ends with an error recorded; so a run
    that ends without error, be it without any download, leaves the
    dashboard at searching. *)
Theorem X10_dashboard_ends_failed_exactly_on_error
    (w : world) (i c : string) (d0 : gset string) (f0 : gmap string buffer) :
  pool w = true ->
  (last (dashboard_statuses (calls (snd (scrapeCase w i c d0 f0)))) =
     Some "failed" <->
   is_Some (error (result (snd (scrapeCase w i c d0 f0))))).
Proof.
  intros Hpool.
  destruct (scrapeCase_trace w i c d0 f0) as (_ & _ & _ & _ & H & _).
  exact (H Hpool).
Qed.

Lemma X10_witness :
  last (dashboard_statuses (calls (final_state w_no_browser))) = Some "failed" <->
  is_Some (error (final_result w_no_browser)).
Proof.
  apply (X10_dashboard_ends_failed_exactly_on_error w_no_browser
           "606529/2023" "Suffolk" ∅ ∅).
  reflexivity.
Defined.

(** ** The file system and the browser *)


(** X12: the pages a run visits are the first ones of the search page,
    the case page of the case link and the documents page of the button
    of the case page, in this order: at most three, never one of them
    twice, and none before the one before it. *)
Theorem X12_pages_are_visited_in_order
    (w : world) (i c : string) (d0 : gset string) (f0 : gmap string buffer) :
  navigations (calls (snd (scrapeCase w i c d0 f0)))
    `prefix_of` planned_navigations w.
Proof.
  destruct (scrapeCase_trace w i c d0 f0) as (_ & _ & H & _). exact H.
Qed.

(** X13: the tab is closed once or twice on every run that got one, and
    exactly once when the run ends without error; no run closes a tab it
    did not get. *)
Theorem X13_tab_is_closed_when_there_is_one
    (w : world) (i c : string) (d0 : gset string) (f0 : gmap string buffer) :
  (page_acquired w ->
   1 <= closes (calls (snd (scrapeCase w i c d0 f0))) <= 2) /\
  (~ page_acquired w ->
   closes (calls (snd (scrapeCase w i c d0 f0))) = 0) /\
  (page_acquired w ->
   error (result (snd (scrapeCase w i c d0 f0))) = None ->
   closes (calls (snd (scrapeCase w i c d0 f0))) = 1).
Proof.
  destruct (scrapeCase_trace w i c d0 f0) as (_ & _ & _ & H & _). exact H.
Qed.

(** X24: what is fetched in the pages are the addresses of the documents
    of the result, each of them once and in the order of the documents
    page, whatever the downloads before it did: a download that fails
    does not end the loop. *)
Theorem X24_every_document_is_fetched_once
    (w : world) (i c : string) (d0 : gset string) (f0 : gmap string buffer) :
  fetches (calls (snd (scrapeCase w i c d0 f0))) =
  List.map url (documents (result (snd (scrapeCase w i c d0 f0)))).
Proof.
  destruct (scrapeCase_trace w i c d0 f0) as (_ & _ & _ & _ & _ & H). exact H.
Qed.

(** X25: the directory of the case cannot leave the download directory
    unless a piece of the index number, split at its separators after
    the first one was replaced, is the name of the parent directory: the
    names along the directory of the result are those of the download
    directory followed by the pieces of the index number that are
    neither empty nor the name of the current directory. *)
Theorem X25_case_directory_stays_below_the_download_directory
    (w : world) (i c : string) (d0 : gset string) (f0 : gmap string buffer) :
  Forall (fun seg => seg <> "..") (split "/" (replace "/" "-" i)) ->
  path_names (caseDir (result (snd (scrapeCase w i c d0 f0)))) =
  path_names DOWNLOAD_DIR ++
  List.filter kept_name (split "/" (replace "/" "-" i)).
Proof.
  intros Hall.
  destruct (scrapeCase_result_ok w i c d0 f0) as ((_ & _ & ->) & _).
  now apply derived_dir_names.
Qed.

Lemma X25_witness :
  path_names (caseDir (final_result w_ok)) =
  path_names DOWNLOAD_DIR ++
  List.filter kept_name (split "/" (replace "/" "-" "606529/2023")).
Proof.
  apply (X25_case_directory_stays_below_the_download_directory w_ok
           "606529/2023" "Suffolk" ∅ ∅).
  vm_compute. apply Forall_cons_2; [discriminate | constructor].
Defined.

(** X27: the browser is driven with the request only: the program
    connects to the local endpoint, sends the tab to addresses of the
    court site only, types nothing but the index number, into the index
    field, and selects nothing but the value the court script gave, when
    that value is not empty. *)
Theorem X27_browser_is_driven_with_the_request_only
    (w : world) (i c : string) (d0 : gset string) (f0 : gmap string buffer) :
  (forall u, In (Connect u) (calls (snd (scrapeCase w i c d0 f0))) ->
             u = CDP_URL) /\
  (forall u, In (Goto u) (calls (snd (scrapeCase w i c d0 f0))) ->
             exists rest, u = COURT_SITE +:+ rest) /\
  (forall sel t, In (TypeText sel t) (calls (snd (scrapeCase w i c d0 f0))) ->
                 sel = "#txtIndex" /\ t = i) /\
  (forall sel v, In (SelectOption sel v) (calls (snd (scrapeCase w i c d0 f0))) ->
                 sel = court_select_text /\ countyValue w = Some v /\
                 v <> EmptyString).
Proof.
  destruct (scrapeCase_trace w i c d0 f0) as (Hall & _).
  rewrite Forall_forall in Hall.
  split; [|split; [|split]]; intros;
    match goal with
    | Hin : In ?x _ |- _ =>
        exact (Hall x (proj2 (list_elem_of_In _ _) Hin))
    end.
Qed.

(** ** The fields of the result *)

(** X14: the result names the index number and the county it was asked
    for and the directory derived from the index number; it holds a
    site key exactly when the challenge was detected, and then it holds
    an error and nothing of the case. *)
Theorem X14_request_is_echoed_and_challenge_is_flagged
    (w : world) (i c : string) (d0 : gset string) (f0 : gmap string buffer) :
  let r := result (snd (scrapeCase w i c d0 f0)) in
  (indexNumber r = i /\ county r = c /\ caseDir r = derived_dir i) /\
  (hcaptchaDetected r = true <-> is_Some (hcaptchaSitekey r)) /\
  (hcaptchaDetected r = true ->
   is_Some (error r) /\ caseInfo r = None /\ documents r = [] /\ pdfs r = ∅).
Proof.
  destruct (scrapeCase_result_ok w i c d0 f0) as (H1 & (H2 & H3) & _).
  cbv zeta. split; [exact H1 | split; [exact H2 | exact H3]].
Qed.

(** X15: what the result holds of the case is what the pages hold, stage
    by stage: the case information is the one read off the text of the
    case page, the documents are the records of the documents page and
    come with the case information only, local files come with documents
    only, and a result returned without error has documents. *)
Theorem X15_result_is_filled_stage_by_stage
    (w : world) (i c : string) (d0 : gset string) (f0 : gmap string buffer) :
  let r := result (snd (scrapeCase w i c d0 f0)) in
  (caseInfo r = None \/ caseInfo r = Some (case_info_of w)) /\
  (documents r = [] \/
   documents r = scan_documents (docs_page w) /\
   caseInfo r = Some (case_info_of w)) /\
  (documents r = [] -> pdfs r = ∅) /\
  (fault w AtMkdir = None -> error r = None ->
   documents r <> [] /\ hcaptchaDetected r = false).
Proof.
  destruct (scrapeCase_result_ok w i c d0 f0) as (_ & _ & (H1 & H2 & H3) & H4).
  cbv zeta. split; [exact H1 | split; [exact H2 | split; [exact H3 | exact H4]]].
Qed.

(** ** Runs by the stage they end in *)

(** X26: when the search completes and the query for the challenge
    finds an element, the result is returned with the challenge flagged
    and with the site key read off the first element that carries one;
    the site key is null when there is no such element or when reading
    it fails, and neither keeps the result from being returned. *)
Theorem X26_site_key_of_the_challenge
    (w : world) (i c : string) (d0 : gset string) (f0 : gmap string buffer)
    (e : node) :
  search_completes w ->
  querySelector captcha_selector (result_page w) = Some e ->
  exists s,
    scrapeCase w i c d0 f0 = (Resolved (result s), s) /\
    hcaptchaDetected (result s) = true /\
    hcaptchaSitekey (result s) = Some (sitekey_of w).
Proof.
  intros (Hmk & Hconn & Hnew & Hgoto & Hwait & Htype & Hcounty & Hsel &
          Hclick & Hq) Hcap.
  apply scrapeCase_returns; [exact Hmk|].
  rewrite entry_state_eq. generalize (derived_dir i). intros dir.
  destruct (pool w) eqn:Hpool;
    destruct (countyValue w) as [[|a v]|] eqn:Hcv;
    run_known.
  all: rewrite ?Hpool; cbn.
  all: unfold sitekey_of;
    repeat match goal with
           | H : fault _ AtEvalSitekey = _ |- _ => rewrite H
           | H : querySelector sitekey_selector _ = _ |- _ => rewrite H
           end.
  all: now split.
Qed.

Lemma X26_witness :
  exists s,
    run_of w_challenge = (Resolved (result s), s) /\
    hcaptchaDetected (result s) = true /\
    hcaptchaSitekey (result s) = Some (sitekey_of w_challenge).
Proof.
  apply (X26_site_key_of_the_challenge w_challenge "606529/2023" "Suffolk" ∅ ∅
           (Elem "div" [("class", "h-captcha"); ("data-sitekey", "10000000-ffff")] [])).
  - repeat split; reflexivity.
  - vm_compute. reflexivity.
Defined.

(** X16: when the search result shows no challenge and holds no case
    link, the run returns a result whose [error] is the text No case
    found, or the message of the exception when closing the tab throws;
    nothing of a case is in the result, the search page is the only page
    visited and no file is written. *)
Theorem X16_no_case_link_ends_the_run
    (w : world) (i c : string) (d0 : gset string) (f0 : gmap string buffer) :
  no_challenge w ->
  querySelector case_link_selector (result_page w) = None ->
  exists s,
    scrapeCase w i c d0 f0 = (Resolved (result s), s) /\
    error (result s) =
      Some (or_message "No case found" (fault w AtCloseNotFound)) /\
    success (result s) = false /\ hcaptchaDetected (result s) = false /\
    caseInfo (result s) = None /\ documents (result s) = [] /\
    pdfs (result s) = ∅ /\
    navigations (calls s) = [SEARCH_URL] /\ files s = f0.
Proof.
  intros ((Hmk & Hconn & Hnew & Hgoto & Hwait & Htype & Hcounty & Hsel &
           Hclick & Hq) & Hcap & Hqc) Hlink.
  apply scrapeCase_returns; [exact Hmk|].
  rewrite entry_state_eq. generalize (derived_dir i). intros dir.
  destruct (pool w) eqn:Hpool;
    destruct (countyValue w) as [[|a v]|] eqn:Hcv;
    run_known.
  all: rewrite ?Hpool; cbn.
  all: match goal with
       | H : fault _ AtCloseNotFound = _ |- _ => rewrite H
       end.
  all: now repeat split.
Qed.

Lemma X16_witness :
  exists s,
    run_of w_not_found = (Resolved (result s), s) /\
    error (result s) = Some "No case found" /\
    success (result s) = false /\ hcaptchaDetected (result s) = false /\
    caseInfo (result s) = None /\ documents (result s) = [] /\
    pdfs (result s) = ∅ /\
    navigations (calls s) = [SEARCH_URL] /\ files s = ∅.
Proof.
  apply (X16_no_case_link_ends_the_run w_not_found "606529/2023" "Suffolk" ∅ ∅).
  - repeat split; reflexivity.
  - vm_compute. reflexivity.
Defined.

(** X17: when the handler of the case link holds no call of the
    case-details function with a non-empty argument list, the run
    returns a result whose [error] is the message of the TypeError
    raised on the missing match; the case page is not visited, and the
    tab is closed once. *)
Theorem X17_unparsable_case_link_is_an_error
    (w : world) (i c : string) (d0 : gset string) (f0 : gmap string buffer)
    (h : string) :
  case_found w ->
  fault w AtEvalCaseOnclick = None ->
  case_handler w = Some h ->
  call_arguments "openCaseDetailsWindow" h = None ->
  exists s,
    scrapeCase w i c d0 f0 = (Resolved (result s), s) /\
    error (result s) = Some null_index_error /\
    success (result s) = false /\ caseInfo (result s) = None /\
    documents (result s) = [] /\
    navigations (calls s) = [SEARCH_URL] /\ closes (calls s) = 1.
Proof.
  intros (Hno & [el Hel]) Heval Hh Hargs.
  apply no_challenge_inv in Hno
    as ((Hmk & Hconn & Hnew & Hgoto & Hwait & Htype & Hcounty & Hsel &
         Hclick & Hq) & Hcap & Hqc).
  unfold case_handler in Hh. rewrite Hel in Hh.
  apply scrapeCase_returns; [exact Hmk|].
  rewrite entry_state_eq. generalize (derived_dir i). intros dir.
  destruct (pool w) eqn:Hpool;
    destruct (countyValue w) as [[|a v]|] eqn:Hcv;
    run_known.
  all: rewrite ?Hpool; cbn.
  all: now repeat split.
Qed.

Lemma X17_witness :
  exists s,
    run_of w_empty_handler = (Resolved (result s), s) /\
    error (result s) = Some null_index_error /\
    success (result s) = false /\ caseInfo (result s) = None /\
    documents (result s) = [] /\
    navigations (calls s) = [SEARCH_URL] /\ closes (calls s) = 1.
Proof.
  apply (X17_unparsable_case_link_is_an_error w_empty_handler
           "606529/2023" "Suffolk" ∅ ∅ "openCaseDetailsWindow()").
  - split; [repeat split; reflexivity | vm_compute; eauto].
  - reflexivity.
  - vm_compute. reflexivity.
  - vm_compute. reflexivity.
Defined.

(** X18: when the case page was loaded and the handler of the button of
    the filed documents cannot be read (the evaluation fails, there is
    no such button, or its handler is empty), the run returns a result
    whose [error] is the text No eFiled docs button, or the message of
    the exception when closing the tab throws: a failure of the
    evaluation is not reported as such.  The case information is in the
    result, no document is, and the search page and the case page are
    the pages visited. *)
Theorem X18_no_button_ends_the_run
    (w : world) (i c : string) (d0 : gset string) (f0 : gmap string buffer)
    (params : list string) :
  case_page_loads w params ->
  efiledOnclick w = None \/ efiledOnclick w = Some EmptyString ->
  exists s,
    scrapeCase w i c d0 f0 = (Resolved (result s), s) /\
    error (result s) =
      Some (or_message "No eFiled docs button" (fault w AtCloseNoButton)) /\
    success (result s) = false /\
    caseInfo (result s) = Some (case_info_of w) /\
    documents (result s) = [] /\ pdfs (result s) = ∅ /\
    navigations (calls s) = [SEARCH_URL; caseUrl params].
Proof.
  intros Hload Hbtn.
  apply case_page_loads_inv in Hload
    as (Hno & (el & h & args & Hel & Hh & Hargs & ->) & Heval & Hgoto' & Htext).
  apply no_challenge_inv in Hno
    as ((Hmk & Hconn & Hnew & Hgoto & Hwait & Htype & Hcounty & Hsel &
         Hclick & Hq) & Hcap & Hqc).
  apply scrapeCase_returns; [exact Hmk|].
  rewrite entry_state_eq. generalize (derived_dir i). intros dir.
  unfold efiledOnclick in Hbtn.
  destruct (fault w AtEvalEfiled) as [e|] eqn:Hfe;
    [| destruct (querySelector efiled_selector (case_page w)) as [el'|] eqn:Hq';
       [ destruct (getAttribute "onclick" el') as [[|a' h']|] eqn:Hattr;
         [ | destruct Hbtn; discriminate | ] | ] ].
  all: destruct (pool w) eqn:Hpool;
    destruct (countyValue w) as [[|a v]|] eqn:Hcv;
    run_known.
  all: rewrite ?Hpool; cbn.
  all: match goal with
       | H : fault _ AtCloseNoButton = _ |- _ => rewrite H
       end.
  all: now repeat split.
Qed.

Lemma X18_witness :
  exists s,
    run_of w_button_eval_fails = (Resolved (result s), s) /\
    error (result s) = Some "No eFiled docs button" /\
    success (result s) = false /\
    caseInfo (result s) = Some (case_info_of w_button_eval_fails) /\
    documents (result s) = [] /\ pdfs (result s) = ∅ /\
    navigations (calls s) = [SEARCH_URL; caseUrl params_ok].
Proof.
  apply (X18_no_button_ends_the_run w_button_eval_fails
           "606529/2023" "Suffolk" ∅ ∅ params_ok).
  - split; [split; [repeat split; reflexivity | vm_compute; eauto]|].
    split; [reflexivity|]. split; [|split; reflexivity].
    exists case_handler_ok. split; vm_compute; reflexivity.
  - left. reflexivity.
Defined.

(** X19: when the documents page was loaded and none of its rows gives
    a record, the run returns a result whose [error] is the text No
    target documents found, or the message of the exception when
    closing the tab throws; the case information is in the result, and
    the three pages were visited in order. *)
Theorem X19_no_target_document_ends_the_run
    (w : world) (i c : string) (d0 : gset string) (f0 : gmap string buffer)
    (params eparams : list string) :
  documents_page_loads w params eparams ->
  scan_documents (docs_page w) = [] ->
  exists s,
    scrapeCase w i c d0 f0 = (Resolved (result s), s) /\
    error (result s) =
      Some (or_message "No target documents found" (fault w AtCloseNoDocs)) /\
    success (result s) = false /\
    caseInfo (result s) = Some (case_info_of w) /\
    documents (result s) = [] /\ pdfs (result s) = ∅ /\
    navigations (calls s) = [SEARCH_URL; caseUrl params; efiledUrl eparams] /\
    files s = f0.
Proof.
  intros Hload Hnone.
  apply documents_page_loads_inv in Hload
    as (Hload & (el' & a' & h' & args' & Hfe & Hel' & Hh' & Hargs' & ->) &
        Hgoto'' & Hdocs).
  apply case_page_loads_inv in Hload
    as (Hno & (el & h & args & Hel & Hh & Hargs & ->) & Heval & Hgoto' & Htext).
  apply no_challenge_inv in Hno
    as ((Hmk & Hconn & Hnew & Hgoto & Hwait & Htype & Hcounty & Hsel &
         Hclick & Hq) & Hcap & Hqc).
  apply scrapeCase_returns; [exact Hmk|].
  rewrite entry_state_eq. generalize (derived_dir i). intros dir.
  destruct (pool w) eqn:Hpool;
    destruct (countyValue w) as [[|a v]|] eqn:Hcv;
    run_known.
  all: rewrite ?Hpool; cbn.
  all: match goal with
       | H : fault _ AtCloseNoDocs = _ |- _ => rewrite H
       end.
  all: now repeat split.
Qed.

Lemma X19_witness :
  exists s,
    run_of w_no_documents = (Resolved (result s), s) /\
    error (result s) = Some "No target documents found" /\
    success (result s) = false /\
    caseInfo (result s) = Some (case_info_of w_no_documents) /\
    documents (result s) = [] /\ pdfs (result s) = ∅ /\
    navigations (calls s) =
      [SEARCH_URL; caseUrl params_ok; efiledUrl eparams_ok] /\
    files s = ∅.
Proof.
  apply (X19_no_target_document_ends_the_run w_no_documents
           "606529/2023" "Suffolk" ∅ ∅ params_ok eparams_ok).
  - split; [|split; [|split; reflexivity]].
    + split; [split; [repeat split; reflexivity | vm_compute; eauto]|].
      split; [reflexivity|]. split; [|split; reflexivity].
      exists case_handler_ok. split; vm_compute; reflexivity.
    + exists efiled_handler_ok. split; [vm_compute; reflexivity|].
      split; [discriminate | vm_compute; reflexivity].
  - vm_compute. reflexivity.
Defined.

(** X20: when the documents page was loaded and some row gives a
    record, the run goes through the downloads to the end: the result
    holds the case information and the records of the page, the three
    pages were visited in order, [error] is empty unless closing the tab
    throws, and [success] is set exactly when the tab was closed and
    some download went through. *)
Theorem X20_listed_documents_are_downloaded
    (w : world) (i c : string) (d0 : gset string) (f0 : gmap string buffer)
    (params eparams : list string) :
  documents_page_loads w params eparams ->
  scan_documents (docs_page w) <> [] ->
  exists s,
    scrapeCase w i c d0 f0 = (Resolved (result s), s) /\
    error (result s) = fault w AtCloseDone /\
    hcaptchaDetected (result s) = false /\
    caseInfo (result s) = Some (case_info_of w) /\
    documents (result s) = scan_documents (docs_page w) /\
    navigations (calls s) = [SEARCH_URL; caseUrl params; efiledUrl eparams] /\
    (success (result s) = true <->
     fault w AtCloseDone = None /\
     exists n d, nth_error (scan_documents (docs_page w)) n = Some d /\
                 download_succeeds w n).
Proof.
  intros Hload Hsome.
  assert (H : exists s,
    scrapeCase w i c d0 f0 = (Resolved (result s), s) /\
    (error (result s) = fault w AtCloseDone /\
     hcaptchaDetected (result s) = false /\
     caseInfo (result s) = Some (case_info_of w) /\
     documents (result s) = scan_documents (docs_page w) /\
     navigations (calls s) = [SEARCH_URL; caseUrl params; efiledUrl eparams])).
  { apply documents_page_loads_inv in Hload
      as (Hload & (el' & a' & h' & args' & Hfe & Hel' & Hh' & Hargs' & ->) &
          Hgoto'' & Hdocs).
    apply case_page_loads_inv in Hload
      as (Hno & (el & h & args & Hel & Hh & Hargs & ->) & Heval & Hgoto' & Htext).
    apply no_challenge_inv in Hno
      as ((Hmk & Hconn & Hnew & Hgoto & Hwait & Htype & Hcounty & Hsel &
           Hclick & Hq) & Hcap & Hqc).
    apply scrapeCase_returns; [exact Hmk|].
    rewrite entry_state_eq. generalize (derived_dir i). intros dir.
    destruct (pool w) eqn:Hpool;
      destruct (countyValue w) as [[|a v]|] eqn:Hcv;
      run_known; try congruence.
    all: rewrite ?Hpool; cbn.
    all: loop_calls_away.
    all: rewrite ?omap_app; cbn.
    all: try match goal with Hn : omap _ _ = [] |- _ => rewrite Hn end.
    all: match goal with
         | H : fault _ AtCloseDone = _ |- _ => rewrite H
         end.
    all: now repeat split. }
  destruct H as (s & E & Herr & Hcap & Hinfo & Hdocs & Hnav).
  exists s. do 6 (split; [assumption|]).
  rewrite (success_by_downloads w i c d0 f0 _ s E), Herr, Hdocs.
  reflexivity.
Qed.

Lemma X20_witness :
  exists s,
    run_of w_first_fetch_fails = (Resolved (result s), s) /\
    error (result s) = None /\
    hcaptchaDetected (result s) = false /\
    caseInfo (result s) = Some (case_info_of w_first_fetch_fails) /\
    documents (result s) = scan_documents both_documents /\
    navigations (calls s) =
      [SEARCH_URL; caseUrl params_ok; efiledUrl eparams_ok] /\
    (success (result s) = true <->
     None = (None : option string) /\
     exists n d, nth_error (scan_documents both_documents) n = Some d /\
                 download_succeeds w_first_fetch_fails n).
Proof.
  apply (X20_listed_documents_are_downloaded w_first_fetch_fails
           "606529/2023" "Suffolk" ∅ ∅ params_ok eparams_ok).
  - split; [|split; [|split; reflexivity]].
    + split; [split; [repeat split; reflexivity | vm_compute; eauto]|].
      split; [reflexivity|]. split; [|split; reflexivity].
      exists case_handler_ok. split; vm_compute; reflexivity.
    + exists efiled_handler_ok. split; [vm_compute; reflexivity|].
      split; [discriminate | vm_compute; reflexivity].
  - vm_compute. discriminate.
Defined.

(** X21: on every run that returns a result, [success] is set exactly
    when no error was recorded and the download of some document of the
    result went through: its fetch and the writing of its file did not
    throw.  A download that fails does not keep the others from
    counting. *)
Theorem X21_success_needs_one_download_to_go_through
    (w : world) (i c : string) (d0 : gset string) (f0 : gmap string buffer)
    (r : ScrapeResult) (s : state) :
  scrapeCase w i c d0 f0 = (Resolved r, s) ->
  (success r = true <->
   error r = None /\
   exists n d, nth_error (documents r) n = Some d /\ download_succeeds w n).
Proof. apply success_by_downloads. Qed.

Lemma X21_witness :
  success (final_result w_first_fetch_fails) = true <->
  error (final_result w_first_fetch_fails) = None /\
  exists n d,
    nth_error (documents (final_result w_first_fetch_fails)) n = Some d /\
    download_succeeds w_first_fetch_fails n.
Proof.
  apply (X21_success_needs_one_download_to_go_through w_first_fetch_fails
           "606529/2023" "Suffolk" ∅ ∅ (final_result w_first_fetch_fails)
           (final_state w_first_fetch_fails)).
  vm_compute. reflexivity.
Defined.

(** ** The command line *)

(** X22: with an argument missing or empty, the program prints the
    usage and exits with status 1 without any call; with both arguments
    there, it starts by making the directory of the case. *)
Theorem X22_usage_when_an_argument_is_missing
    (w : world) (argv : list string) (d0 : gset string)
    (f0 : gmap string buffer) :
  (~ arguments_given argv ->
   main w argv d0 f0 = {| stdout := [Usage]; status := Exit 1; issued := [] |}) /\
  (arguments_given argv ->
   exists rest,
     issued (main w argv d0 f0) = MkdirSync (derived_dir (arg 0 argv)) :: rest).
Proof.
  split.
  - intros Hnot. unfold main.
    destruct argv as [|[|x a] [|[|y b] rest]]; try reflexivity.
    exfalso. apply Hnot. exists (String x a), (String y b), rest.
    now repeat split.
  - intros (a & b & rest & -> & Ha & Hb).
    destruct a as [|x a]; [congruence|]. destruct b as [|y b]; [congruence|].
    unfold main. cbn [nth_error falsy orb arg].
    destruct (scrapeCase w (String x a) (String y b) d0 f0) as [cpl s] eqn:E.
    destruct (then_chain cpl) as [out e]. cbn [issued].
    destruct cpl as [r|msg].
    + destruct (scrapeCase_directory w _ _ d0 f0 r s E) as (_ & Hcalls & _).
      exact Hcalls.
    + unfold scrapeCase in E. destruct (fault w AtMkdir); [|discriminate].
      injection E as _ <-. now exists [].
Qed.

(** X23: with both arguments there, the program never ends with an exit
    status of its own: the promise chain ends rejected, by the exception
    of the directory that cannot be made, and otherwise by the reference
    to the unbound name in the last callback, whatever the result. *)
Theorem X23_no_exit_status_with_both_arguments
    (w : world) (argv : list string) (d0 : gset string)
    (f0 : gmap string buffer) :
  arguments_given argv ->
  status (main w argv d0 f0) =
    UnhandledRejection (or_message "r is not defined" (fault w AtMkdir)).
Proof.
  intros (a & b & rest & -> & Ha & Hb).
  destruct a as [|x a]; [congruence|]. destruct b as [|y b]; [congruence|].
  unfold main. cbn [nth_error falsy orb arg].
  unfold scrapeCase. destruct (fault w AtMkdir) as [msg|]; reflexivity.
Qed.

Lemma X23_witness :
  status (main w_ok argv_ok ∅ ∅) =
    UnhandledRejection (or_message "r is not defined" (fault w_ok AtMkdir)).
Proof.
  apply (X23_no_exit_status_with_both_arguments w_ok argv_ok ∅ ∅).
  exists "606529/2023", "Suffolk", []. now repeat split.
Defined.
